(** * Anomaly detection on radiographs: masked loss, evaluation, training loop

    A shallow embedding of [src/models/__init__.py] (the classes [MaskedMSE],
    [BaselineAutoencoder], [BottleneckAutoencoder]) and of the epoch loop of
    [src/models/train.py].

    Numbers.  Tensor entries are exact rationals ([Qc], canonical fractions,
    so that Leibniz equality is numeric equality); rounding is not modelled.
    What IEEE arithmetic does on a division by zero is kept, because the code
    relies on it ([np.nanmax], [np.seterr(divide='ignore', invalid='ignore')]):
    a division yields a [scalar], which is a rational, an infinity or NaN.
    Overflow is not modelled either: a rational stays a rational however
    large, where a float becomes an infinity.

    Tensors.  An n-dimensional tensor is an n-fold nested list.  Elementwise
    operations zip their arguments; PyTorch and NumPy broadcast or raise when
    shapes differ, so the statements that depend on shapes carry [same_shape]
    hypotheses.

    Library routines ([nn.MSELoss], [np.argmax], [np.nanmax],
    [sklearn.metrics.*]) are written out after their documented behaviour;
    what the network layers compute is a parameter of the development. *)

From Stdlib Require Import List ZArith QArith Qcanon Lia Bool String Sorted.
Import ListNotations.

Set Implicit Arguments.

Open Scope Qc_scope.

(* ================================================================== *)
(** ** Rationals with the IEEE special values *)

Definition qz (z : Z) : Qc := Q2Qc (inject_Z z).
Definition qn (n : nat) : Qc := qz (Z.of_nat n).
Definition qfrac (a : Z) (b : positive) : Qc := Q2Qc (a # b).

Definition Qc_leb (x y : Qc) : bool :=
  match x ?= y with Gt => false | _ => true end.
Definition Qc_ltb (x y : Qc) : bool :=
  match x ?= y with Lt => true | _ => false end.
Definition Qc_eqb (x y : Qc) : bool :=
  match x ?= y with Eq => true | _ => false end.

Inductive scalar : Type :=
| Fin (q : Qc)
| PInf
| NInf
| NaN.

Definition is_nan (s : scalar) : bool :=
  match s with NaN => true | _ => false end.

Definition is_finite (s : scalar) : bool :=
  match s with Fin _ => true | _ => false end.

(** [a / b] on floats holding the rationals [a] and [b]. *)
Definition np_div (a b : Qc) : scalar :=
  if Qc_eqb b 0 then
    if Qc_eqb a 0 then NaN else if Qc_ltb 0 a then PInf else NInf
  else Fin (a / b).

Definition sadd (x y : scalar) : scalar :=
  match x, y with
  | NaN, _ | _, NaN => NaN
  | Fin a, Fin b => Fin (a + b)
  | PInf, NInf | NInf, PInf => NaN
  | PInf, _ | _, PInf => PInf
  | NInf, _ | _, NInf => NInf
  end.

Definition inf_of_sign (positive : bool) : scalar :=
  if positive then PInf else NInf.

Definition smul_inf (positive : bool) (a : Qc) : scalar :=
  if Qc_eqb a 0 then NaN
  else inf_of_sign (Bool.eqb positive (Qc_ltb 0 a)).

Definition smul (x y : scalar) : scalar :=
  match x, y with
  | NaN, _ | _, NaN => NaN
  | Fin a, Fin b => Fin (a * b)
  | PInf, Fin a | Fin a, PInf => smul_inf true a
  | NInf, Fin a | Fin a, NInf => smul_inf false a
  | PInf, PInf | NInf, NInf => PInf
  | PInf, NInf | NInf, PInf => NInf
  end.

Definition sdiv (x y : scalar) : scalar :=
  match x, y with
  | NaN, _ | _, NaN => NaN
  | Fin a, Fin b => np_div a b
  | Fin _, (PInf | NInf) => Fin 0
  | PInf, Fin b => inf_of_sign (Qc_leb 0 b)
  | NInf, Fin b => inf_of_sign (negb (Qc_leb 0 b))
  | (PInf | NInf), (PInf | NInf) => NaN
  end.

(** [x <= y] on floats: false as soon as one side is NaN. *)
Definition sle (x y : scalar) : bool :=
  match x, y with
  | NaN, _ | _, NaN => false
  | Fin a, Fin b => Qc_leb a b
  | NInf, _ | _, PInf => true
  | _, _ => false
  end.

(** [x > y] on floats: false as soon as one side is NaN. *)
Definition sgt (x y : scalar) : bool :=
  match x, y with
  | NaN, _ | _, NaN => false
  | Fin a, Fin b => Qc_ltb b a
  | PInf, (Fin _ | NInf) | Fin _, NInf => true
  | _, _ => false
  end.

(** Equality of floats as values (NaN equal to NaN), for stating what a
    computation returns. *)
Definition scalar_eqb (x y : scalar) : bool :=
  match x, y with
  | Fin a, Fin b => Qc_eqb a b
  | PInf, PInf | NInf, NInf | NaN, NaN => true
  | _, _ => false
  end.

(* ================================================================== *)
(** ** Tensors *)

Fixpoint zip_with {A B C : Type} (f : A -> B -> C)
         (l1 : list A) (l2 : list B) : list C :=
  match l1, l2 with
  | x :: r1, y :: r2 => f x y :: zip_with f r1 r2
  | _, _ => []
  end.

Fixpoint zip_with3 {A B C D : Type} (f : A -> B -> C -> D)
         (l1 : list A) (l2 : list B) (l3 : list C) : list D :=
  match l1, l2, l3 with
  | x :: r1, y :: r2, z :: r3 => f x y z :: zip_with3 f r1 r2 r3
  | _, _, _ => []
  end.

Fixpoint forall2b {A B : Type} (p : A -> B -> bool)
         (l1 : list A) (l2 : list B) : bool :=
  match l1, l2 with
  | [], [] => true
  | x :: r1, y :: r2 => p x y && forall2b p r1 r2
  | _, _ => false
  end.

Fixpoint tensor (n : nat) : Type :=
  match n with
  | O => Qc
  | S k => list (tensor k)
  end.

(** [f] entry by entry.  On two tensors of one shape this is the
    elementwise operation of torch and NumPy.  On other shapes they
    broadcast or raise [RuntimeError], while [tmap2] pairs the entries
    that both tensors have: it stands for the code on equal shapes only
    (see [same_shape], [well_shaped]). *)
Fixpoint tmap2 (f : Qc -> Qc -> Qc) (n : nat) : tensor n -> tensor n -> tensor n :=
  match n with
  | O => f
  | S k => zip_with (tmap2 f k)
  end.

(** Sum of all entries ([torch.sum(t)], [a.sum()]). *)
Fixpoint tsum (n : nat) : tensor n -> Qc :=
  match n with
  | O => fun x => x
  | S k => fun l => fold_right (fun t acc => tsum k t + acc) 0 l
  end.

(** Number of entries ([t.numel()]). *)
Fixpoint numel (n : nat) : tensor n -> nat :=
  match n with
  | O => fun _ => 1%nat
  | S k => fun l => fold_right (fun t acc => (numel k t + acc)%nat) 0%nat l
  end.

(** The entries in storage order. *)
Fixpoint flatten (n : nat) : tensor n -> list Qc :=
  match n with
  | O => fun x => [x]
  | S k => fun l => flat_map (flatten k) l
  end.

Fixpoint same_shape (n : nat) : tensor n -> tensor n -> bool :=
  match n with
  | O => fun _ _ => true
  | S k => forall2b (same_shape k)
  end.

(** Every entry satisfies [p]. *)
Fixpoint tall (p : Qc -> bool) (n : nat) : tensor n -> bool :=
  match n with
  | O => p
  | S k => forallb (tall p k)
  end.

Definition tmul := tmap2 Qcmult.

(** [a.sum(axis=(1, 2, 3))] on a 4-dimensional array: one sum per sample. *)
Definition sum_axis123 (t : tensor 4) : list Qc := map (tsum 3) t.

(** A validity mask: 1 on image content, 0 on padding. *)
Definition is_binary (v : Qc) : bool := Qc_eqb v 0 || Qc_eqb v 1.
Definition binary_mask := tall is_binary.
Definition all_ones := tall (fun v => Qc_eqb v 1).
Definition all_zeros := tall (fun v => Qc_eqb v 0).

(* ================================================================== *)
(** ** [torch.nn.MSELoss] *)

Definition sqerr (x y : Qc) : Qc := (x - y) * (x - y).

Module MSELoss.

(** [nn.MSELoss(reduction='none')(input, target)] *)
Definition none (n : nat) (input target : tensor n) : tensor n :=
  tmap2 sqerr n input target.

(** [nn.MSELoss()(input, target)]: the mean over all entries. *)
Definition mean (n : nat) (input target : tensor n) : scalar :=
  np_div (tsum n (none n input target)) (qn (numel n input)).

End MSELoss.

(* ================================================================== *)
(** ** [class MaskedMSE] *)

(** What [forward] hands back: the tensor it got from the criterion, or the
    zero-dimensional tensor of a division. *)
Inductive loss_value : Type :=
| Elementwise (loss : tensor 4)
| ZeroDim (s : scalar).

(** The entries of the returned tensor. *)
Definition values (v : loss_value) : list scalar :=
  match v with
  | Elementwise loss => map Fin (flatten 4 loss)
  | ZeroDim s => [s]
  end.

Module MaskedMSE.

Record t : Type := { reduction : string }.

Definition __init__ (reduction : string) : t := {| reduction := reduction |}.

Definition default : t := __init__ "mean".

Definition criterion := MSELoss.none 4.

(** [forward]; the value is that of the code for input, target and
    mask of one shape (on other shapes the products broadcast or raise). *)
Definition forward (self : t) (input target mask : tensor 4) : loss_value :=
  let loss := criterion (tmul 4 input mask) (tmul 4 target mask) in
  if String.eqb (reduction self) "mean"
  then ZeroDim (np_div (tsum 4 loss) (tsum 4 mask))
  else Elementwise loss.

End MaskedMSE.

(* ================================================================== *)
(** ** Exceptions *)

Inductive exn : Type :=
| ValueError
| IndexError
| TypeError
| NameError
| RuntimeError
| AxisError.

(** A library call that returns or raises. *)
Definition result (A : Type) : Type := (exn + A)%type.

Definition ok {A : Type} (a : A) : result A := inr a.
Definition throw {A : Type} (e : exn) : result A := inl e.

Definition rbind {A B : Type} (r : result A) (k : A -> result B) : result B :=
  match r with
  | inl e => inl e
  | inr a => k a
  end.

Declare Scope result_scope.
Delimit Scope result_scope with result.
Notation "x <-? r ;; k" := (rbind r (fun x => k))
  (at level 61, r at next level, right associativity) : result_scope.
Notation "' p <-? r ;; k" := (rbind r (fun p => k))
  (at level 61, p pattern, r at next level, right associativity) : result_scope.

(* ================================================================== *)
(** ** NumPy routines on one-dimensional arrays *)

Module np.

Definition sneg (x : scalar) : scalar :=
  match x with
  | Fin a => Fin (- a)
  | PInf => NInf
  | NInf => PInf
  | NaN => NaN
  end.

Definition ssub (x y : scalar) : scalar := sadd x (sneg y).

Definition sum (a : list scalar) : scalar := fold_left sadd a (Fin 0).

(** [a.mean()] *)
Definition mean (a : list scalar) : scalar :=
  sdiv (sum a) (Fin (qn (List.length a))).

(** [np.fmax]: the larger operand, a NaN operand is ignored. *)
Definition fmax (x y : scalar) : scalar :=
  if is_nan x then y
  else if is_nan y then x
  else if sle x y then y else x.

(** [np.nanmax(a)]: the maximum of the entries that are not NaN. *)
Definition nanmax (a : list scalar) : result scalar :=
  match a with
  | [] => throw ValueError
  | x :: r => ok (fold_left fmax r x)
  end.

(** The scan of [np.argmax]: [mp] is the running maximum found at [idx],
    [i] the index of the head of [l].  An entry replaces the maximum when
    [entry <= mp] is false, and a NaN ends the scan. *)
Fixpoint argmax_scan (mp : scalar) (idx i : nat) (l : list scalar) : nat :=
  match l with
  | [] => idx
  | x :: r =>
      if sle x mp then argmax_scan mp idx (S i) r
      else if is_nan x then i
      else argmax_scan x i (S i) r
  end.

(** [np.argmax(a)]: the first index of the maximum, where NaN counts as
    the maximum. *)
Definition argmax (a : list scalar) : result nat :=
  match a with
  | [] => throw ValueError
  | x :: r => ok (if is_nan x then 0%nat else argmax_scan x 0 1 r)
  end.

(** [a[i]] *)
Definition getitem {A : Type} (a : list A) (i : nat) : result A :=
  match nth_error a i with
  | Some x => ok x
  | None => throw IndexError
  end.

(** [a.searchsorted(v)] on an array sorted in increasing order. *)
Fixpoint searchsorted (a : list nat) (v : nat) : nat :=
  match a with
  | [] => 0
  | x :: r => if (x <? v)%nat then S (searchsorted r v) else 0
  end.

(** [a[i::-1]]: the entries at [i], [i-1], ..., [0]. *)
Definition slice_down_from {A : Type} (i : nat) (a : list A) : list A :=
  rev (firstn (S i) a).

(** [a[-1]], with a default for the empty array. *)
Definition last_nat (a : list nat) : nat := last a 0%nat.

End np.

(* ================================================================== *)
(** ** scikit-learn metrics

    Binary labels are booleans, [true] for the positive class (label 1,
    abnormal).  [precision_recall_curve] is the routine of the releases
    that take the scores as [probas_pred]: it stops at full recall. *)

Module sklearn.

Definition all_finite (y_score : list scalar) : result (list Qc) :=
  fold_right
    (fun s acc =>
       match s with
       | Fin q => (l <-? acc ;; ok (q :: l))%result
       | _ => throw ValueError
       end)
    (ok []) y_score.

Definition check_consistent_length {A B : Type}
           (a : list A) (b : list B) : result unit :=
  if (List.length a =? List.length b)%nat then ok tt else throw ValueError.

(** Number of samples of class [cls] whose score is at least [t]. *)
Definition count_at (y_true : list bool) (y_score : list Qc)
           (cls : bool) (t : Qc) : nat :=
  List.length
    (filter (fun ys => Bool.eqb (fst ys) cls && Qc_leb t (snd ys))
            (combine y_true y_score)).

(** Insertion into a strictly decreasing list, dropping duplicates. *)
Fixpoint insert_desc (x : Qc) (l : list Qc) : list Qc :=
  match l with
  | [] => [x]
  | y :: r =>
      match x ?= y with
      | Gt => x :: l
      | Eq => l
      | Lt => y :: insert_desc x r
      end
  end.

(** The distinct scores, decreasing. *)
Definition distinct_desc (y_score : list Qc) : list Qc :=
  fold_right insert_desc [] y_score.

(** [_binary_clf_curve]: [fps[i]] and [tps[i]] count the negative and
    the positive samples with a score [>= thresholds[i]]; the thresholds
    are the distinct scores, decreasing. *)
Definition _binary_clf_curve (y_true : list bool) (y_score : list Qc)
  : list nat * list nat * list Qc :=
  let thresholds := distinct_desc y_score in
  (map (count_at y_true y_score false) thresholds,
   map (count_at y_true y_score true) thresholds,
   thresholds).

Definition nan_to_zero (s : scalar) : scalar :=
  if is_nan s then Fin 0 else s.

Definition precision_recall_curve (y_true : list bool) (probas_pred : list scalar)
  : result (list scalar * list scalar * list Qc) :=
  (_ <-? check_consistent_length y_true probas_pred ;;
   y_score <-? all_finite probas_pred ;;
   let '(fps, tps, thresholds) := _binary_clf_curve y_true y_score in
   let precision :=
     map nan_to_zero
         (zip_with (fun tp fp => np_div (qn tp) (qn (tp + fp))) tps fps) in
   let recall := map (fun tp => np_div (qn tp) (qn (np.last_nat tps))) tps in
   let last_ind := np.searchsorted tps (np.last_nat tps) in
   ok (np.slice_down_from last_ind precision ++ [Fin 1],
       np.slice_down_from last_ind recall ++ [Fin 0],
       np.slice_down_from last_ind thresholds))%result.

(** [np.trapz(y, x)] *)
Fixpoint trapz (y x : list scalar) : scalar :=
  match y, x with
  | y0 :: ((y1 :: _) as yr), x0 :: ((x1 :: _) as xr) =>
      sadd (sdiv (smul (np.ssub x1 x0) (sadd y1 y0)) (Fin (qz 2)))
           (trapz yr xr)
  | _, _ => Fin 0
  end.

(** [roc_auc_score]: the area under the ROC curve that starts at the
    origin; it is not defined when only one class is present. *)
Definition roc_auc_score (y_true : list bool) (y_score : list scalar)
  : result scalar :=
  (_ <-? check_consistent_length y_true y_score ;;
   scores <-? all_finite y_score ;;
   if existsb (fun y => y) y_true && existsb negb y_true then
     let '(fps, tps, _) := _binary_clf_curve y_true scores in
     let fpr := map (fun fp => np_div (qn fp) (qn (np.last_nat fps))) (0%nat :: fps) in
     let tpr := map (fun tp => np_div (qn tp) (qn (np.last_nat tps))) (0%nat :: tps) in
     ok (trapz tpr fpr)
   else throw ValueError)%result.

Definition count_pairs (y_true y_pred : list bool) (t p : bool) : nat :=
  List.length
    (filter (fun yp => Bool.eqb (fst yp) t && Bool.eqb (snd yp) p)
            (combine y_true y_pred)).

(** A ratio that is 0 where its denominator is 0. *)
Definition prf_divide (num den : Qc) : Qc :=
  if Qc_eqb den 0 then 0 else num / den.

(** [f1_score(y_true, y_pred)] for the positive class. *)
Definition f1_score (y_true y_pred : list bool) : result scalar :=
  (_ <-? check_consistent_length y_true y_pred ;;
   let tp := qn (count_pairs y_true y_pred true true) in
   let fp := qn (count_pairs y_true y_pred false true) in
   let fn := qn (count_pairs y_true y_pred true false) in
   let precision := prf_divide tp (tp + fp) in
   let recall := prf_divide tp (tp + fn) in
   ok (Fin (prf_divide (qz 2 * precision * recall) (precision + recall))))%result.

End sklearn.

(* ================================================================== *)
(** ** Layer stacks and their shape arithmetic *)

Inductive activation : Type := ReLU | Tanh | Sigmoid.

Inductive layer : Type :=
| Conv2d (in_channels out_channels kernel_size stride padding : Z) (bias : bool)
| ConvTranspose2d (in_channels out_channels kernel_size stride padding : Z) (bias : bool)
| BatchNorm2d (num_features : Z)
| MaxPool2d (kernel_size stride : Z) (return_indices : bool)
| MaxUnpool2d (kernel_size stride : Z)
| Act (a : activation).

(** Channels, height and width of one sample. *)
Definition shape : Type := (Z * Z * Z)%type.

Definition shape_eqb (a b : shape) : bool :=
  let '(c1, h1, w1) := a in
  let '(c2, h2, w2) := b in
  (c1 =? c2)%Z && (h1 =? h2)%Z && (w1 =? w2)%Z.

Definition conv_out (n k s p : Z) : Z := ((n + 2 * p - k) / s + 1)%Z.
Definition conv_transpose_out (n k s p : Z) : Z := ((n - 1) * s - 2 * p + k)%Z.
Definition pool_out (n k s : Z) : Z := ((n - k) / s + 1)%Z.
Definition unpool_out (n k s : Z) : Z := ((n - 1) * s + k)%Z.

(** The output shape of a layer called on one tensor; the layers that hand
    back or expect a pair of tensors are treated by the callers. *)
Definition layer_shape (l : layer) (x : shape) : result shape :=
  let '(c, h, w) := x in
  match l with
  | Conv2d cin cout k s p _ =>
      if (c =? cin)%Z && (k <=? h + 2 * p)%Z && (k <=? w + 2 * p)%Z && (0 <? s)%Z
      then ok (cout, conv_out h k s p, conv_out w k s p)
      else throw RuntimeError
  | ConvTranspose2d cin cout k s p _ =>
      if (c =? cin)%Z && (0 <? conv_transpose_out h k s p)%Z
         && (0 <? conv_transpose_out w k s p)%Z
      then ok (cout, conv_transpose_out h k s p, conv_transpose_out w k s p)
      else throw RuntimeError
  | BatchNorm2d f =>
      if (c =? f)%Z then ok x else throw RuntimeError
  | MaxPool2d k s _ =>
      if (k <=? h)%Z && (k <=? w)%Z && (0 <? s)%Z
      then ok (c, pool_out h k s, pool_out w k s)
      else throw RuntimeError
  | MaxUnpool2d k s => ok (c, unpool_out h k s, unpool_out w k s)
  | Act _ => ok x
  end.

(** [nn.Sequential]: each layer is called on what the previous one
    returned.  A pooling layer that returns indices returns a pair, and an
    unpooling layer needs the indices as a second argument. *)
Fixpoint sequential_shape (layers : list layer) (x : shape) : result shape :=
  match layers with
  | [] => ok x
  | MaxPool2d _ _ true :: _ :: _ => throw TypeError
  | MaxUnpool2d _ _ :: _ => throw TypeError
  | l :: rest => (y <-? layer_shape l x ;; sequential_shape rest y)%result
  end.

(** [range(len(l))] *)
Definition indices {A : Type} (l : list A) : list nat := seq 0 (List.length l).

(** The list built by a loop that appends [body i] for each [i]. *)
Fixpoint append_each (body : nat -> result (list layer)) (idx : list nat)
  : result (list layer) :=
  match idx with
  | [] => ok []
  | i :: rest =>
      (ls <-? body i ;; more <-? append_each body rest ;; ok (ls ++ more))%result
  end.

Definition when (b : bool) (l : layer) : list layer := if b then [l] else [].

Module BaselineLayers.

Record config : Type := {
  encoder_in_chanels : list Z;
  encoder_out_chanels : list Z;
  encoder_kernel_sizes : list Z;
  encoder_strides : list Z;
  decoder_in_chanels : list Z;
  decoder_out_chanels : list Z;
  decoder_kernel_sizes : list Z;
  decoder_strides : list Z;
  use_batchnorm : bool;
  internal_activation : activation;
  final_activation : activation
}.

Definition defaults : config := {|
  encoder_in_chanels := [1; 16; 32; 32; 64; 64; 128; 128; 256; 256];
  encoder_out_chanels := [16; 32; 32; 64; 64; 128; 128; 256; 256; 512];
  encoder_kernel_sizes := [3; 4; 3; 4; 3; 4; 3; 4; 3; 4];
  encoder_strides := [1; 2; 1; 2; 1; 2; 1; 2; 1; 2];
  decoder_in_chanels := [512; 256; 128; 64; 32; 16];
  decoder_out_chanels := [256; 128; 64; 32; 16; 1];
  decoder_kernel_sizes := [4; 4; 4; 4; 4; 3];
  decoder_strides := [2; 2; 2; 2; 2; 1];
  use_batchnorm := true;
  internal_activation := ReLU;
  final_activation := Tanh
|}%Z.

Definition encoder_layers (c : config) : result (list layer) :=
  append_each
    (fun i =>
       cin <-? np.getitem (encoder_in_chanels c) i ;;
       cout <-? np.getitem (encoder_out_chanels c) i ;;
       k <-? np.getitem (encoder_kernel_sizes c) i ;;
       s <-? np.getitem (encoder_strides c) i ;;
       ok ([Conv2d cin cout k s 1 (negb (use_batchnorm c))]
             ++ when (use_batchnorm c) (BatchNorm2d cout)
             ++ [Act (internal_activation c)]))%result
    (indices (encoder_in_chanels c)).

Definition decoder_layers (c : config) : result (list layer) :=
  (ls <-? append_each
        (fun i =>
           cin <-? np.getitem (decoder_in_chanels c) i ;;
           cout <-? np.getitem (decoder_out_chanels c) i ;;
           k <-? np.getitem (decoder_kernel_sizes c) i ;;
           s <-? np.getitem (decoder_strides c) i ;;
           ok ([ConvTranspose2d cin cout k s 1 (negb (use_batchnorm c))]
                 ++ when (use_batchnorm c
                          && (i <? List.length (decoder_in_chanels c) - 1)%nat)
                         (BatchNorm2d cout)
                 ++ [Act (internal_activation c)]))
        (indices (decoder_in_chanels c)) ;;
   ok (ls ++ [Act (final_activation c)]))%result.

(** [forward]: the encoder stack, then the decoder stack. *)
Definition forward_shape (c : config) (x : shape) : result shape :=
  (enc <-? encoder_layers c ;;
   dec <-? decoder_layers c ;;
   code <-? sequential_shape enc x ;;
   sequential_shape dec code)%result.

End BaselineLayers.

Module BottleneckLayers.

Import BaselineLayers.

Definition defaults : config := {|
  encoder_in_chanels := [1; 16; 32; 64; 128; 256];
  encoder_out_chanels := [16; 32; 64; 128; 256; 256];
  encoder_kernel_sizes := [3; 4; 4; 4; 4; 1];
  encoder_strides := [1; 2; 2; 2; 2; 1];
  decoder_in_chanels := [256; 256; 128; 64; 32; 16];
  decoder_out_chanels := [256; 128; 64; 32; 16; 1];
  decoder_kernel_sizes := [1; 4; 4; 4; 4; 3];
  decoder_strides := [1; 2; 2; 2; 2; 1];
  use_batchnorm := true;
  internal_activation := ReLU;
  final_activation := Sigmoid
|}%Z.

Definition encoder_layers (c : config) : result (list layer) :=
  append_each
    (fun i =>
       cin <-? np.getitem (encoder_in_chanels c) i ;;
       cout <-? np.getitem (encoder_out_chanels c) i ;;
       k <-? np.getitem (encoder_kernel_sizes c) i ;;
       s <-? np.getitem (encoder_strides c) i ;;
       ok ([Conv2d cin cout k s 1 (negb (use_batchnorm c))]
             ++ when (i <? List.length (encoder_in_chanels c) - 1)%nat
                     (MaxPool2d 2 2 true)
             ++ when (use_batchnorm c) (BatchNorm2d cout)
             ++ [Act (internal_activation c)]))%result
    (indices (encoder_in_chanels c)).

Definition decoder_layers (c : config) : result (list layer) :=
  append_each
    (fun i =>
       let inner := (i <? List.length (decoder_in_chanels c) - 1)%nat in
       cin <-? np.getitem (decoder_in_chanels c) i ;;
       cout <-? np.getitem (decoder_out_chanels c) i ;;
       k <-? np.getitem (decoder_kernel_sizes c) i ;;
       s <-? np.getitem (decoder_strides c) i ;;
       ok ([ConvTranspose2d cin cout k s 1 (negb (use_batchnorm c))]
             ++ when inner (MaxUnpool2d 2 2)
             ++ when (use_batchnorm c && inner) (BatchNorm2d cout)
             ++ [Act (if inner then internal_activation c
                      else final_activation c)]))%result
    (indices (decoder_in_chanels c)).

(** The encoder loop of [forward]: the indices of every pooling layer
    are appended to [maxpool_ind]; they have the shape of its output. *)
Fixpoint encode_shape (layers : list layer) (x : shape) (maxpool_ind : list shape)
  : result (shape * list shape) :=
  match layers with
  | [] => ok (x, maxpool_ind)
  | l :: rest =>
      (y <-? layer_shape l x ;;
       match l with
       | MaxPool2d _ _ true => encode_shape rest y (maxpool_ind ++ [y])
       | MaxPool2d _ _ false => throw ValueError
       | _ => encode_shape rest y maxpool_ind
       end)%result
  end.

(** The decoder loop of [forward]: every unpooling layer pops the last
    indices, which must have the shape of its input. *)
Fixpoint decode_shape (layers : list layer) (x : shape) (maxpool_ind : list shape)
  : result shape :=
  match layers with
  | [] => ok x
  | l :: rest =>
      match l with
      | MaxUnpool2d _ _ =>
          match rev maxpool_ind with
          | [] => throw IndexError
          | ind :: before =>
              if shape_eqb ind x
              then (y <-? layer_shape l x ;; decode_shape rest y (rev before))%result
              else throw RuntimeError
          end
      | MaxPool2d _ _ true => throw TypeError
      | _ => (y <-? layer_shape l x ;; decode_shape rest y maxpool_ind)%result
      end
  end.

Definition forward_shape (c : config) (x : shape) : result shape :=
  (enc <-? encoder_layers c ;;
   dec <-? decoder_layers c ;;
   '(code, maxpool_ind) <-? encode_shape enc x [] ;;
   decode_shape dec code maxpool_ind)%result.

End BottleneckLayers.

(* ================================================================== *)
(** ** State and exceptions

    A method is a function from the state of the process to an outcome:
    the value returned or the exception raised, and the state left
    behind in either case. *)

Inductive outcome (W A : Type) : Type :=
| Return (a : A) (w : W)
| Raised (e : exn) (w : W).

Arguments Return {W A} a w.
Arguments Raised {W A} e w.

Definition M (W A : Type) : Type := W -> outcome W A.

Definition ret {W A : Type} (a : A) : M W A := fun w => Return a w.

Definition bind {W A B : Type} (m : M W A) (k : A -> M W B) : M W B :=
  fun w =>
    match m w with
    | Return a w' => k a w'
    | Raised e w' => Raised e w'
    end.

Definition lift {W A : Type} (r : result A) : M W A :=
  fun w =>
    match r with
    | inr a => Return a w
    | inl e => Raised e w
    end.

Definition modify {W : Type} (f : W -> W) : M W unit := fun w => Return tt (f w).

Definition gets {W A : Type} (f : W -> A) : M W A := fun w => Return (f w) w.

Definition final {W A : Type} (o : outcome W A) : W :=
  match o with
  | Return _ w => w
  | Raised _ w => w
  end.

Definition returned {W A : Type} (o : outcome W A) : option A :=
  match o with
  | Return a _ => Some a
  | Raised _ _ => None
  end.

Declare Scope method_scope.
Delimit Scope method_scope with method.
Notation "x <- m ;; k" := (bind m (fun x => k))
  (at level 61, m at next level, right associativity) : method_scope.
Notation "' p <- m ;; k" := (bind m (fun p => k))
  (at level 61, p pattern, m at next level, right associativity) : method_scope.
Notation "m ;;; k" := (bind m (fun _ => k))
  (at level 61, right associativity) : method_scope.

(* ================================================================== *)
(** ** Samples, metrics, framework calls *)

(** One item of a [DataLoader]: the images of a batch, their validity
    masks and their labels. *)
Record batch_data : Type := {
  image : tensor 4;
  mask : tensor 4;
  label : list bool
}.

(** The dictionary that [evaluate] returns, by key: roc-auc, mse,
    f1-score, optimal mse threshold. *)
Record metrics : Type := {
  roc_auc : scalar;
  mse : scalar;
  f1_score : scalar;
  optimal_mse_threshold : Qc
}.

(** The calls into the framework that the methods issue, in order. *)
Inductive event : Type :=
| SetTraining (mode : bool)
| CallModel (training grad_enabled : bool)
| CallLoss (masked : bool) (reduction : string)
| ZeroGrad
| Backward
| OptimizerStep
| LogMetric (name : string).

(** A loss attribute of the model. *)
Inductive loss_module : Type :=
| Masked (m : MaskedMSE.t)
| Plain (reduction : string).

(** [criterion(output, inp, mask)]; the value is that of the code when
    the three tensors have one shape. *)
Definition call_loss3 (criterion : loss_module) (output inp mask : tensor 4)
  : result loss_value :=
  match criterion with
  | Masked m => ok (MaskedMSE.forward m output inp mask)
  | Plain _ => throw TypeError
  end.

(** [criterion(output, inp)]; the value is that of the code when the two
    tensors have one shape. *)
Definition call_loss2 (criterion : loss_module) (output inp : tensor 4)
  : result loss_value :=
  match criterion with
  | Masked _ => throw TypeError
  | Plain reduction =>
      if String.eqb reduction "none" then ok (Elementwise (MSELoss.none 4 output inp))
      else if String.eqb reduction "mean" then ok (ZeroDim (MSELoss.mean 4 output inp))
      else if String.eqb reduction "sum"
           then ok (ZeroDim (Fin (tsum 4 (MSELoss.none 4 output inp))))
           else throw ValueError
  end.

Definition loss_event (criterion : loss_module) : event :=
  match criterion with
  | Masked m => CallLoss true (MaskedMSE.reduction m)
  | Plain reduction => CallLoss false reduction
  end.

(** [loss.sum(axis=(1, 2, 3))] *)
Definition sum_over_sample (loss : loss_value) : result (list Qc) :=
  match loss with
  | Elementwise t => ok (sum_axis123 t)
  | ZeroDim _ => throw AxisError
  end.

(** [2 * precision * recall / (precision + recall)], entry by entry. *)
Definition f1_of (p r : scalar) : scalar :=
  sdiv (smul (smul (Fin (qz 2)) p) r) (sadd p r).

Definition f1_scores (precision recall : list scalar) : list scalar :=
  zip_with f1_of precision recall.

(** [(losses > opt_threshold).astype(int)] *)
Definition predict (losses : list scalar) (opt_threshold : Qc) : list bool :=
  map (fun l => sgt l (Fin opt_threshold)) losses.

(** The F1 score and the threshold of [evaluate]: selected on the
    precision-recall curve when no threshold comes in, scored at the
    threshold that comes in otherwise. *)
Definition f1_and_threshold (true_labels : list bool) (losses : list scalar)
           (opt_threshold : option Qc) : result (scalar * Qc) :=
  match opt_threshold with
  | None =>
      ('(precision, recall, thresholds) <-?
         sklearn.precision_recall_curve true_labels losses ;;
       let f1_scores := f1_scores precision recall in
       f1 <-? np.nanmax f1_scores ;;
       i <-? np.argmax f1_scores ;;
       opt_threshold <-? np.getitem thresholds i ;;
       ok (f1, opt_threshold))%result
  | Some opt_threshold =>
      let y_pred := predict losses opt_threshold in
      (f1 <-? sklearn.f1_score true_labels y_pred ;;
       ok (f1, opt_threshold))%result
  end.

(** The numbers of [evaluate], from the accumulated labels and losses:
    ROC-AUC, mean error, F1 score and threshold. *)
Definition score_metrics (true_labels : list bool) (losses : list scalar)
           (opt_threshold : option Qc) : result metrics :=
  (roc_auc <-? sklearn.roc_auc_score true_labels losses ;;
   let mse := np.mean losses in
   '(f1, opt_threshold) <-? f1_and_threshold true_labels losses opt_threshold ;;
   ok {| roc_auc := roc_auc;
         mse := mse;
         f1_score := f1;
         optimal_mse_threshold := opt_threshold |})%result.

(** *** Descriptions used in the statements *)

(** The per-pixel losses of one sample: against the masked tensors when
    the validation loss is masked, plain squared errors otherwise. *)
Definition per_pixel_loss (masked : bool) (output inp mask : tensor 3) : tensor 3 :=
  if masked
  then MSELoss.none 3 (tmul 3 output mask) (tmul 3 inp mask)
  else MSELoss.none 3 output inp.

(** The anomaly score of one sample: the sum of its per-pixel losses
    over the sum of its mask. *)
Definition anomaly_score (masked : bool) (output inp mask : tensor 3) : scalar :=
  np_div (tsum 3 (per_pixel_loss masked output inp mask)) (tsum 3 mask).

Definition batch_scores (masked : bool) (output : tensor 4) (batch : batch_data)
  : list scalar :=
  zip_with3 (anomaly_score masked) output (image batch) (mask batch).

(** The framework calls of one training step, of one evaluation pass
    and of one epoch. *)
Definition batch_trace (masked_loss_on_train : bool) : list event :=
  [SetTraining true; CallModel true true; CallLoss masked_loss_on_train "mean";
   ZeroGrad; Backward; OptimizerStep].

Definition eval_loop_trace (masked_loss_on_val training grad : bool)
           (loader : list batch_data) : list event :=
  flat_map (fun _ => [CallModel training grad; CallLoss masked_loss_on_val "none"])
           loader.

Definition log_trace (log_to_mlflow : bool) : list event :=
  if log_to_mlflow
  then map LogMetric ["roc-auc"; "mse"; "f1-score"; "optimal mse threshold"]%string
  else [].

Definition eval_trace (masked_loss_on_val log_to_mlflow : bool)
           (loader : list batch_data) : list event :=
  SetTraining false :: eval_loop_trace masked_loss_on_val false false loader
                ++ log_trace log_to_mlflow.

Definition epoch_trace (masked_loss_on_val masked_loss_on_train log_to_mlflow : bool)
           (train_loader val_loader : nat -> list batch_data) (epoch : nat)
  : list event :=
  flat_map (fun _ => batch_trace masked_loss_on_train) (train_loader epoch)
  ++ eval_trace masked_loss_on_val log_to_mlflow (val_loader epoch).

(** The calls that an evaluation pass may issue when the gradient mode
    is [grad]: no gradient is reset or computed, no optimizer step is
    taken, and the model is called in that mode. *)
Definition eval_event (grad : bool) (e : event) : Prop :=
  match e with
  | CallModel _ g => g = grad
  | ZeroGrad | Backward | OptimizerStep => False
  | SetTraining _ | CallLoss _ _ | LogMetric _ => True
  end.

Definition is_step (e : event) : bool :=
  match e with OptimizerStep => true | _ => false end.

Definition is_backward (e : event) : bool :=
  match e with Backward => true | _ => false end.

Definition is_eval_pass (e : event) : bool :=
  match e with SetTraining false => true | _ => false end.

Definition count_events (p : event -> bool) (es : list event) : nat :=
  List.length (filter p es).

(** [l] is an initial segment of [full]. *)
Definition prefix_of {A : Type} (l full : list A) : Prop :=
  exists rest, full = l ++ rest.

(* ================================================================== *)
(** ** [class BaselineAutoencoder]: losses, evaluation, training step

    What the layers compute is left open: [net] is the forward pass of
    the encoder and decoder stacks on a batch, from the learnable
    weights, the running statistics of the normalisation layers and the
    training flag; it returns the output and the running statistics it
    leaves.  [grad_of] is the gradient that [loss.backward()] adds to the
    weights' gradients, [adam_step] the update of [optimizer.step()]. *)

Section Autoencoder.

Variables params stats grads optstate : Type.
Variable net : params -> stats -> bool -> tensor 4 -> tensor 4 * stats.
Variable grad_of :
  (tensor 4 -> result loss_value) -> params -> stats -> tensor 4 -> grads.
Variable zero_grads : grads.
Variable add_grads : grads -> grads -> grads.
Variable adam_step : optstate -> params -> grads -> params * optstate.

(** The mutable state: the model's learnable weights, running
    statistics and training flag, the gradients stored with the
    weights, the optimizer's state, the global gradient mode, and the
    framework calls issued so far. *)
Record world : Type := {
  parameters : params;
  running_stats : stats;
  training : bool;
  p_grad : grads;
  optimizer : optstate;
  grad_enabled : bool;
  calls : list event
}.

Definition emit (e : event) : M world unit :=
  modify (fun w => {| parameters := parameters w;
                      running_stats := running_stats w;
                      training := training w;
                      p_grad := p_grad w;
                      optimizer := optimizer w;
                      grad_enabled := grad_enabled w;
                      calls := calls w ++ [e] |}).

(** [self.train()] and [self.eval()] *)
Definition set_training (mode : bool) : M world unit :=
  (modify (fun w => {| parameters := parameters w;
                       running_stats := running_stats w;
                       training := mode;
                       p_grad := p_grad w;
                       optimizer := optimizer w;
                       grad_enabled := grad_enabled w;
                       calls := calls w |}) ;;;
   emit (SetTraining mode))%method.

Definition set_grad_enabled (mode : bool) (w : world) : world :=
  {| parameters := parameters w;
     running_stats := running_stats w;
     training := training w;
     p_grad := p_grad w;
     optimizer := optimizer w;
     grad_enabled := mode;
     calls := calls w |}.

(** [with torch.no_grad(): body]; the previous mode comes back when
    the block is left, by return or by exception. *)
Definition with_no_grad {A : Type} (body : M world A) : M world A :=
  fun w =>
    let prev := grad_enabled w in
    match body (set_grad_enabled false w) with
    | Return a w' => Return a (set_grad_enabled prev w')
    | Raised e w' => Raised e (set_grad_enabled prev w')
    end.

(** [self(inp)].  The forward pass is taken to return an output; where
    the layers reject the size of the input (see [forward_shape]) the
    code raises instead, which [net] does not express. *)
Definition call_model (inp : tensor 4) : M world (tensor 4) :=
  fun w =>
    let '(output, stats') :=
      net (parameters w) (running_stats w) (training w) inp in
    Return output
           {| parameters := parameters w;
              running_stats := stats';
              training := training w;
              p_grad := p_grad w;
              optimizer := optimizer w;
              grad_enabled := grad_enabled w;
              calls := calls w ++ [CallModel (training w) (grad_enabled w)] |}.

(** [self.optimizer.zero_grad()] *)
Definition zero_grad : M world unit :=
  (modify (fun w => {| parameters := parameters w;
                       running_stats := running_stats w;
                       training := training w;
                       p_grad := zero_grads;
                       optimizer := optimizer w;
                       grad_enabled := grad_enabled w;
                       calls := calls w |}) ;;;
   emit ZeroGrad)%method.

(** [loss.backward()], for the loss that [criterion] computed from the
    output of the forward pass on [inp], which started from the
    running statistics [stats0].  The loss must be a single number
    and must have been computed with gradients enabled. *)
Definition backward (criterion : tensor 4 -> result loss_value)
           (loss : loss_value) (stats0 : stats) (inp : tensor 4) : M world unit :=
  fun w =>
    match loss with
    | Elementwise _ => Raised RuntimeError w
    | ZeroDim _ =>
        if grad_enabled w then
          Return tt
                 {| parameters := parameters w;
                    running_stats := running_stats w;
                    training := training w;
                    p_grad := add_grads (p_grad w)
                                (grad_of criterion (parameters w) stats0 inp);
                    optimizer := optimizer w;
                    grad_enabled := grad_enabled w;
                    calls := calls w ++ [Backward] |}
        else Raised RuntimeError w
    end.

(** [self.optimizer.step()] *)
Definition optimizer_step : M world unit :=
  fun w =>
    let '(params', opt') := adam_step (optimizer w) (parameters w) (p_grad w) in
    Return tt
           {| parameters := params';
              running_stats := running_stats w;
              training := training w;
              p_grad := p_grad w;
              optimizer := opt';
              grad_enabled := grad_enabled w;
              calls := calls w ++ [OptimizerStep] |}.

(** The attributes that [__init__] sets and no method changes. *)
Record autoencoder : Type := {
  masked_loss_on_val : bool;
  masked_loss_on_train : bool;
  inner_loss : loss_module;
  outer_loss : loss_module
}.

Definition __init__ (masked_loss_on_val masked_loss_on_train : bool) : autoencoder :=
  {| masked_loss_on_val := masked_loss_on_val;
     masked_loss_on_train := masked_loss_on_train;
     inner_loss := if masked_loss_on_train
                   then Masked MaskedMSE.default else Plain "mean";
     outer_loss := if masked_loss_on_val
                   then Masked (MaskedMSE.__init__ "none") else Plain "none" |}.

Definition apply_outer (self : autoencoder) (output inp mask : tensor 4)
  : result loss_value :=
  if masked_loss_on_val self
  then call_loss3 (outer_loss self) output inp mask
  else call_loss2 (outer_loss self) output inp.

Definition apply_inner (self : autoencoder) (inp mask output : tensor 4)
  : result loss_value :=
  if masked_loss_on_train self
  then call_loss3 (inner_loss self) output inp mask
  else call_loss2 (inner_loss self) output inp.

(** The loop of [evaluate] over the loader. *)
Fixpoint accumulate (self : autoencoder) (loader : list batch_data)
         (losses : list scalar) (true_labels : list bool)
  : M world (list scalar * list bool) :=
  match loader with
  | [] => ret (losses, true_labels)
  | batch :: rest =>
      (let inp := image batch in
       let mask := mask batch in
       output <- call_model inp ;;
       emit (loss_event (outer_loss self)) ;;;
       loss <- lift (apply_outer self output inp mask) ;;
       sum_loss <- lift (sum_over_sample loss) ;;
       let sum_mask := sum_axis123 mask in
       accumulate self rest
                  (losses ++ zip_with np_div sum_loss sum_mask)
                  (true_labels ++ label batch))%method
  end.

Definition metric_names : list string :=
  ["roc-auc"; "mse"; "f1-score"; "optimal mse threshold"]%string.

Fixpoint emit_all (es : list event) : M world unit :=
  match es with
  | [] => ret tt
  | e :: rest => (emit e ;;; emit_all rest)%method
  end.

(** [evaluate]; the arguments [type] and [device] label the printed
    lines and place the tensors, and are left out. *)
Definition evaluate (self : autoencoder) (loader : list batch_data)
           (log_to_mlflow : bool) (val_metrics : option metrics)
  : M world metrics :=
  (let opt_threshold := option_map optimal_mse_threshold val_metrics in
   set_training false ;;;
   with_no_grad
     ('(losses, true_labels) <- accumulate self loader [] [] ;;
      metrics <- lift (score_metrics true_labels losses opt_threshold) ;;
      (if log_to_mlflow then emit_all (map LogMetric metric_names) else ret tt) ;;;
      ret metrics))%method.

Definition train_on_batch (self : autoencoder) (batch : batch_data)
  : M world loss_value :=
  (set_training true ;;;
   let inp := image batch in
   let mask := mask batch in
   stats0 <- gets running_stats ;;
   output <- call_model inp ;;
   emit (loss_event (inner_loss self)) ;;;
   loss <- lift (apply_inner self inp mask output) ;;
   zero_grad ;;;
   backward (apply_inner self inp mask) loss stats0 inp ;;;
   optimizer_step ;;;
   ret loss)%method.

(** [forward_and_save_one_image], up to the plot it writes. *)
Definition forward_and_save_one_image (inp_image : tensor 4) : M world unit :=
  (set_training false ;;;
   with_no_grad (output <- call_model inp_image ;; ret tt))%method.

(** *** The epoch loop of [train.py]

    The loop is run with the methods of [BaselineAutoencoder]
    ([train_on_batch], [evaluate]); the script as committed takes its
    model class from a module that is not part of the sources, so what
    is embedded is the control flow of the loop around these two
    calls.

    [train_loader] and [val_loader] give the batches of each pass over
    the shuffling loaders, by epoch. *)

Fixpoint train_batches (self : autoencoder) (batches : list batch_data)
         (loss : option loss_value) : M world (option loss_value) :=
  match batches with
  | [] => ret loss
  | batch :: rest =>
      (l <- train_on_batch self batch ;;
       train_batches self rest (Some l))%method
  end.

(** [print(f'... {loss.data}')]: the name must be bound. *)
Definition print_loss (loss : option loss_value) : M world unit :=
  match loss with
  | Some _ => ret tt
  | None => lift (throw NameError)
  end.

Fixpoint epochs (self : autoencoder)
         (train_loader val_loader : nat -> list batch_data)
         (log_to_mlflow : bool) (epoch_range : list nat)
         (loss : option loss_value) (val_metrics : option metrics)
  : M world (option metrics) :=
  match epoch_range with
  | [] => ret val_metrics
  | epoch :: rest =>
      (loss <- train_batches self (train_loader epoch) loss ;;
       print_loss loss ;;;
       val_metrics <- evaluate self (val_loader epoch) log_to_mlflow None ;;
       epochs self train_loader val_loader log_to_mlflow rest
              loss (Some val_metrics))%method
  end.

(** The training and evaluation part of the script: the epochs, then
    the test pass with the last validation metrics. *)
Definition train_and_test (self : autoencoder) (num_epochs : nat)
           (train_loader val_loader : nat -> list batch_data)
           (test_loader : list batch_data) (log_to_mlflow : bool)
  : M world metrics :=
  (val_metrics <- epochs self train_loader val_loader log_to_mlflow
                         (seq 1 num_epochs) None None ;;
   evaluate self test_loader log_to_mlflow val_metrics)%method.

(** *** Descriptions used in the statements *)

(** The scores that the loop of [evaluate] appends, batch after batch,
    and the running statistics it leaves. *)
Fixpoint eval_scores (masked : bool) (p : params) (s : stats) (mode : bool)
         (loader : list batch_data) : list scalar :=
  match loader with
  | [] => []
  | batch :: rest =>
      let '(output, s') := net p s mode (image batch) in
      batch_scores masked output batch ++ eval_scores masked p s' mode rest
  end.

Fixpoint eval_stats (p : params) (s : stats) (mode : bool)
         (loader : list batch_data) : stats :=
  match loader with
  | [] => s
  | batch :: rest => eval_stats p (snd (net p s mode (image batch))) mode rest
  end.

(** The state that one evaluation pass leaves, up to the metric log. *)
Definition evaluated (masked : bool) (loader : list batch_data) (w : world)
  : world :=
  {| parameters := parameters w;
     running_stats := eval_stats (parameters w) (running_stats w) false loader;
     training := false;
     p_grad := p_grad w;
     optimizer := optimizer w;
     grad_enabled := grad_enabled w;
     calls := calls w ++ SetTraining false
                    :: eval_loop_trace masked false false loader |}.

Definition logged (es : list event) (w : world) : world :=
  {| parameters := parameters w;
     running_stats := running_stats w;
     training := training w;
     p_grad := p_grad w;
     optimizer := optimizer w;
     grad_enabled := grad_enabled w;
     calls := calls w ++ es |}.

(** An evaluation step took the state from [w] to [w']: the learnable
    weights, the stored gradients, the optimizer and the gradient
    mode are as before, and the calls issued in between are those of
    an evaluation in gradient mode [grad]. *)
Definition eval_frame (grad : bool) (w w' : world) : Prop :=
  parameters w' = parameters w
  /\ p_grad w' = p_grad w
  /\ optimizer w' = optimizer w
  /\ grad_enabled w' = grad_enabled w
  /\ exists new, calls w' = calls w ++ new /\ Forall (eval_event grad) new.

(** The gradient of one training step and the state the step leaves. *)
Definition step_grads (self : autoencoder) (batch : batch_data) (w : world)
  : grads :=
  add_grads zero_grads
            (grad_of (apply_inner self (image batch) (mask batch))
                     (parameters w) (running_stats w) (image batch)).

Definition trained (self : autoencoder) (batch : batch_data) (w : world)
  : world :=
  let g := step_grads self batch w in
  {| parameters := fst (adam_step (optimizer w) (parameters w) g);
     running_stats :=
       snd (net (parameters w) (running_stats w) true (image batch));
     training := true;
     p_grad := g;
     optimizer := snd (adam_step (optimizer w) (parameters w) g);
     grad_enabled := grad_enabled w;
     calls := calls w ++ batch_trace (masked_loss_on_train self) |}.

(** The inner loss of one training step: [MaskedMSE] in 'mean'
    reduction when the training loss is masked, [nn.MSELoss()]
    otherwise. *)
Definition inner_loss_value (masked : bool) (output : tensor 4)
           (batch : batch_data) : loss_value :=
  if masked
  then MaskedMSE.forward MaskedMSE.default output (image batch) (mask batch)
  else ZeroDim (MSELoss.mean 4 output (image batch)).

End Autoencoder.

(* ================================================================== *)
(** ** Sample data *)

(** A batch of two samples, one channel, two rows of two pixels. *)
Definition ex_input : tensor 4 :=
  [[[[qz 1; qz 2]; [qz 3; qz 4]]]; [[[qz 0; qz 1]; [qz 1; qz 0]]]].
Definition ex_target : tensor 4 :=
  [[[[qz 0; qz 2]; [qz 1; qz 4]]]; [[[qz 1; qz 1]; [qz 0; qz 0]]]].
Definition ex_mask : tensor 4 :=
  [[[[qz 1; qz 1]; [qz 1; qz 0]]]; [[[qz 1; qz 0]; [qz 1; qz 0]]]].
Definition ex_ones : tensor 4 :=
  [[[[qz 1; qz 1]; [qz 1; qz 1]]]; [[[qz 1; qz 1]; [qz 1; qz 1]]]].
Definition ex_zeros : tensor 4 :=
  [[[[qz 0; qz 0]; [qz 0; qz 0]]]; [[[qz 0; qz 0]; [qz 0; qz 0]]]].

(** One sample of a single pixel. *)
Definition ex_one : tensor 4 := [[[[qz 1]]]].
Definition ex_zero : tensor 4 := [[[[qz 0]]]].
Definition ex_half : tensor 4 := [[[[qfrac 1 2]]]].

(** One sample of two pixels. *)
Definition ex_input1 : tensor 4 := [[[[qz 1; qz 2]]]].
Definition ex_target1 : tensor 4 := [[[[qz 0; qz 0]]]].
Definition ex_mask1 : tensor 4 := [[[[qz 1; qz 1]]]].

(** A network whose output is zero everywhere, without weights; its
    optimizer counts the steps it takes. *)
Module Example.

Definition zero_net (_ _ : unit) (_ : bool) (inp : tensor 4) : tensor 4 * unit :=
  (tmap2 (fun _ _ => 0) 4 inp inp, tt).

Definition no_grad_of (_ : tensor 4 -> result loss_value) (_ _ : unit)
           (_ : tensor 4) : unit := tt.

Definition add_unit (_ _ : unit) : unit := tt.

Definition counting_step (steps : nat) (p : unit) (_ : unit) : unit * nat :=
  (p, S steps).

Definition w0 : world unit unit unit nat :=
  {| parameters := tt;
     running_stats := tt;
     training := true;
     p_grad := tt;
     optimizer := 0%nat;
     grad_enabled := true;
     calls := [] |}.

(** Three samples of three pixels; with the zero network and a mask of
    ones their scores are 1/3, 2/3 and 1. *)
Definition images : tensor 4 :=
  [[[[qz 1; qz 0; qz 0]]]; [[[qz 1; qz 1; qz 0]]]; [[[qz 1; qz 1; qz 1]]]].
Definition masks : tensor 4 :=
  [[[[qz 1; qz 1; qz 1]]]; [[[qz 1; qz 1; qz 1]]]; [[[qz 1; qz 1; qz 1]]]].

(** The sample with the highest score is normal. *)
Definition top_normal : list batch_data :=
  [{| image := images; mask := masks; label := [false; true; false] |}].

(** Every abnormal score exceeds every normal score. *)
Definition separated : list batch_data :=
  [{| image := images; mask := masks; label := [false; true; true] |}].



Definition train_set : list batch_data :=
  [{| image := ex_input; mask := ex_mask; label := [false; false] |};
   {| image := ex_input1; mask := ex_mask1; label := [false] |}].

End Example.


(** [a] and [b] have the shape of the mask [m] and agree wherever the
    mask is not zero. *)
Fixpoint forall3b {A B C : Type} (p : A -> B -> C -> bool)
         (l1 : list A) (l2 : list B) (l3 : list C) : bool :=
  match l1, l2, l3 with
  | [], [], [] => true
  | x :: r1, y :: r2, z :: r3 => p x y z && forall3b p r1 r2 r3
  | _, _, _ => false
  end.

Fixpoint agree_on_valid (n : nat) : tensor n -> tensor n -> tensor n -> bool :=
  match n with
  | O => fun m a b => Qc_eqb m 0 || Qc_eqb a b
  | S k => forall3b (agree_on_valid k)
  end.

(** Two samples that differ in the pixel where the mask is zero. *)
Definition ex_padded_a : tensor 4 := [[[[qz 1; qz 2; qz 7]]]].
Definition ex_padded_b : tensor 4 := [[[[qz 1; qz 2; qz 9]]]].
Definition ex_padded_mask : tensor 4 := [[[[qz 1; qz 1; qz 0]]]].

(** The tensor [m] with every entry multiplied by [c]. *)
Definition tscale (c : Qc) (n : nat) (m : tensor n) : tensor n :=
  tmap2 (fun x _ => c * x) n m m.

(** The tensors of a batch line up: the output of the forward pass, the
    images and the masks have one shape.  This is where the losses and
    the scores of the model are those of the code. *)
Definition well_shaped (output : tensor 4) (batch : batch_data) : bool :=
  same_shape 4 output (image batch) && same_shape 4 (image batch) (mask batch).

(** On every batch of [loader], whatever the running statistics, the
    forward pass with the weights [p] in mode [mode] returns an output
    of the shape of the images, and the masks have that shape. *)
Definition shapes_agree {params stats : Type}
           (net : params -> stats -> bool -> tensor 4 -> tensor 4 * stats)
           (p : params) (mode : bool) (loader : list batch_data) : Prop :=
  Forall (fun batch =>
            forall s : stats,
              well_shaped (fst (net p s mode (image batch))) batch = true)
         loader.

(** The number of samples that a loader yields. *)
Definition samples (loader : list batch_data) : nat :=
  list_sum (map (fun batch => List.length (image batch)) loader).

(** An entry between -1 and 1: the range of the final activations
    ([Tanh], [Sigmoid]) and of the normalised images. *)
Definition unit_bounded (v : Qc) : bool := Qc_leb (- (1)) v && Qc_leb v 1.

(** A reconstruction and an image of three pixels with entries between
    -1 and 1. *)
Definition ex_recon : tensor 4 := [[[[qfrac 1 2; qz (-1); qz 0]]]].
Definition ex_image : tensor 4 := [[[[qz 1; qz 1; qfrac 1 4]]]].
(* ================================================================== *)
(** * Properties *)

(** ** Comparisons and numerals *)

Lemma Qc_eqb_eq (x y : Qc) : Qc_eqb x y = true <-> x = y.
Proof.
  unfold Qc_eqb. rewrite Qceq_alt.
  destruct (x ?= y); split; intro H; congruence.
Qed.

Lemma Qc_eqb_refl (x : Qc) : Qc_eqb x x = true.
Proof. apply Qc_eqb_eq. reflexivity. Qed.


Lemma Qc_leb_le (x y : Qc) : Qc_leb x y = true <-> x <= y.
Proof.
  unfold Qc_leb. rewrite Qcle_alt.
  destruct (x ?= y); split; intro H; congruence.
Qed.

Lemma qn_add (a b : nat) : qn (a + b) = qn a + qn b.
Proof.
  unfold qn, qz. rewrite Nat2Z.inj_add, inject_Z_plus.
  apply Qc_is_canon. unfold Qcplus, Q2Qc, this.
  rewrite !Qred_correct. reflexivity.
Qed.

Lemma qn_0 : qn 0 = 0.
Proof. apply Qc_is_canon. reflexivity. Qed.

Lemma qn_1 : qn 1 = 1.
Proof. apply Qc_is_canon. reflexivity. Qed.

Lemma scalar_eqb_eq (x y : scalar) : scalar_eqb x y = true -> x = y.
Proof.
  destruct x, y; cbn; try discriminate; try reflexivity.
  intros H. apply Qc_eqb_eq in H. now subst.
Qed.

Lemma scalars_eqb_eq (l1 l2 : list scalar) :
  forall2b scalar_eqb l1 l2 = true -> l1 = l2.
Proof.
  revert l2. induction l1 as [|x l1 IH]; destruct l2 as [|y l2]; cbn;
    try discriminate; [reflexivity|].
  intros H. apply andb_true_iff in H as [H1 H2].
  now rewrite (scalar_eqb_eq _ _ H1), (IH _ H2).
Qed.

Lemma rationals_eqb_eq (l1 l2 : list Qc) :
  forall2b Qc_eqb l1 l2 = true -> l1 = l2.
Proof.
  revert l2. induction l1 as [|x l1 IH]; destruct l2 as [|y l2]; cbn;
    try discriminate; [reflexivity|].
  intros H. apply andb_true_iff in H as [H1 H2].
  apply Qc_eqb_eq in H1. now rewrite H1, (IH _ H2).
Qed.

(** ** Tensors *)

Lemma same_shape_refl (n : nat) (a : tensor n) : same_shape n a a = true.
Proof.
  induction n as [|n IH]; simpl; [reflexivity|].
  induction a as [|x a IHa]; simpl; [reflexivity|].
  now rewrite IH, IHa.
Qed.

Lemma same_shape_sym (n : nat) :
  forall a b : tensor n, same_shape n a b = true -> same_shape n b a = true.
Proof.
  induction n as [|n IH]; simpl; [reflexivity|].
  induction a as [|x a IHa]; destruct b as [|y b]; simpl; try easy.
  intros H. apply andb_true_iff in H as [H1 H2].
  now rewrite (IH _ _ H1), (IHa _ H2).
Qed.

Lemma same_shape_trans (n : nat) :
  forall a b c : tensor n,
    same_shape n a b = true -> same_shape n b c = true -> same_shape n a c = true.
Proof.
  induction n as [|n IH]; simpl; [reflexivity|].
  induction a as [|x a IHa]; destruct b as [|y b]; destruct c as [|z c];
    simpl; try easy.
  intros H H'.
  apply andb_true_iff in H as [H1 H2]. apply andb_true_iff in H' as [H3 H4].
  now rewrite (IH _ _ _ H1 H3), (IHa _ _ H2 H4).
Qed.

Lemma numel_same_shape (n : nat) :
  forall a b : tensor n, same_shape n a b = true -> numel n a = numel n b.
Proof.
  induction n as [|n IH]; simpl; [reflexivity|].
  induction a as [|x a IHa]; destruct b as [|y b]; simpl; try easy.
  intros H. apply andb_true_iff in H as [H1 H2].
  now rewrite (IH _ _ H1), (IHa _ H2).
Qed.

Lemma tmap2_same_shape (f : Qc -> Qc -> Qc) (n : nat) :
  forall a b : tensor n,
    same_shape n a b = true -> same_shape n (tmap2 f n a b) a = true.
Proof.
  induction n as [|n IH]; simpl; [reflexivity|].
  induction a as [|x a IHa]; destruct b as [|y b]; simpl; try easy.
  intros H. apply andb_true_iff in H as [H1 H2].
  now rewrite (IH _ _ H1), (IHa _ H2).
Qed.

Lemma length_flatten (n : nat) :
  forall a : tensor n, List.length (flatten n a) = numel n a.
Proof.
  induction n as [|n IH]; simpl; [reflexivity|].
  induction a as [|x a IHa]; simpl; [reflexivity|].
  now rewrite length_app, IH, IHa.
Qed.

(** The squared error of the masked tensors is the squared error times
    the square of the mask. *)
Lemma masked_sqerr_square (n : nat) :
  forall i t m : tensor n,
    tmap2 sqerr n (tmul n i m) (tmul n t m)
    = tmul n (tmap2 sqerr n i t) (tmul n m m).
Proof.
  unfold tmul.
  induction n as [|n IH]; simpl.
  - intros. unfold sqerr. ring.
  - induction i as [|x i IHi]; destruct t as [|y t]; destruct m as [|z m];
      simpl; try reflexivity.
    now rewrite IH, IHi.
Qed.

Lemma tmul_binary_idem (n : nat) :
  forall m : tensor n, binary_mask n m = true -> tmul n m m = m.
Proof.
  unfold tmul, binary_mask.
  induction n as [|n IH]; simpl.
  - intros m H. unfold is_binary in H.
    apply orb_true_iff in H as [H|H]; apply Qc_eqb_eq in H; subst; ring.
  - induction m as [|z m IHm]; simpl; [reflexivity|].
    intros H. apply andb_true_iff in H as [H1 H2].
    now rewrite (IH _ H1), (IHm H2).
Qed.

Lemma tmul_ones (n : nat) :
  forall a m : tensor n,
    same_shape n a m = true -> all_ones n m = true -> tmul n a m = a.
Proof.
  unfold tmul, all_ones.
  induction n as [|n IH]; simpl.
  - intros a m _ H. apply Qc_eqb_eq in H. subst. ring.
  - induction a as [|x a IHa]; destruct m as [|z m]; simpl; try easy.
    intros S H.
    apply andb_true_iff in S as [S1 S2]. apply andb_true_iff in H as [H1 H2].
    now rewrite (IH _ _ S1 H1), (IHa _ S2 H2).
Qed.

Lemma tsum_ones (n : nat) :
  forall m : tensor n, all_ones n m = true -> tsum n m = qn (numel n m).
Proof.
  unfold all_ones.
  induction n as [|n IH]; simpl.
  - intros m H. apply Qc_eqb_eq in H. subst. symmetry. apply qn_1.
  - induction m as [|z m IHm]; simpl.
    + intros _. symmetry. apply qn_0.
    + intros H. apply andb_true_iff in H as [H1 H2].
      now rewrite qn_add, (IH _ H1), (IHm H2).
Qed.

Lemma tsum_zeros (n : nat) :
  forall m : tensor n, all_zeros n m = true -> tsum n m = 0.
Proof.
  unfold all_zeros.
  induction n as [|n IH]; simpl.
  - intros m H. now apply Qc_eqb_eq in H.
  - induction m as [|z m IHm]; simpl; [reflexivity|].
    intros H. apply andb_true_iff in H as [H1 H2].
    rewrite (IH _ H1), (IHm H2). ring.
Qed.

Lemma tsum_masked_zeros (n : nat) :
  forall i t m : tensor n,
    all_zeros n m = true ->
    tsum n (tmap2 sqerr n (tmul n i m) (tmul n t m)) = 0.
Proof.
  unfold all_zeros, tmul.
  induction n as [|n IH]; simpl.
  - intros i t m H. apply Qc_eqb_eq in H. subst. unfold sqerr. ring.
  - induction i as [|x i IHi]; destruct t as [|y t]; destruct m as [|z m];
      simpl; try reflexivity.
    intros H. apply andb_true_iff in H as [H1 H2].
    rewrite (IH _ _ _ H1), (IHi _ _ H2). ring.
Qed.

(** ** [MaskedMSE] *)

(** C2, as stated, fails for a mask that is not 0/1-valued: with input 1,
    target 0 and mask 1/2 on a single pixel, [forward] returns
    (1/2 - 0)^2 / (1/2) = 1/2, while the squared error times the mask,
    divided by the mask sum, is 1. *)
Lemma masked_mse_mean_soft_mask_counterexample :
  same_shape 4 ex_one ex_zero = true /\
  same_shape 4 ex_one ex_half = true /\
  MaskedMSE.forward MaskedMSE.default ex_one ex_zero ex_half
  <> ZeroDim (np_div (tsum 4 (tmul 4 (MSELoss.none 4 ex_one ex_zero) ex_half))
                     (tsum 4 ex_half)).
Proof.
  split; [reflexivity|]. split; [reflexivity|].
  intro H. apply (f_equal values) in H. vm_compute in H.
  inversion H.
Qed.

(** C2 (amended): for input, target and a 0/1-valued mask of equal shape,
    [MaskedMSE] in 'mean' reduction returns the per-pixel squared error
    multiplied elementwise by the mask, summed and divided by the sum of
    the mask values. *)
Theorem masked_mse_mean_binary_mask (input target mask : tensor 4) :
  same_shape 4 input target = true ->
  same_shape 4 input mask = true ->
  binary_mask 4 mask = true ->
  MaskedMSE.forward MaskedMSE.default input target mask
  = ZeroDim (np_div (tsum 4 (tmul 4 (MSELoss.none 4 input target) mask))
                    (tsum 4 mask)).
Proof.
  intros _ _ Hbin.
  unfold MaskedMSE.forward, MaskedMSE.criterion, MSELoss.none. simpl String.eqb.
  cbv iota.
  now rewrite masked_sqerr_square, (tmul_binary_idem _ _ Hbin).
Qed.

Lemma masked_mse_mean_binary_mask_witness :
  same_shape 4 ex_input ex_target = true /\
  same_shape 4 ex_input ex_mask = true /\
  binary_mask 4 ex_mask = true /\
  MaskedMSE.forward MaskedMSE.default ex_input ex_target ex_mask
  = ZeroDim (np_div (tsum 4 (tmul 4 (MSELoss.none 4 ex_input ex_target) ex_mask))
                    (tsum 4 ex_mask)).
Proof.
  do 3 (split; [reflexivity|]).
  apply (masked_mse_mean_binary_mask ex_input ex_target ex_mask); reflexivity.
Defined.

(** For any mask, what [forward] divides by the mask sum is the squared
    error times the square of the mask. *)
Lemma masked_mse_mean_any_mask (input target mask : tensor 4) :
  MaskedMSE.forward MaskedMSE.default input target mask
  = ZeroDim (np_div (tsum 4 (tmul 4 (MSELoss.none 4 input target)
                                  (tmul 4 mask mask)))
                    (tsum 4 mask)).
Proof.
  unfold MaskedMSE.forward, MaskedMSE.criterion, MSELoss.none. simpl String.eqb.
  cbv iota. now rewrite masked_sqerr_square.
Qed.

(** C3, as stated, fails: on one sample of two pixels, reduction 'none'
    returns the two per-pixel losses 1 and 4, not the sample's summed
    loss 5. *)
Lemma masked_mse_none_per_sample_counterexample :
  same_shape 4 ex_input1 ex_target1 = true /\
  same_shape 4 ex_input1 ex_mask1 = true /\
  values (MaskedMSE.forward (MaskedMSE.__init__ "none") ex_input1 ex_target1 ex_mask1)
  <> map Fin (sum_axis123
                (MaskedMSE.criterion (tmul 4 ex_input1 ex_mask1)
                                     (tmul 4 ex_target1 ex_mask1))).
Proof.
  split; [reflexivity|]. split; [reflexivity|].
  intro H. apply (f_equal (@List.length scalar)) in H. vm_compute in H.
  discriminate.
Qed.

(** C3 (amended): with reduction 'none', [MaskedMSE] returns the per-pixel
    squared error of the masked input against the masked target, a tensor
    of the input's shape with one entry per pixel, whose sums over each
    sample are the per-sample summed losses; with reduction 'mean' it
    returns a single scalar. *)
Theorem masked_mse_none_elementwise (input target mask : tensor 4) :
  same_shape 4 input target = true ->
  same_shape 4 input mask = true ->
  (exists loss : tensor 4,
      MaskedMSE.forward (MaskedMSE.__init__ "none") input target mask
      = Elementwise loss
      /\ loss = MSELoss.none 4 (tmul 4 input mask) (tmul 4 target mask)
      /\ same_shape 4 loss input = true
      /\ List.length (values (Elementwise loss)) = numel 4 input
      /\ sum_over_sample (Elementwise loss) = ok (map (tsum 3) loss))
  /\ (exists s : scalar,
         MaskedMSE.forward (MaskedMSE.__init__ "mean") input target mask
         = ZeroDim s
         /\ values (ZeroDim s) = [s]).
Proof.
  intros Ht Hm. split.
  - eexists. split; [reflexivity|]. split; [reflexivity|].
    assert (Hs : same_shape 4
                   (MSELoss.none 4 (tmul 4 input mask) (tmul 4 target mask))
                   input = true).
    { unfold MSELoss.none, tmul.
      eapply same_shape_trans; [apply tmap2_same_shape|].
      - eapply same_shape_trans; [apply tmap2_same_shape; exact Hm|].
        eapply same_shape_trans; [exact Ht|].
        apply same_shape_sym, tmap2_same_shape.
        eapply same_shape_trans; [apply same_shape_sym; exact Ht| exact Hm].
      - apply tmap2_same_shape; exact Hm. }
    split; [exact Hs|]. split; [|reflexivity].
    unfold values, MaskedMSE.criterion.
    rewrite length_map, length_flatten. now apply numel_same_shape.
  - eexists. split; reflexivity.
Qed.

Lemma masked_mse_none_elementwise_witness :
  same_shape 4 ex_input ex_target = true /\
  same_shape 4 ex_input ex_mask = true /\
  exists loss : tensor 4,
    MaskedMSE.forward (MaskedMSE.__init__ "none") ex_input ex_target ex_mask
    = Elementwise loss
    /\ same_shape 4 loss ex_input = true.
Proof.
  split; [reflexivity|]. split; [reflexivity|].
  destruct (masked_mse_none_elementwise ex_input ex_target ex_mask
              eq_refl eq_refl) as [[loss [H1 [_ [H2 _]]]] _].
  exists loss. split; assumption.
Defined.

(** C7: with a mask of all ones, [MaskedMSE] in 'mean' reduction returns
    the standard mean squared error of input against target. *)
Theorem masked_mse_all_ones_is_mse (input target mask : tensor 4) :
  same_shape 4 input target = true ->
  same_shape 4 input mask = true ->
  all_ones 4 mask = true ->
  MaskedMSE.forward MaskedMSE.default input target mask
  = ZeroDim (MSELoss.mean 4 input target).
Proof.
  intros Ht Hm Hones.
  assert (Htm : same_shape 4 target mask = true).
  { eapply same_shape_trans; [apply same_shape_sym; exact Ht | exact Hm]. }
  unfold MaskedMSE.forward, MaskedMSE.criterion, MSELoss.mean.
  simpl String.eqb. cbv iota.
  rewrite (tmul_ones _ _ _ Hm Hones), (tmul_ones _ _ _ Htm Hones).
  rewrite (tsum_ones _ _ Hones), (numel_same_shape _ _ _ Hm).
  reflexivity.
Qed.

Lemma masked_mse_all_ones_is_mse_witness :
  same_shape 4 ex_input ex_target = true /\
  same_shape 4 ex_input ex_ones = true /\
  all_ones 4 ex_ones = true /\
  MaskedMSE.forward MaskedMSE.default ex_input ex_target ex_ones
  = ZeroDim (MSELoss.mean 4 ex_input ex_target).
Proof.
  do 3 (split; [reflexivity|]).
  apply (masked_mse_all_ones_is_mse ex_input ex_target ex_ones); reflexivity.
Defined.

(** C8: with an all-zero mask, [MaskedMSE] in 'mean' reduction divides
    zero by the mask sum, which is zero; nothing guards the division and
    the value returned is NaN. *)
Theorem masked_mse_all_zeros_is_nan (input target mask : tensor 4) :
  same_shape 4 input target = true ->
  same_shape 4 input mask = true ->
  all_zeros 4 mask = true ->
  tsum 4 mask = 0
  /\ MaskedMSE.forward MaskedMSE.default input target mask
     = ZeroDim (np_div 0 (tsum 4 mask))
  /\ MaskedMSE.forward MaskedMSE.default input target mask = ZeroDim NaN.
Proof.
  intros _ _ Hz.
  unfold MaskedMSE.forward, MaskedMSE.criterion, MSELoss.none.
  simpl String.eqb. cbv iota.
  rewrite (tsum_masked_zeros _ _ _ _ Hz), (tsum_zeros _ _ Hz).
  repeat split; reflexivity.
Qed.

Lemma masked_mse_all_zeros_is_nan_witness :
  same_shape 4 ex_input ex_target = true /\
  same_shape 4 ex_input ex_zeros = true /\
  all_zeros 4 ex_zeros = true /\
  MaskedMSE.forward MaskedMSE.default ex_input ex_target ex_zeros = ZeroDim NaN.
Proof.
  do 3 (split; [reflexivity|]).
  apply (masked_mse_all_zeros_is_nan ex_input ex_target ex_zeros); reflexivity.
Defined.

(** ** Library routines *)

Lemma all_finite_map_Fin (l : list Qc) : sklearn.all_finite (map Fin l) = ok l.
Proof.
  unfold sklearn.all_finite.
  induction l as [|x l IH]; simpl; [reflexivity|]. now rewrite IH.
Qed.

Lemma check_consistent_length_ok {A B : Type} (a : list A) (b : list B) :
  List.length a = List.length b -> sklearn.check_consistent_length a b = ok tt.
Proof.
  intros H. unfold sklearn.check_consistent_length.
  now rewrite H, Nat.eqb_refl.
Qed.

Lemma forward_mean (input target mask : tensor 4) :
  MaskedMSE.forward MaskedMSE.default input target mask
  = ZeroDim (np_div (tsum 4 (MaskedMSE.criterion (tmul 4 input mask)
                                                 (tmul 4 target mask)))
                    (tsum 4 mask)).
Proof. reflexivity. Qed.

(** ** The loop of [evaluate] *)

Lemma scores_masked (o i m : tensor 4) :
  zip_with np_div
           (sum_axis123 (MSELoss.none 4 (tmul 4 o m) (tmul 4 i m)))
           (sum_axis123 m)
  = zip_with3 (anomaly_score true) o i m.
Proof.
  unfold sum_axis123, MSELoss.none, tmul.
  change (tmap2 sqerr 4) with (zip_with (tmap2 sqerr 3)).
  change (tmap2 Qcmult 4) with (zip_with (tmap2 Qcmult 3)).
  revert i m.
  induction o as [|x o IH]; destruct i as [|y i]; destruct m as [|z m];
    cbn [zip_with zip_with3 map]; try reflexivity.
  f_equal. apply IH.
Qed.

Lemma scores_plain (o i m : tensor 4) :
  zip_with np_div (sum_axis123 (MSELoss.none 4 o i)) (sum_axis123 m)
  = zip_with3 (anomaly_score false) o i m.
Proof.
  unfold sum_axis123, MSELoss.none.
  change (tmap2 sqerr 4) with (zip_with (tmap2 sqerr 3)).
  revert i m.
  induction o as [|x o IH]; destruct i as [|y i]; destruct m as [|z m];
    cbn [zip_with zip_with3 map]; try reflexivity.
  f_equal. apply IH.
Qed.

Section EvaluateFacts.

Variables params stats grads optstate : Type.
Variable net : params -> stats -> bool -> tensor 4 -> tensor 4 * stats.

Let world : Type := world params stats grads optstate.

(** The loop of [evaluate] always returns for a model built by
    [__init__]: it appends the anomaly scores and the labels of every
    batch and changes nothing but the running statistics and the
    record of calls. *)
Lemma accumulate_run (mv mt : bool) :
  forall (loader : list batch_data) (losses : list scalar)
         (true_labels : list bool) (w : world),
    accumulate net (__init__ mv mt) loader losses true_labels w
    = Return (losses ++ eval_scores net mv (parameters w) (running_stats w)
                                    (training w) loader,
              true_labels ++ flat_map label loader)
             {| parameters := parameters w;
                running_stats := eval_stats net (parameters w) (running_stats w)
                                            (training w) loader;
                training := training w;
                p_grad := p_grad w;
                optimizer := optimizer w;
                grad_enabled := grad_enabled w;
                calls := calls w ++ eval_loop_trace mv (training w)
                                                    (grad_enabled w) loader |}.
Proof.
  induction loader as [|batch rest IH]; intros losses true_labels w.
  - simpl. unfold ret, eval_loop_trace. simpl. rewrite !app_nil_r.
    now destruct w.
  - cbn [accumulate]. unfold bind at 1. unfold call_model.
    cbn [eval_scores eval_stats].
    destruct (net (parameters w) (running_stats w) (training w) (image batch))
      as [output stats'] eqn:Hnet.
    unfold bind at 1. unfold emit at 1. unfold modify. cbn [parameters running_stats training p_grad optimizer grad_enabled calls].
    unfold bind at 1.
    assert (Hloss : exists loss,
               apply_outer (__init__ mv mt) output (image batch) (mask batch)
               = ok (Elementwise loss)
               /\ zip_with np_div (sum_axis123 loss) (sum_axis123 (mask batch))
                  = batch_scores mv output batch).
    { destruct mv; eexists; (split; [reflexivity|]).
      - apply scores_masked.
      - apply scores_plain. }
    destruct Hloss as [loss [Hl Hs]].
    rewrite Hl. cbn [lift ok]. unfold bind at 1.
    cbn [sum_over_sample lift ok].
    rewrite IH. cbn [parameters running_stats training p_grad optimizer grad_enabled calls snd].
    rewrite Hs. unfold eval_loop_trace. cbn [flat_map].
    rewrite <- !app_assoc. cbn [app].
    destruct mv; reflexivity.
Qed.

(** One evaluation pass, in full: the state it leaves and the metrics
    it returns, or the exception of the metric computation. *)
Lemma evaluate_run (mv mt : bool) (loader : list batch_data)
      (log_to_mlflow : bool) (val_metrics : option metrics) (w : world) :
  evaluate net (__init__ mv mt) loader log_to_mlflow val_metrics w
  = match score_metrics
            (flat_map label loader)
            (eval_scores net mv (parameters w) (running_stats w) false loader)
            (option_map optimal_mse_threshold val_metrics) with
    | inr m => Return m (logged (log_trace log_to_mlflow) (evaluated net mv loader w))
    | inl e => Raised e (evaluated net mv loader w)
    end.
Proof.
  unfold evaluate. unfold bind at 1. unfold set_training.
  unfold bind at 1. unfold modify at 1. unfold emit at 1. unfold modify at 1.
  unfold with_no_grad. unfold bind at 1.
  rewrite accumulate_run.
  cbn [parameters running_stats training p_grad optimizer grad_enabled calls
       set_grad_enabled app].
  unfold bind at 1.
  destruct (score_metrics _ _ _) as [e|m]; cbn [lift].
  - unfold evaluated, set_grad_enabled. cbn. now rewrite <- app_assoc.
  - unfold bind at 1.
    destruct log_to_mlflow; cbn; unfold evaluated, logged; cbn;
      rewrite <- ?app_assoc; cbn; rewrite ?app_nil_r; reflexivity.
Qed.

Variable grad_of :
  (tensor 4 -> result loss_value) -> params -> stats -> tensor 4 -> grads.
Variable zero_grads : grads.
Variable add_grads : grads -> grads -> grads.
Variable adam_step : optstate -> params -> grads -> params * optstate.

(** One training step, in full, when gradients are enabled. *)
Lemma train_on_batch_run (mv mt : bool) (batch : batch_data) (w : world) :
  grad_enabled w = true ->
  train_on_batch net grad_of zero_grads add_grads adam_step
                 (__init__ mv mt) batch w
  = Return (inner_loss_value mt
              (fst (net (parameters w) (running_stats w) true (image batch)))
              batch)
           (trained net grad_of zero_grads add_grads adam_step
                    (__init__ mv mt) batch w).
Proof.
  intros Hg. unfold train_on_batch, trained, step_grads.
  unfold bind, set_training, modify, emit, gets, call_model, zero_grad,
    backward, optimizer_step, modify, ret.
  cbn [parameters running_stats training p_grad optimizer grad_enabled calls].
  destruct (net (parameters w) (running_stats w) true (image batch))
    as [output stats'] eqn:Hnet.
  cbn [parameters running_stats training p_grad optimizer grad_enabled calls
       fst snd].
  destruct mt; cbn [apply_inner __init__ masked_loss_on_train inner_loss
                    call_loss3 call_loss2 lift ok];
    cbn -[MaskedMSE.forward MSELoss.mean MSELoss.none tmul np_div tsum];
    rewrite ?Hnet;
    cbn -[MaskedMSE.forward MSELoss.mean MSELoss.none tmul np_div tsum];
    unfold inner_loss_value; rewrite ?forward_mean;
    cbn -[MaskedMSE.criterion MSELoss.mean MSELoss.none tmul np_div tsum];
    rewrite Hg;
    cbn [parameters running_stats training p_grad optimizer grad_enabled calls];
    destruct (adam_step _ _ _) as [p' o'] eqn:Hstep;
    cbn [fst snd]; unfold batch_trace;
    rewrite <- ?app_assoc; reflexivity.
Qed.

End EvaluateFacts.

(** ** One score per sample *)

Lemma same_shape_length (n : nat) (a b : tensor (S n)) :
  same_shape (S n) a b = true -> List.length a = List.length b.
Proof.
  cbn [same_shape]. revert b.
  induction a as [|x a IH]; destruct b as [|y b]; cbn [forall2b List.length];
    try discriminate; [reflexivity|].
  intros H. apply andb_true_iff in H as [_ H]. now rewrite (IH _ H).
Qed.

Lemma zip_with3_length {A B C D : Type} (f : A -> B -> C -> D)
      (l1 : list A) (l2 : list B) (l3 : list C) :
  List.length l1 = List.length l2 -> List.length l2 = List.length l3 ->
  List.length (zip_with3 f l1 l2 l3) = List.length l2.
Proof.
  revert l2 l3.
  induction l1 as [|x l1 IH]; destruct l2 as [|y l2]; destruct l3 as [|z l3];
    cbn [zip_with3 List.length]; try discriminate; [reflexivity|].
  intros H1 H2. injection H1 as H1. injection H2 as H2.
  now rewrite (IH _ _ H1 H2).
Qed.

Lemma batch_scores_length (masked : bool) (output : tensor 4) (batch : batch_data) :
  well_shaped output batch = true ->
  List.length (batch_scores masked output batch) = List.length (image batch).
Proof.
  unfold well_shaped. intros H. apply andb_true_iff in H as [H1 H2].
  unfold batch_scores. apply zip_with3_length.
  - exact (@same_shape_length 3 _ _ H1).
  - exact (@same_shape_length 3 _ _ H2).
Qed.

Lemma eval_scores_length {params stats : Type}
      (net : params -> stats -> bool -> tensor 4 -> tensor 4 * stats)
      (masked : bool) (p : params) (mode : bool) :
  forall (loader : list batch_data) (s : stats),
    shapes_agree net p mode loader ->
    List.length (eval_scores net masked p s mode loader) = samples loader.
Proof.
  unfold shapes_agree, samples.
  induction loader as [|batch rest IH]; intros s H; [reflexivity|].
  inversion H as [|? ? Hb Hrest]; subst.
  cbn [eval_scores map list_sum fold_right]. specialize (Hb s).
  destruct (net p s mode (image batch)) as [output s'].
  cbn [fst] in Hb.
  rewrite length_app, (batch_scores_length _ _ _ Hb), (IH s' Hrest).
  reflexivity.
Qed.

(** ** Arithmetic of precision, recall and F1 *)

Lemma qn_pos (n : nat) : (0 < n)%nat -> 0 < qn n.
Proof.
  intros H. unfold Qclt, qn, qz. cbn [this Q2Qc]. rewrite !Qred_correct.
  change 0%Q with (inject_Z 0). rewrite <- Zlt_Qlt. lia.
Qed.


Lemma Qc_lt_neq (a b : Qc) : a < b -> b <> a.
Proof. intros H E. subst. exact (Qclt_not_le _ _ H (Qcle_refl _)). Qed.


Lemma Qc_div_pos (a b : Qc) : 0 < a -> 0 < b -> 0 < a / b.
Proof.
  intros Ha Hb.
  destruct (Qclt_le_dec 0 (a / b)) as [H|H]; [exact H|exfalso].
  apply (Qclt_not_le _ _ Ha).
  replace a with (a / b * b) by (field; now apply Qc_lt_neq).
  rewrite <- (Qcmult_0_l b).
  apply Qcmult_le_compat_r; [exact H | now apply Qclt_le_weak].
Qed.


Lemma qz_2 : qz 2 = 1 + 1.
Proof. apply Qc_is_canon. reflexivity. Qed.


Lemma np_div_nonzero (a b : Qc) : b <> 0 -> np_div a b = Fin (a / b).
Proof.
  intros H. unfold np_div.
  destruct (Qc_eqb b 0) eqn:E; [|reflexivity].
  apply Qc_eqb_eq in E. contradiction.
Qed.




(** ** [np.nanmax] and [np.argmax] on a list headed by its maximum *)





(** ** Lists *)

Lemma zip_with_map {A B C D : Type} (h : B -> C -> D) (f : A -> B) (g : A -> C)
      (l : list A) :
  zip_with h (map f l) (map g l) = map (fun x => h (f x) (g x)) l.
Proof. induction l as [|x l IH]; cbn; [reflexivity | now rewrite IH]. Qed.

Lemma zip_with_snoc {A B C : Type} (h : A -> B -> C) (l1 : list A) (l2 : list B)
      (a : A) (b : B) :
  List.length l1 = List.length l2 ->
  zip_with h (l1 ++ [a]) (l2 ++ [b]) = zip_with h l1 l2 ++ [h a b].
Proof.
  revert l2. induction l1 as [|x l1 IH]; destruct l2 as [|y l2]; cbn;
    try discriminate; [reflexivity|].
  intros H. injection H as H. now rewrite IH.
Qed.

Lemma slice_down_split {A B : Type} (g : A -> B) (pre : list A) (d : A)
      (post : list A) :
  np.slice_down_from (List.length pre) (map g (pre ++ d :: post))
  = g d :: rev (map g pre).
Proof.
  unfold np.slice_down_from.
  rewrite map_app, firstn_app, length_map.
  rewrite firstn_all2 by (rewrite length_map; lia).
  replace (S (List.length pre) - List.length pre)%nat with 1%nat by lia.
  cbn [map firstn]. now rewrite rev_app_distr.
Qed.

Lemma searchsorted_split {A : Type} (f : A -> nat) (v : nat) (l : list A) :
  Exists (fun d => (v <= f d)%nat) l ->
  exists pre d post,
    l = pre ++ d :: post
    /\ Forall (fun x => (f x < v)%nat) pre
    /\ (v <= f d)%nat
    /\ np.searchsorted (map f l) v = List.length pre.
Proof.
  induction l as [|x l IH]; intros H; [inversion H|].
  cbn [map np.searchsorted].
  destruct (f x <? v)%nat eqn:E.
  - apply Nat.ltb_lt in E.
    assert (H' : Exists (fun d => (v <= f d)%nat) l).
    { inversion H; subst; [lia | assumption]. }
    destruct (IH H') as [pre [d [post [-> [Hpre [Hd Hs]]]]]].
    exists (x :: pre), d, post.
    repeat split; auto. cbn. now rewrite Hs.
  - apply Nat.ltb_ge in E.
    exists [], x, l. repeat split; auto.
Qed.

Lemma last_map {A B : Type} (f : A -> B) (l : list A) (a : A) (b : B) :
  l <> [] -> last (map f l) b = f (last l a).
Proof.
  induction l as [|x l IH]; [congruence|]. intros _.
  destruct l as [|z l]; [reflexivity|].
  change (last (map f (z :: l)) b = f (last (z :: l) a)).
  apply IH. discriminate.
Qed.

Lemma filter_length_le {A : Type} (p q : A -> bool) (l : list A) :
  (forall x, In x l -> p x = true -> q x = true) ->
  (List.length (filter p l) <= List.length (filter q l))%nat.
Proof.
  induction l as [|x l IH]; intros H; cbn; [lia|].
  assert (IH' := IH (fun z Hz => H z (or_intror Hz))).
  destruct (p x) eqn:Ep.
  - rewrite (H x (or_introl eq_refl) Ep). cbn. lia.
  - destruct (q x); cbn; lia.
Qed.

Lemma filter_length_lt {A : Type} (p q : A -> bool) (l : list A) :
  (forall x, In x l -> p x = true -> q x = true) ->
  (exists x, In x l /\ q x = true /\ p x = false) ->
  (List.length (filter p l) < List.length (filter q l))%nat.
Proof.
  induction l as [|x l IH]; intros H [z [Hz [Hq Hp]]]; [inversion Hz|].
  assert (Hle := filter_length_le p q l (fun z Hz => H z (or_intror Hz))).
  cbn. destruct Hz as [->|Hz].
  - rewrite Hq, Hp. cbn. lia.
  - assert (IH' := IH (fun z Hz => H z (or_intror Hz))
                      (ex_intro _ z (conj Hz (conj Hq Hp)))).
    destruct (p x) eqn:Ep.
    + rewrite (H x (or_introl eq_refl) Ep). cbn. lia.
    + destruct (q x); cbn; lia.
Qed.

Lemma filter_none {A : Type} (p : A -> bool) (l : list A) :
  (forall x, In x l -> p x = false) -> filter p l = [].
Proof.
  induction l as [|x l IH]; intros H; cbn; [reflexivity|].
  rewrite (H x (or_introl eq_refl)). apply IH. intros z Hz. apply H. now right.
Qed.

(** ** The distinct scores, decreasing *)

Lemma Qccompare_Gt (x y : Qc) : (x ?= y) = Gt <-> y < x.
Proof.
  split; intro H; now apply (Qcgt_alt x y).
Qed.

Lemma insert_desc_In (x z : Qc) (l : list Qc) :
  In z (sklearn.insert_desc x l) <-> z = x \/ In z l.
Proof.
  induction l as [|y l IH]; cbn [sklearn.insert_desc].
  - cbn. intuition.
  - destruct (x ?= y) eqn:E.
    + apply Qceq_alt in E. subst. cbn. intuition.
    + cbn [In]. rewrite IH. intuition.
    + cbn. intuition.
Qed.

Lemma distinct_desc_In (z : Qc) (l : list Qc) :
  In z (sklearn.distinct_desc l) <-> In z l.
Proof.
  unfold sklearn.distinct_desc.
  induction l as [|x l IH]; cbn [fold_right]; [reflexivity|].
  rewrite insert_desc_In, IH. cbn. intuition.
Qed.

Lemma insert_desc_sorted (x : Qc) (l : list Qc) :
  StronglySorted (fun a b => b < a) l ->
  StronglySorted (fun a b => b < a) (sklearn.insert_desc x l).
Proof.
  induction 1 as [|y l Hs IH Hy]; cbn [sklearn.insert_desc].
  - repeat constructor.
  - destruct (x ?= y) eqn:E.
    + now constructor.
    + constructor; [exact IH|].
      apply Forall_forall. intros z Hz.
      apply insert_desc_In in Hz as [->|Hz].
      * now apply Qclt_alt.
      * rewrite Forall_forall in Hy. now apply Hy.
    + apply Qccompare_Gt in E.
      constructor; [now constructor|].
      constructor; [exact E|].
      apply Forall_forall. intros z Hz.
      rewrite Forall_forall in Hy.
      apply Qclt_trans with (y := y); [now apply Hy | exact E].
Qed.

Lemma distinct_desc_sorted (l : list Qc) :
  StronglySorted (fun a b => b < a) (sklearn.distinct_desc l).
Proof.
  unfold sklearn.distinct_desc.
  induction l as [|x l IH]; cbn [fold_right]; [constructor|].
  now apply insert_desc_sorted.
Qed.

Lemma sorted_last_le (l : list Qc) (d : Qc) :
  StronglySorted (fun a b => b < a) l ->
  forall x, In x l -> last l d <= x.
Proof.
  induction 1 as [|y l Hs IH Hy]; intros x Hx; [inversion Hx|].
  destruct l as [|z l].
  - destruct Hx as [->|[]]. apply Qcle_refl.
  - change (last (z :: l) d <= x).
    destruct Hx as [->|Hx].
    + apply Qclt_le_weak. rewrite Forall_forall in Hy. apply Hy.
      clear. revert z. induction l as [|a l IHl]; intros z; [now left|].
      right. apply IHl.
    + now apply IH.
Qed.

Lemma sorted_after (pre post : list Qc) (d x : Qc) :
  StronglySorted (fun a b => b < a) (pre ++ d :: post) ->
  In x post -> x < d.
Proof.
  induction pre as [|y pre IH]; cbn [app]; intros H Hx.
  - inversion H as [|? ? _ Hall]; subst.
    rewrite Forall_forall in Hall. now apply Hall.
  - inversion H; subst. now apply IH.
Qed.

(** ** The precision-recall curve of perfectly separated classes *)

Lemma combine_has_label {A B : Type} (a : list A) (b : list B) (d : B) :
  List.length a = List.length b -> In d b -> exists c, In (c, d) (combine a b).
Proof.
  revert b. induction a as [|x a IH]; destruct b as [|z b]; cbn;
    try discriminate; try contradiction.
  intros H [->|Hd].
  - exists x. now left.
  - injection H as H. destruct (IH b H Hd) as [c Hc]. exists c. now right.
Qed.

Lemma filter_length_pos {A : Type} (p : A -> bool) (l : list A) (x : A) :
  In x l -> p x = true -> (1 <= List.length (filter p l))%nat.
Proof.
  intros Hx Hp.
  assert (H : In x (filter p l)) by (apply filter_In; now split).
  destruct (filter p l); [inversion H | cbn; lia].
Qed.


Section PerfectSeparation.

Variables (y : list bool) (s : list Qc).

Hypothesis Hlen : List.length y = List.length s.
Hypothesis Hpos : exists a, In (true, a) (combine y s).
Hypothesis Hsep :
  forall a b, In (true, a) (combine y s) -> In (false, b) (combine y s) -> b < a.

Let cT := sklearn.count_at y s true.
Let cF := sklearn.count_at y s false.

(** Every positive sample has a score of at least [t]. *)
Let positives_ge (t : Qc) : Prop :=
  forall a, In (true, a) (combine y s) -> t <= a.

Lemma count_true_le (t t' : Qc) : positives_ge t' -> (cT t <= cT t')%nat.
Proof.
  intros H. unfold cT, sklearn.count_at. apply filter_length_le.
  intros [c a] Hin Hp. cbn [fst snd] in *.
  apply andb_true_iff in Hp as [Hc _]. rewrite Hc. cbn.
  apply eqb_prop in Hc. subst. apply Qc_leb_le. now apply H.
Qed.

Lemma count_true_eq (t t' : Qc) :
  positives_ge t -> positives_ge t' -> cT t = cT t'.
Proof.
  intros H H'. apply Nat.le_antisymm; now apply count_true_le.
Qed.

Lemma count_true_lt (t t' a : Qc) :
  In (true, a) (combine y s) -> a < t -> positives_ge t' -> (cT t < cT t')%nat.
Proof.
  intros Ha Hlt H'. unfold cT, sklearn.count_at. apply filter_length_lt.
  - intros [c b] Hin Hp. cbn [fst snd] in *.
    apply andb_true_iff in Hp as [Hc _]. rewrite Hc. cbn.
    apply eqb_prop in Hc. subst. apply Qc_leb_le. now apply H'.
  - exists (true, a). split; [exact Ha|]. cbn [fst snd]. split.
    + cbn. apply Qc_leb_le. now apply H'.
    + cbn. destruct (Qc_leb t a) eqn:E; [|reflexivity].
      apply Qc_leb_le in E. now apply Qcle_not_lt in E.
Qed.

Lemma min_positive :
  exists m, In (true, m) (combine y s) /\ positives_ge m.
Proof.
  unfold positives_ge. clear Hsep Hlen cT cF positives_ge.
  induction (combine y s) as [|[c b] l IH].
  - destruct Hpos as [a []].
  - destruct (existsb (fun ys => fst ys) l) eqn:E.
    + apply existsb_exists in E as [[c' a'] [Hin Hc]]. cbn in Hc. subst c'.
      destruct (IH (ex_intro _ a' Hin)) as [m [Hm Hmin]].
      destruct c.
      * destruct (Qclt_le_dec b m) as [Hlt|Hle].
        -- exists b. split; [now left|].
           intros a [Ha|Ha].
           ++ injection Ha as ->. apply Qcle_refl.
           ++ apply Qclt_le_weak.
              apply Qclt_le_trans with (y := m); [exact Hlt | now apply Hmin].
        -- exists m. split; [now right|].
           intros a [Ha|Ha]; [now injection Ha as <- | now apply Hmin].
      * exists m. split; [now right|].
        intros a [Ha|Ha]; [discriminate | now apply Hmin].
    + destruct Hpos as [a [Ha|Ha]].
      * injection Ha as -> ->. exists a. split; [now left|].
        intros a' [Ha'|Ha']; [injection Ha' as <-; apply Qcle_refl|].
        exfalso. assert (existsb (fun ys : bool * Qc => fst ys) l = true).
        { apply existsb_exists. exists (true, a'). now split. }
        congruence.
      * exfalso. assert (existsb (fun ys : bool * Qc => fst ys) l = true).
        { apply existsb_exists. exists (true, a). now split. }
        congruence.
Qed.


Lemma count_true_pos (d : Qc) :
  In (true, d) (combine y s) -> (1 <= cT d)%nat.
Proof.
  intros Hd. unfold cT, sklearn.count_at.
  apply filter_length_pos with (x := (true, d)); [exact Hd|].
  cbn. apply Qc_leb_le, Qcle_refl.
Qed.


End PerfectSeparation.

Lemma combine_has_score {A B : Type} (a : list A) (b : list B) (c : A) :
  List.length a = List.length b -> In c a -> exists d, In (c, d) (combine a b).
Proof.
  revert b. induction a as [|x a IH]; destruct b as [|z b]; cbn;
    try discriminate; try contradiction.
  intros H [->|Hc].
  - exists z. now left.
  - injection H as H. destruct (IH b H Hc) as [d Hd]. exists d. now right.
Qed.




Lemma roc_auc_score_defined (y : list bool) (s : list Qc) :
  List.length y = List.length s ->
  existsb (fun l => l) y = true ->
  existsb negb y = true ->
  exists auc, sklearn.roc_auc_score y (map Fin s) = ok auc.
Proof.
  intros Hlen Hp Hn. unfold sklearn.roc_auc_score.
  rewrite check_consistent_length_ok by (now rewrite length_map).
  cbn [rbind]. rewrite all_finite_map_Fin. cbn [rbind ok].
  rewrite Hp, Hn. cbn [andb]. unfold sklearn._binary_clf_curve.
  eexists. reflexivity.
Qed.

(** ** [evaluate]: anomaly scores, F1 score and threshold *)

Section EvaluationClaims.

Variables params stats grads optstate : Type.
Variable net : params -> stats -> bool -> tensor 4 -> tensor 4 * stats.

Let world : Type := world params stats grads optstate.

(** C4: on a loader whose batches line up (the output of the forward
    pass, the images and the masks have one shape), the loop of
    [evaluate] appends one score for every sample of every batch: the
    sum of the sample's per-pixel losses divided by the sum of the
    sample's mask; it divides by the mask sum also when
    [masked_loss_on_val] is false and the per-pixel losses are the
    plain squared errors, computed without the mask. *)
Theorem evaluate_scores_per_sample (mv mt : bool) (loader : list batch_data)
        (losses : list scalar) (true_labels : list bool) (w : world) :
  shapes_agree net (parameters w) (training w) loader ->
  (exists w',
      accumulate net (__init__ mv mt) loader losses true_labels w
      = Return (losses ++ eval_scores net mv (parameters w) (running_stats w)
                                      (training w) loader,
                true_labels ++ flat_map label loader) w')
  /\ List.length (eval_scores net mv (parameters w) (running_stats w)
                              (training w) loader)
     = samples loader
  /\ (forall (output : tensor 4) (batch : batch_data),
         well_shaped output batch = true ->
         batch_scores mv output batch
         = zip_with3 (fun o i m =>
                        np_div (tsum 3 (if mv
                                        then MSELoss.none 3 (tmul 3 o m) (tmul 3 i m)
                                        else MSELoss.none 3 o i))
                               (tsum 3 m))
                     output (image batch) (mask batch)
         /\ List.length (batch_scores mv output batch)
            = List.length (image batch))
  /\ (forall o i m : tensor 3,
         anomaly_score false o i m
         = np_div (tsum 3 (MSELoss.none 3 o i)) (tsum 3 m)).
Proof.
  intros Hshapes. split; [|split; [|split]].
  - eexists. apply accumulate_run.
  - now apply eval_scores_length.
  - intros output batch Hb. split.
    + unfold batch_scores, anomaly_score, per_pixel_loss. reflexivity.
    + now apply batch_scores_length.
  - reflexivity.
Qed.

(** The mean error that [evaluate] returns is the mean of these
    scores. *)
Lemma evaluate_mse_is_mean_score (mv mt : bool) (loader : list batch_data)
      (log_to_mlflow : bool) (val_metrics : option metrics) (w : world)
      (m : metrics) (w' : world) :
  evaluate net (__init__ mv mt) loader log_to_mlflow val_metrics w = Return m w' ->
  mse m = np.mean (eval_scores net mv (parameters w) (running_stats w) false loader).
Proof.
  rewrite evaluate_run. unfold score_metrics.
  destruct (sklearn.roc_auc_score _ _) as [e|auc]; cbn [rbind]; [discriminate|].
  destruct (f1_and_threshold _ _ _) as [e|[f1 t]]; cbn [rbind ok];
    [discriminate|].
  intros H. injection H as <- _. reflexivity.
Qed.

(** In test mode the threshold is the one that comes in, and the F1
    score is that of predicting abnormal exactly where the loss
    exceeds it. *)
Lemma evaluate_test_mode (mv mt : bool) (loader : list batch_data)
      (log_to_mlflow : bool) (val_metrics m : metrics) (w w' : world) :
  evaluate net (__init__ mv mt) loader log_to_mlflow (Some val_metrics) w
  = Return m w' ->
  optimal_mse_threshold m = optimal_mse_threshold val_metrics
  /\ sklearn.f1_score
       (flat_map label loader)
       (map (fun l => sgt l (Fin (optimal_mse_threshold val_metrics)))
            (eval_scores net mv (parameters w) (running_stats w) false loader))
     = ok (f1_score m).
Proof.
  rewrite evaluate_run. unfold score_metrics.
  destruct (sklearn.roc_auc_score _ _) as [e|auc]; cbn [rbind]; [discriminate|].
  cbn [option_map f1_and_threshold]. unfold predict.
  destruct (sklearn.f1_score _ _) as [e|f1]; cbn [rbind ok]; [discriminate|].
  intros H. injection H as <- _. split; reflexivity.
Qed.

(** In validation mode the F1 score is [np.nanmax] of the F1 scores of
    the curve and the threshold is the one at their [np.argmax]. *)
Lemma evaluate_validation_mode (mv mt : bool) (loader : list batch_data)
      (log_to_mlflow : bool) (m : metrics) (w w' : world) :
  evaluate net (__init__ mv mt) loader log_to_mlflow None w = Return m w' ->
  exists precision recall thresholds i,
    sklearn.precision_recall_curve
      (flat_map label loader)
      (eval_scores net mv (parameters w) (running_stats w) false loader)
    = ok (precision, recall, thresholds)
    /\ np.nanmax (f1_scores precision recall) = ok (f1_score m)
    /\ np.argmax (f1_scores precision recall) = ok i
    /\ nth_error thresholds i = Some (optimal_mse_threshold m).
Proof.
  rewrite evaluate_run. unfold score_metrics.
  destruct (sklearn.roc_auc_score _ _) as [e|auc]; cbn [rbind]; [discriminate|].
  cbn [option_map f1_and_threshold].
  destruct (sklearn.precision_recall_curve _ _) as [e|[[p r] t]];
    cbn [rbind]; [discriminate|].
  destruct (np.nanmax _) as [e|f1] eqn:Hmax; cbn [rbind]; [discriminate|].
  destruct (np.argmax _) as [e|i] eqn:Harg; cbn [rbind]; [discriminate|].
  unfold np.getitem.
  destruct (nth_error t i) as [thr|] eqn:Hnth; cbn [rbind ok throw];
    [|discriminate].
  intros H. injection H as <- _.
  exists p, r, t, i. cbn [f1_score optimal_mse_threshold]. auto.
Qed.


End EvaluationClaims.

Lemma evaluate_scores_per_sample_witness :
  shapes_agree Example.zero_net tt true Example.separated
  /\ (exists w',
         accumulate Example.zero_net (__init__ true false) Example.separated
                    [] [] Example.w0
         = Return ([] ++ eval_scores Example.zero_net true tt tt true
                                     Example.separated,
                   [] ++ flat_map label Example.separated) w')
  /\ List.length (eval_scores Example.zero_net true tt tt true Example.separated)
     = 3%nat.
Proof.
  assert (H : shapes_agree Example.zero_net tt true Example.separated).
  { constructor; [intros s; reflexivity | constructor]. }
  split; [exact H|].
  destruct (@evaluate_scores_per_sample
              unit unit unit nat Example.zero_net true false Example.separated
              [] [] Example.w0 H) as [Hrun [Hlen _]].
  split; [exact Hrun | exact Hlen].
Defined.


(** C1 fails on the code where the sample with the highest loss is
    normal.  With labels normal, abnormal, normal and losses 1/3, 2/3, 1,
    the curve has the thresholds 2/3 and 1 and the F1 scores 2/3, NaN
    (precision and recall are both 0 at threshold 1) and 0 for the final
    point.  [np.nanmax] skips the NaN and [evaluate] returns the F1
    score 2/3, reached at threshold 2/3; [np.argmax] stops at the NaN
    and [evaluate] returns the threshold 1, at which no abnormal sample
    is found: predicting with it, as the test pass does, has F1 score
    0, and so has the classification "loss >= 1" of the curve. *)
Theorem evaluate_threshold_not_at_max_f1 :
  let labels := flat_map label Example.top_normal in
  let scores := eval_scores Example.zero_net false tt tt false Example.top_normal in
  labels = [false; true; false]
  /\ scores = [Fin (qfrac 1 3); Fin (qfrac 2 3); Fin (qz 1)]
  /\ (exists precision recall,
         sklearn.precision_recall_curve labels scores
         = ok (precision, recall, [qfrac 2 3; qz 1])
         /\ f1_scores precision recall = [Fin (qfrac 2 3); NaN; Fin 0])
  /\ (exists m w',
         evaluate Example.zero_net (__init__ false false) Example.top_normal
                  false None Example.w0
         = Return m w'
         /\ f1_score m = Fin (qfrac 2 3)
         /\ optimal_mse_threshold m = qz 1)
  /\ sklearn.f1_score labels (predict scores (qz 1)) = ok (Fin 0)
  /\ sklearn.f1_score labels (map (Qc_leb (qz 1)) [qfrac 1 3; qfrac 2 3; qz 1])
     = ok (Fin 0)
  /\ sklearn.f1_score labels (map (Qc_leb (qfrac 2 3)) [qfrac 1 3; qfrac 2 3; qz 1])
     = ok (Fin (qfrac 2 3)).
Proof.
  intros labels scores.
  assert (Hs : scores = [Fin (qfrac 1 3); Fin (qfrac 2 3); Fin (qz 1)]).
  { apply scalars_eqb_eq. vm_compute. reflexivity. }
  split; [reflexivity|]. split; [exact Hs|].
  split; [|split; [|split; [|split]]].
  - destruct (sklearn.precision_recall_curve labels scores)
      as [e|[[p r] t]] eqn:E; vm_compute in E; [discriminate|].
    injection E as <- <- <-.
    eexists. eexists. split.
    + unfold ok. do 2 f_equal. apply rationals_eqb_eq. vm_compute. reflexivity.
    + apply scalars_eqb_eq. vm_compute. reflexivity.
  - destruct (evaluate Example.zero_net (__init__ false false) Example.top_normal
                       false None Example.w0) as [m w'|e w'] eqn:E;
      vm_compute in E; [|discriminate].
    injection E as <- <-.
    eexists. eexists. split; [reflexivity|]. split.
    + apply scalar_eqb_eq. vm_compute. reflexivity.
    + apply Qc_is_canon. reflexivity.
  - rewrite Hs.
    destruct (sklearn.f1_score _ _) as [e|f] eqn:E; vm_compute in E;
      [discriminate|].
    injection E as <-. unfold ok.
    f_equal; try (apply scalar_eqb_eq; vm_compute; reflexivity).
  - destruct (sklearn.f1_score _ _) as [e|f] eqn:E; vm_compute in E;
      [discriminate|].
    injection E as <-. unfold ok.
    f_equal; try (apply scalar_eqb_eq; vm_compute; reflexivity).
  - destruct (sklearn.f1_score _ _) as [e|f] eqn:E; vm_compute in E;
      [discriminate|].
    injection E as <-. unfold ok.
    f_equal; try (apply scalar_eqb_eq; vm_compute; reflexivity).
Qed.

(** ** Layer stacks *)

(** C5: with their default layer parameters, both autoencoders map a
    one-channel 512x512 input to a one-channel 512x512 output: the
    baseline encoder reaches 512 channels of 16x16, the bottleneck
    encoder 256 channels of 3x3 (with pooling indices of 256, 64, 16, 4
    and 1 pixels a side), and each decoder leads back to 512x512. *)
Theorem default_stacks_restore_input_size :
  (exists enc dec,
      BaselineLayers.encoder_layers BaselineLayers.defaults = ok enc
      /\ BaselineLayers.decoder_layers BaselineLayers.defaults = ok dec
      /\ sequential_shape enc (1, 512, 512)%Z = ok (512, 16, 16)%Z
      /\ sequential_shape dec (512, 16, 16)%Z = ok (1, 512, 512)%Z)
  /\ BaselineLayers.forward_shape BaselineLayers.defaults (1, 512, 512)%Z
     = ok (1, 512, 512)%Z
  /\ (exists enc dec maxpool_ind,
         BottleneckLayers.encoder_layers BottleneckLayers.defaults = ok enc
         /\ BottleneckLayers.decoder_layers BottleneckLayers.defaults = ok dec
         /\ BottleneckLayers.encode_shape enc (1, 512, 512)%Z []
            = ok ((256, 3, 3)%Z, maxpool_ind)
         /\ map (fun ind => snd ind) maxpool_ind = [256; 64; 16; 4; 1]%Z
         /\ BottleneckLayers.decode_shape dec (256, 3, 3)%Z maxpool_ind
            = ok (1, 512, 512)%Z)
  /\ BottleneckLayers.forward_shape BottleneckLayers.defaults (1, 512, 512)%Z
     = ok (1, 512, 512)%Z.
Proof.
  split; [|split; [|split]].
  - eexists. eexists. repeat split; vm_compute; reflexivity.
  - vm_compute. reflexivity.
  - eexists. eexists. eexists.
    split; [vm_compute; reflexivity|]. split; [vm_compute; reflexivity|].
    split; [vm_compute; reflexivity|]. split; vm_compute; reflexivity.
  - vm_compute. reflexivity.
Qed.

(** The baseline stacks halve the side five times and double it five
    times: every side that is a positive multiple of 32 comes back. *)
Lemma baseline_restores_multiples_of_32 (k : Z) :
  (0 < k)%Z ->
  BaselineLayers.forward_shape BaselineLayers.defaults (1, 32 * k, 32 * k)%Z
  = ok (1, 32 * k, 32 * k)%Z.
Proof.
  intros Hk.
  unfold BaselineLayers.forward_shape.
  replace (BaselineLayers.encoder_layers BaselineLayers.defaults)
    with (ok [Conv2d 1 16 3 1 1 false; BatchNorm2d 16; Act ReLU;
              Conv2d 16 32 4 2 1 false; BatchNorm2d 32; Act ReLU;
              Conv2d 32 32 3 1 1 false; BatchNorm2d 32; Act ReLU;
              Conv2d 32 64 4 2 1 false; BatchNorm2d 64; Act ReLU;
              Conv2d 64 64 3 1 1 false; BatchNorm2d 64; Act ReLU;
              Conv2d 64 128 4 2 1 false; BatchNorm2d 128; Act ReLU;
              Conv2d 128 128 3 1 1 false; BatchNorm2d 128; Act ReLU;
              Conv2d 128 256 4 2 1 false; BatchNorm2d 256; Act ReLU;
              Conv2d 256 256 3 1 1 false; BatchNorm2d 256; Act ReLU;
              Conv2d 256 512 4 2 1 false; BatchNorm2d 512; Act ReLU]%Z)
    by (vm_compute; reflexivity).
  replace (BaselineLayers.decoder_layers BaselineLayers.defaults)
    with (ok [ConvTranspose2d 512 256 4 2 1 false; BatchNorm2d 256; Act ReLU;
              ConvTranspose2d 256 128 4 2 1 false; BatchNorm2d 128; Act ReLU;
              ConvTranspose2d 128 64 4 2 1 false; BatchNorm2d 64; Act ReLU;
              ConvTranspose2d 64 32 4 2 1 false; BatchNorm2d 32; Act ReLU;
              ConvTranspose2d 32 16 4 2 1 false; BatchNorm2d 16; Act ReLU;
              ConvTranspose2d 16 1 3 1 1 false; Act ReLU; Act Tanh]%Z)
    by (vm_compute; reflexivity).
  cbn [rbind ok].
  assert (Hsame : forall n, (0 < n)%Z -> conv_out n 3 1 1 = n).
  { intros n Hn. unfold conv_out. rewrite Z.div_1_r. lia. }
  assert (Hhalf : forall n, (0 < n)%Z -> conv_out (2 * n) 4 2 1 = n).
  { intros n Hn. unfold conv_out.
    replace (2 * n + 2 * 1 - 4)%Z with ((n - 1) * 2)%Z by lia.
    rewrite Z.div_mul by lia. lia. }
  assert (Hdouble : forall n, conv_transpose_out n 4 2 1 = (2 * n)%Z).
  { intros n. unfold conv_transpose_out. lia. }
  assert (Hkeep : forall n, conv_transpose_out n 3 1 1 = n).
  { intros n. unfold conv_transpose_out. lia. }
  assert (Hconv3 : forall cin cout n rest,
             (0 < n)%Z ->
             sequential_shape (Conv2d cin cout 3 1 1 false :: rest) (cin, n, n)
             = sequential_shape rest (cout, n, n)).
  { intros cin cout n rest Hn. cbn [sequential_shape layer_shape].
    rewrite Z.eqb_refl. cbn [andb].
    replace (3 <=? n + 2 * 1)%Z with true by (symmetry; apply Z.leb_le; lia).
    cbn [andb Z.ltb Z.compare rbind ok]. now rewrite !Hsame. }
  assert (Hconv4 : forall cin cout n rest,
             (0 < n)%Z ->
             sequential_shape (Conv2d cin cout 4 2 1 false :: rest)
                              (cin, 2 * n, 2 * n)%Z
             = sequential_shape rest (cout, n, n)).
  { intros cin cout n rest Hn. cbn [sequential_shape layer_shape].
    rewrite Z.eqb_refl. cbn [andb].
    replace (4 <=? 2 * n + 2 * 1)%Z with true by (symmetry; apply Z.leb_le; lia).
    cbn [andb Z.ltb Z.compare rbind ok]. now rewrite !Hhalf. }
  assert (Hbn : forall c h w rest,
             sequential_shape (BatchNorm2d c :: rest) (c, h, w)
             = sequential_shape rest (c, h, w)).
  { intros c h w rest. cbn [sequential_shape layer_shape].
    now rewrite Z.eqb_refl. }
  assert (Hact : forall a x rest,
             sequential_shape (Act a :: rest) x = sequential_shape rest x).
  { intros a [[c h] w] rest. reflexivity. }
  assert (Hup4 : forall cin cout n rest,
             (0 < n)%Z ->
             sequential_shape (ConvTranspose2d cin cout 4 2 1 false :: rest)
                              (cin, n, n)
             = sequential_shape rest (cout, 2 * n, 2 * n)%Z).
  { intros cin cout n rest Hn. cbn [sequential_shape layer_shape].
    rewrite Z.eqb_refl, !Hdouble. cbn [andb].
    replace (0 <? 2 * n)%Z with true by (symmetry; apply Z.ltb_lt; lia).
    reflexivity. }
  assert (Hup3 : forall cin cout n rest,
             (0 < n)%Z ->
             sequential_shape (ConvTranspose2d cin cout 3 1 1 false :: rest)
                              (cin, n, n)
             = sequential_shape rest (cout, n, n)).
  { intros cin cout n rest Hn. cbn [sequential_shape layer_shape].
    rewrite Z.eqb_refl, !Hkeep. cbn [andb].
    replace (0 <? n)%Z with true by (symmetry; apply Z.ltb_lt; lia).
    reflexivity. }
  replace (32 * k)%Z with (2 * (16 * k))%Z at 1 2 by lia.
  rewrite Hconv3, Hbn, Hact, Hconv4, Hbn, Hact by lia.
  replace (16 * k)%Z with (2 * (8 * k))%Z by lia.
  rewrite Hconv3, Hbn, Hact, Hconv4, Hbn, Hact by lia.
  replace (8 * k)%Z with (2 * (4 * k))%Z by lia.
  rewrite Hconv3, Hbn, Hact, Hconv4, Hbn, Hact by lia.
  replace (4 * k)%Z with (2 * (2 * k))%Z by lia.
  rewrite Hconv3, Hbn, Hact, Hconv4, Hbn, Hact by lia.
  rewrite Hconv3, Hbn, Hact, Hconv4, Hbn, Hact by lia.
  change (sequential_shape [] (512, k, k)%Z) with (ok (512, k, k)%Z).
  cbn [rbind ok].
  rewrite Hup4, Hbn, Hact by lia.
  rewrite Hup4, Hbn, Hact by lia.
  rewrite Hup4, Hbn, Hact by lia.
  rewrite Hup4, Hbn, Hact by lia.
  rewrite Hup4, Hbn, Hact by lia.
  rewrite Hup3, Hact, Hact by lia.
  cbn [sequential_shape]. do 2 f_equal; [f_equal|]; lia.
Qed.

(** ** What the methods change *)

Section FrameClaims.

Variables params stats grads optstate : Type.
Variable net : params -> stats -> bool -> tensor 4 -> tensor 4 * stats.
Variable grad_of :
  (tensor 4 -> result loss_value) -> params -> stats -> tensor 4 -> grads.
Variable zero_grads : grads.
Variable add_grads : grads -> grads -> grads.
Variable adam_step : optstate -> params -> grads -> params * optstate.

Let world : Type := world params stats grads optstate.

Lemma eval_frame_refl (g : bool) (w : world) : eval_frame g w w.
Proof.
  unfold eval_frame. do 4 (split; [reflexivity|]).
  exists []. split; [now rewrite app_nil_r | constructor].
Qed.

Lemma eval_frame_trans (g : bool) (w w1 w2 : world) :
  eval_frame g w w1 -> eval_frame g w1 w2 -> eval_frame g w w2.
Proof.
  intros (Hp & Hg & Ho & He & new & Hc & Hf)
         (Hp' & Hg' & Ho' & He' & new' & Hc' & Hf').
  unfold eval_frame. do 4 (split; [congruence|]).
  exists (new ++ new'). split.
  - rewrite Hc', Hc. now rewrite app_assoc.
  - apply Forall_app. now split.
Qed.

Lemma loss_event_is_eval (g : bool) (criterion : loss_module) :
  eval_event g (loss_event criterion).
Proof. now destruct criterion. Qed.

(** The loop of [evaluate], for any loss attributes: whether it
    returns or raises, it leaves the weights alone and calls the
    model in the gradient mode it was entered in. *)
Lemma accumulate_frame (self : autoencoder) :
  forall (loader : list batch_data) (losses : list scalar)
         (true_labels : list bool) (w : world),
    eval_frame (grad_enabled w) w
               (final (accumulate net self loader losses true_labels w)).
Proof.
  induction loader as [|batch rest IH]; intros losses true_labels w.
  - apply eval_frame_refl.
  - cbn [accumulate]. unfold bind at 1. unfold call_model.
    destruct (net (parameters w) (running_stats w) (training w) (image batch))
      as [output stats'].
    unfold bind at 1. unfold emit at 1. unfold modify.
    cbn [parameters running_stats training p_grad optimizer grad_enabled calls].
    set (w2 := {| parameters := parameters w;
                  running_stats := stats';
                  training := training w;
                  p_grad := p_grad w;
                  optimizer := optimizer w;
                  grad_enabled := grad_enabled w;
                  calls := (calls w ++ [CallModel (training w) (grad_enabled w)])
                             ++ [loss_event (outer_loss self)] |}).
    assert (H2 : eval_frame (grad_enabled w) w w2).
    { unfold eval_frame, w2. cbn. do 4 (split; [reflexivity|]).
      exists [CallModel (training w) (grad_enabled w);
              loss_event (outer_loss self)].
      split; [now rewrite <- app_assoc|].
      repeat constructor. apply loss_event_is_eval. }
    unfold bind at 1.
    destruct (apply_outer self output (image batch) (mask batch)) as [e|loss];
      cbn [lift final]; [exact H2|].
    unfold bind at 1.
    destruct (sum_over_sample loss) as [e|sum_loss]; cbn [lift final];
      [exact H2|].
    eapply eval_frame_trans; [exact H2|].
    change (grad_enabled w) with (grad_enabled w2). apply IH.
Qed.

Lemma emit_all_run (es : list event) (w : world) :
  emit_all es w = Return tt (logged es w).
Proof.
  revert w. induction es as [|e es IH]; intros w; cbn [emit_all].
  - unfold ret, logged. rewrite app_nil_r. now destruct w.
  - unfold bind, emit, modify. rewrite IH. unfold logged. cbn.
    now rewrite <- app_assoc.
Qed.

(** C9: the learnable weights change in the optimizer step of
    [train_on_batch] and nowhere else.  [evaluate], whether it returns
    or raises, leaves the weights, the stored gradients and the
    optimizer as they were and restores the gradient mode; all its
    calls of the model are made with gradients disabled, and it
    resets or computes no gradient and takes no optimizer step.
    [forward_and_save_one_image] leaves the weights as they were.
    [train_on_batch] either returns, with the weights that the
    optimizer step computed from the weights before, or raises before
    the step with the weights as they were. *)
Theorem weights_change_only_in_optimizer_step (self : autoencoder) :
  (forall (loader : list batch_data) (log_to_mlflow : bool)
          (val_metrics : option metrics) (w : world),
      let w' := final (evaluate net self loader log_to_mlflow val_metrics w) in
      parameters w' = parameters w
      /\ p_grad w' = p_grad w
      /\ optimizer w' = optimizer w
      /\ grad_enabled w' = grad_enabled w
      /\ exists new,
          calls w' = calls w ++ SetTraining false :: new
          /\ Forall (eval_event false) new)
  /\ (forall (inp_image : tensor 4) (w : world),
         parameters (final (forward_and_save_one_image net inp_image w))
         = parameters w)
  /\ (forall (batch : batch_data) (w : world),
         let o := train_on_batch net grad_of zero_grads add_grads adam_step
                                 self batch w in
         (exists loss,
             o = Return loss (final o)
             /\ parameters (final o)
                = fst (adam_step (optimizer w) (parameters w) (p_grad (final o)))
             /\ exists before, calls (final o) = before ++ [OptimizerStep])
         \/ ((exists e, o = Raised e (final o))
             /\ parameters (final o) = parameters w
             /\ optimizer (final o) = optimizer w
             /\ count_events is_step (calls (final o))
                = count_events is_step (calls w))).
Proof.
  split; [|split].
  - intros loader log_to_mlflow val_metrics w w'.
    assert (E : w' = final (evaluate net self loader log_to_mlflow val_metrics w))
      by reflexivity.
    clearbody w'.
    unfold evaluate in E. unfold bind at 1 in E. unfold set_training in E.
    unfold bind at 1 in E. unfold modify at 1 in E. unfold emit at 1 in E.
    unfold modify at 1 in E.
    cbn [parameters running_stats training p_grad optimizer grad_enabled calls]
      in E.
    set (w1 := {| parameters := parameters w;
                  running_stats := running_stats w;
                  training := false;
                  p_grad := p_grad w;
                  optimizer := optimizer w;
                  grad_enabled := grad_enabled w;
                  calls := calls w ++ [SetTraining false] |}) in E.
    unfold with_no_grad in E.
    set (w2 := set_grad_enabled false w1) in E.
    assert (Hacc := accumulate_frame self loader [] [] w2).
    unfold bind at 1 in E.
    destruct (accumulate net self loader [] [] w2) as [[losses labels] w3|e w3];
      cbn [final] in Hacc;
      destruct Hacc as (Hp & Hg & Ho & _ & new & Hc & Hf).
    + unfold bind at 1 in E.
      destruct (score_metrics labels losses _) as [e|m]; cbn [lift] in E.
      * subst w'.
        cbn [final set_grad_enabled parameters p_grad optimizer grad_enabled calls].
        split; [exact Hp|]. split; [exact Hg|]. split; [exact Ho|].
        split; [reflexivity|].
        exists new. split; [|exact Hf].
        rewrite Hc. cbn. now rewrite <- app_assoc.
      * unfold bind at 1 in E.
        assert (Hlog : (if log_to_mlflow
                        then emit_all (map LogMetric metric_names)
                        else ret tt) w3
                       = Return tt (logged (log_trace log_to_mlflow) w3)).
        { destruct log_to_mlflow; [apply emit_all_run|].
          unfold ret, logged, log_trace. rewrite app_nil_r. now destruct w3. }
        rewrite Hlog in E. subst w'.
        cbn [ret final set_grad_enabled logged parameters p_grad optimizer
             grad_enabled calls].
        split; [exact Hp|]. split; [exact Hg|]. split; [exact Ho|].
        split; [reflexivity|].
        exists (new ++ log_trace log_to_mlflow). split.
        -- rewrite Hc. cbn. now rewrite <- !app_assoc.
        -- apply Forall_app. split; [exact Hf|].
           destruct log_to_mlflow; cbn; repeat constructor.
    + subst w'.
      cbn [final set_grad_enabled parameters p_grad optimizer grad_enabled calls].
      split; [exact Hp|]. split; [exact Hg|]. split; [exact Ho|].
      split; [reflexivity|].
      exists new. split; [|exact Hf].
      rewrite Hc. cbn. now rewrite <- app_assoc.
  - intros inp_image w.
    unfold forward_and_save_one_image, set_training, with_no_grad, bind,
      modify, emit, call_model, modify, ret.
    cbn [parameters running_stats training p_grad optimizer grad_enabled calls
         set_grad_enabled].
    destruct (net (parameters w) (running_stats w) false inp_image)
      as [output stats'].
    reflexivity.
  - intros batch w o.
    assert (E : o = train_on_batch net grad_of zero_grads add_grads adam_step
                                   self batch w) by reflexivity.
    clearbody o.
    unfold train_on_batch in E.
    unfold set_training, zero_grad, bind, modify, emit, gets, call_model,
      backward, optimizer_step, modify, ret in E.
    cbn [parameters running_stats training p_grad optimizer grad_enabled calls]
      in E.
    destruct (net (parameters w) (running_stats w) true (image batch))
      as [output stats'].
    cbn [parameters running_stats training p_grad optimizer grad_enabled calls]
      in E.
    destruct (apply_inner self (image batch) (mask batch) output) as [e|loss];
      cbn [lift] in E.
    + right. subst o. cbn [final parameters optimizer calls].
      split; [eexists; reflexivity|]. split; [reflexivity|].
      split; [reflexivity|].
      unfold count_events. rewrite !filter_app. cbn.
      destruct (inner_loss self); cbn; now rewrite !app_nil_r.
    + cbn [parameters running_stats training p_grad optimizer grad_enabled
           calls] in E.
      destruct loss as [t|s0].
      * right. subst o. cbn [final parameters optimizer calls].
        split; [eexists; reflexivity|]. split; [reflexivity|].
        split; [reflexivity|].
        unfold count_events. rewrite !filter_app. cbn.
        destruct (inner_loss self); cbn; now rewrite !app_nil_r.
      * destruct (grad_enabled w).
        -- left.
           cbn [parameters running_stats training p_grad optimizer grad_enabled
                calls] in E.
           destruct (adam_step _ _ _) as [p' o'] eqn:Hstep.
           subst o. cbn [final parameters p_grad calls].
           exists (ZeroDim s0). split; [reflexivity|].
           split; [now rewrite Hstep|].
           eexists. reflexivity.
        -- right. subst o. cbn [final parameters optimizer calls].
           split; [eexists; reflexivity|]. split; [reflexivity|].
           split; [reflexivity|].
           unfold count_events. rewrite !filter_app. cbn.
           destruct (inner_loss self); cbn; now rewrite !app_nil_r.
Qed.

End FrameClaims.

(** ** The epoch loop *)

Lemma count_events_app (p : event -> bool) (a b : list event) :
  count_events p (a ++ b) = (count_events p a + count_events p b)%nat.
Proof. unfold count_events. now rewrite filter_app, length_app. Qed.

Lemma count_events_eval_loop (p : event -> bool) (mv tr g : bool)
      (loader : list batch_data) :
  p (CallModel tr g) = false -> p (CallLoss mv "none") = false ->
  count_events p (eval_loop_trace mv tr g loader) = 0%nat.
Proof.
  intros H1 H2. unfold eval_loop_trace, count_events.
  induction loader as [|b rest IH]; cbn [flat_map app filter]; [reflexivity|].
  now rewrite H1, H2.
Qed.

Lemma count_events_batches (p : event -> bool) (mt : bool) (k : nat)
      (batches : list batch_data) :
  count_events p (batch_trace mt) = k ->
  count_events p (flat_map (fun _ => batch_trace mt) batches)
  = (k * List.length batches)%nat.
Proof.
  intros Hk. induction batches as [|b rest IH]; cbn [flat_map List.length].
  - unfold count_events. cbn. lia.
  - rewrite count_events_app, IH, Hk. lia.
Qed.

Lemma prefix_of_refl {A : Type} (l : list A) : prefix_of l l.
Proof. exists []. now rewrite app_nil_r. Qed.

Lemma prefix_of_app_l {A : Type} (a b : list A) : prefix_of a (a ++ b).
Proof. now exists b. Qed.

Lemma prefix_of_app {A : Type} (a b c : list A) :
  prefix_of b c -> prefix_of (a ++ b) (a ++ c).
Proof. intros [rest ->]. exists rest. now rewrite app_assoc. Qed.

Lemma prefix_of_trans {A : Type} (a b c : list A) :
  prefix_of a b -> prefix_of b c -> prefix_of a c.
Proof. intros [r ->] [r' ->]. exists (r ++ r'). now rewrite app_assoc. Qed.

Section LoopClaims.

Variables params stats grads optstate : Type.
Variable net : params -> stats -> bool -> tensor 4 -> tensor 4 * stats.
Variable grad_of :
  (tensor 4 -> result loss_value) -> params -> stats -> tensor 4 -> grads.
Variable zero_grads : grads.
Variable add_grads : grads -> grads -> grads.
Variable adam_step : optstate -> params -> grads -> params * optstate.

Let world : Type := world params stats grads optstate.

Variables mv mt log_to_mlflow : bool.
Variables train_loader val_loader : nat -> list batch_data.

Let self : autoencoder := __init__ mv mt.
Let run_batches := train_batches net grad_of zero_grads add_grads adam_step self.
Let run_epochs :=
  epochs net grad_of zero_grads add_grads adam_step self
         train_loader val_loader log_to_mlflow.
Let one_epoch := epoch_trace mv mt log_to_mlflow train_loader val_loader.

(** The inner loop of an epoch returns: every batch takes one training
    step. *)
Lemma train_batches_run :
  forall (batches : list batch_data) (loss : option loss_value) (w : world),
    grad_enabled w = true ->
    exists l w',
      run_batches batches loss w = Return l w'
      /\ calls w' = calls w ++ flat_map (fun _ => batch_trace mt) batches
      /\ grad_enabled w' = true
      /\ (l = None -> batches = [] /\ loss = None).
Proof.
  unfold run_batches.
  induction batches as [|batch rest IH]; intros loss w Hg.
  - exists loss, w. cbn. rewrite app_nil_r. auto.
  - cbn [train_batches]. unfold bind at 1. unfold self.
    rewrite train_on_batch_run by exact Hg.
    set (w1 := trained net grad_of zero_grads add_grads adam_step
                       (__init__ mv mt) batch w).
    destruct (IH (Some (inner_loss_value
                          mt (fst (net (parameters w) (running_stats w) true
                                       (image batch))) batch))
                 w1 Hg) as [l [w' [Hrun [Hc [Hg' Hl]]]]].
    exists l, w'. split; [exact Hrun|]. split.
    + rewrite Hc. unfold w1, trained. cbn [calls flat_map masked_loss_on_train
                                            __init__].
      now rewrite <- app_assoc.
    + split; [exact Hg'|]. intros E. destruct (Hl E) as [_ H]. discriminate.
Qed.

(** The epochs: the calls issued are an initial segment of the calls
    of the complete epochs, and all of them when the loop returns. *)
Lemma epochs_run :
  forall (epoch_range : list nat) (loss : option loss_value)
         (val_metrics : option metrics) (w : world),
    grad_enabled w = true ->
    let o := run_epochs epoch_range loss val_metrics w in
    (exists new,
        calls (final o) = calls w ++ new
        /\ prefix_of new (flat_map one_epoch epoch_range))
    /\ (forall r w',
           o = Return r w' ->
           calls w' = calls w ++ flat_map one_epoch epoch_range).
Proof.
  induction epoch_range as [|epoch rest IH]; intros loss val_metrics w Hg o;
    assert (E : o = run_epochs _ loss val_metrics w) by reflexivity;
    clearbody o; unfold run_epochs in E.
  - cbn in E. subst o. cbn. split.
    + exists []. split; [now rewrite app_nil_r | apply prefix_of_refl].
    + intros r w' H. injection H as _ <-. now rewrite app_nil_r.
  - cbn [epochs flat_map] in *. unfold bind at 1 in E.
    destruct (train_batches_run (train_loader epoch) loss w Hg)
      as [l [w1 [Hrun [Hc1 [Hg1 Hl]]]]].
    unfold run_batches in Hrun. rewrite Hrun in E.
    unfold one_epoch at 1 3. unfold epoch_trace.
    set (steps := flat_map (fun _ => batch_trace mt) (train_loader epoch)) in *.
    unfold bind at 1 in E.
    destruct l as [l|]; cbn [print_loss] in E.
    2:{ cbn [lift throw] in E. subst o. cbn [final]. split.
        - exists steps. split; [exact Hc1|].
          rewrite <- app_assoc. apply prefix_of_app_l.
        - intros r w' H. discriminate. }
    cbn [ret] in E. unfold bind at 1 in E. unfold self in E.
    rewrite evaluate_run in E.
    destruct (score_metrics _ _ _) as [e|m].
    + subst o. cbn [final]. split.
      * exists (steps ++ SetTraining false
                      :: eval_loop_trace mv false false (val_loader epoch)).
        split.
        -- unfold evaluated. cbn [calls]. rewrite Hc1.
           now rewrite <- app_assoc.
        -- rewrite <- app_assoc. apply prefix_of_app.
           unfold eval_trace.
           exists (log_trace log_to_mlflow ++ flat_map one_epoch rest).
           cbn [app]. now rewrite <- app_assoc.
      * intros r w' H. discriminate.
    + set (w2 := logged (log_trace log_to_mlflow)
                        (evaluated net mv (val_loader epoch) w1)) in E.
      assert (Hg2 : grad_enabled w2 = true) by exact Hg1.
      assert (Hc2 : calls w2
                    = calls w ++ steps
                            ++ eval_trace mv log_to_mlflow (val_loader epoch)).
      { unfold w2, logged, evaluated, eval_trace. cbn [calls]. rewrite Hc1.
        rewrite <- !app_assoc. reflexivity. }
      destruct (IH (Some l) (Some m) w2 Hg2) as [[new [Hn Hpre]] Hret].
      fold self in E. unfold run_epochs in Hn, Hret. rewrite <- E in Hn, Hret.
      split.
      * exists ((steps ++ eval_trace mv log_to_mlflow (val_loader epoch))
                  ++ new).
        split.
        -- rewrite Hn, Hc2. now rewrite <- !app_assoc.
        -- now apply prefix_of_app.
      * intros r w' H. rewrite (Hret r w' H), Hc2.
        now rewrite <- !app_assoc.
Qed.

(** C10: with a model built by [__init__], gradients enabled, and
    batches that line up (on every batch of the train and validation
    loaders the forward pass returns an output of the shape of the
    images, and the masks have that shape),
    (1) a training step of the loop runs a forward pass in training
    mode, computes the inner loss ([MaskedMSE] in 'mean' reduction when
    [masked_loss_on_train] is set, [nn.MSELoss()] otherwise), resets
    the gradients, backpropagates and takes one optimizer step, and
    returns that loss; (2) the calls that the epoch loop issues are an
    initial segment of: for each epoch, the training step of every
    batch, then one evaluation pass over the validation loader, whose
    forward passes run in evaluation mode with gradients disabled;
    (3) when the loop returns these are all its calls: one
    backpropagation and one optimizer step per batch and one
    evaluation pass per epoch. *)
Theorem training_loop_steps (num_epochs : nat) (w : world) :
  grad_enabled w = true ->
  (forall (p : params) (s : stats) (mode : bool) (epoch : nat)
          (batch : batch_data),
      In epoch (seq 1 num_epochs) ->
      In batch (train_loader epoch ++ val_loader epoch) ->
      well_shaped (fst (net p s mode (image batch))) batch = true) ->
  let o := run_epochs (seq 1 num_epochs) None None w in
  let full := flat_map one_epoch (seq 1 num_epochs) in
  let batches :=
    list_sum (map (fun epoch => List.length (train_loader epoch))
                  (seq 1 num_epochs)) in
  (forall (batch : batch_data) (w0 : world),
      grad_enabled w0 = true ->
      well_shaped (fst (net (parameters w0) (running_stats w0) true
                            (image batch))) batch = true ->
      train_on_batch net grad_of zero_grads add_grads adam_step self batch w0
      = Return (inner_loss_value
                  mt (fst (net (parameters w0) (running_stats w0) true
                               (image batch))) batch)
               (trained net grad_of zero_grads add_grads adam_step self
                        batch w0))
  /\ (exists new, calls (final o) = calls w ++ new /\ prefix_of new full)
  /\ (forall r w', o = Return r w' -> calls w' = calls w ++ full)
  /\ count_events is_step full = batches
  /\ count_events is_backward full = batches
  /\ count_events is_eval_pass full = num_epochs.
Proof.
  intros Hg Hshapes o full batches.
  destruct (epochs_run (seq 1 num_epochs) None None w Hg) as [Hpre Hret].
  split; [intros batch w0 H0 _; now apply train_on_batch_run|].
  split; [exact Hpre|]. split; [exact Hret|].
  subst full batches. clear.
  generalize 1%nat as start.
  induction num_epochs as [|n IH]; intros start; cbn [seq flat_map map list_sum].
  - repeat split.
  - destruct (IH (S start)) as [H1 [H2 H3]].
    unfold one_epoch at 1 3 5. unfold epoch_trace, eval_trace.
    rewrite !count_events_app, H1, H2, H3.
    rewrite (@count_events_batches is_step mt 1) by reflexivity.
    rewrite (@count_events_batches is_backward mt 1) by reflexivity.
    rewrite (@count_events_batches is_eval_pass mt 0) by reflexivity.
    change (SetTraining false :: ?l) with ([SetTraining false] ++ l).
    rewrite !count_events_app.
    rewrite !count_events_eval_loop by reflexivity.
    assert (Hlog : forall p, (forall n, p (LogMetric n) = false) ->
                             count_events p (log_trace log_to_mlflow) = 0%nat).
    { intros p Hp. unfold log_trace, count_events.
      destruct log_to_mlflow; cbn; now rewrite ?Hp. }
    rewrite !Hlog by reflexivity.
    unfold list_sum. cbn. repeat split; lia.
Qed.

End LoopClaims.

Lemma training_loop_steps_witness :
  grad_enabled Example.w0 = true
  /\ (forall (p s : unit) (mode : bool) (batch : batch_data),
         In batch (Example.train_set ++ Example.separated) ->
         well_shaped (fst (Example.zero_net p s mode (image batch))) batch = true)
  /\ exists r w',
      epochs Example.zero_net Example.no_grad_of tt Example.add_unit
             Example.counting_step (__init__ true true)
             (fun _ => Example.train_set) (fun _ => Example.separated) false
             (seq 1 2) None None Example.w0
      = Return r w'
      /\ calls w'
         = calls Example.w0
                 ++ flat_map (epoch_trace true true false
                                          (fun _ => Example.train_set)
                                          (fun _ => Example.separated))
                             (seq 1 2)
      /\ optimizer w' = 4%nat.
Proof.
  split; [reflexivity|].
  assert (Hshapes : forall (p s : unit) (mode : bool) (batch : batch_data),
             In batch (Example.train_set ++ Example.separated) ->
             well_shaped (fst (Example.zero_net p s mode (image batch))) batch
             = true).
  { intros p s mode batch [<-|[<-|[<-|[]]]]; reflexivity. }
  split; [exact Hshapes|].
  destruct (@training_loop_steps
              unit unit unit nat Example.zero_net Example.no_grad_of tt
              Example.add_unit Example.counting_step true true false
              (fun _ => Example.train_set) (fun _ => Example.separated)
              2 Example.w0 eq_refl
              (fun p s mode _ batch _ Hin => Hshapes p s mode batch Hin))
    as (_ & _ & Hret & _).
  destruct (epochs Example.zero_net Example.no_grad_of tt Example.add_unit
                   Example.counting_step (__init__ true true)
                   (fun _ => Example.train_set) (fun _ => Example.separated)
                   false (seq 1 2) None None Example.w0)
    as [r w'|e w'] eqn:E.
  - exists r, w'. split; [reflexivity|].
    split; [exact (Hret r w' eq_refl)|].
    vm_compute in E. injection E as _ <-. reflexivity.
  - vm_compute in E. discriminate.
Defined.

(* ================================================================== *)
(** * Further properties of the code *)

(** ** [MaskedMSE.forward] *)

Lemma tsum_sqerr_self (n : nat) :
  forall a : tensor n, tsum n (tmap2 sqerr n a a) = 0.
Proof.
  induction n as [|n IH]; simpl.
  - intros a. unfold sqerr. ring.
  - induction a as [|x a IHa]; simpl; [reflexivity|].
    rewrite IH, IHa. ring.
Qed.

Lemma Qc_square_nonneg (x : Qc) : 0 <= x * x.
Proof.
  destruct (Qclt_le_dec x 0) as [H|H].
  - replace (x * x) with ((- x) * (- x)) by ring.
    assert (H' : 0 <= - x).
    { apply Qclt_le_weak in H. apply Qcopp_le_compat in H.
      now replace (- 0) with 0 in H by ring. }
    rewrite <- (Qcmult_0_l (- x)). now apply Qcmult_le_compat_r.
  - rewrite <- (Qcmult_0_l x). now apply Qcmult_le_compat_r.
Qed.

Lemma tsum_sqerr_nonneg (n : nat) :
  forall a b : tensor n, 0 <= tsum n (tmap2 sqerr n a b).
Proof.
  induction n as [|n IH]; simpl.
  - intros a b. apply Qc_square_nonneg.
  - induction a as [|x a IHa]; destruct b as [|y b]; simpl;
      try apply Qcle_refl.
    rewrite <- (Qcplus_0_r 0). apply Qcplus_le_compat; [apply IH | apply IHa].
Qed.

Lemma agree_on_valid_tmul (n : nat) :
  forall m a b : tensor n,
    agree_on_valid n m a b = true -> tmul n a m = tmul n b m.
Proof.
  unfold tmul.
  induction n as [|n IH]; simpl.
  - intros m a b H. apply orb_true_iff in H as [H|H]; apply Qc_eqb_eq in H.
    + subst. ring.
    + now subst.
  - induction m as [|z m IHm]; destruct a as [|x a]; destruct b as [|y b];
      simpl; try discriminate; try reflexivity.
    intros H. apply andb_true_iff in H as [H1 H2].
    now rewrite (IH _ _ _ H1), (IHm _ _ H2).
Qed.

Lemma tsum_tscale (c : Qc) (n : nat) :
  forall m : tensor n, tsum n (tscale c n m) = c * tsum n m.
Proof.
  unfold tscale.
  induction n as [|n IH]; simpl.
  - reflexivity.
  - induction m as [|z m IHm]; simpl; [ring|].
    rewrite IH, IHm. ring.
Qed.

Lemma tsum_sqerr_tscale (c : Qc) (n : nat) :
  forall i t m : tensor n,
    tsum n (tmap2 sqerr n (tmul n i (tscale c n m)) (tmul n t (tscale c n m)))
    = c * c * tsum n (tmap2 sqerr n (tmul n i m) (tmul n t m)).
Proof.
  unfold tscale, tmul.
  induction n as [|n IH]; simpl.
  - intros i t m. unfold sqerr. ring.
  - induction i as [|x i IHi]; destruct t as [|y t]; destruct m as [|z m];
      simpl; try ring.
    rewrite IH, IHi. ring.
Qed.

(** X1: for input, target and mask of equal shape, the loss in 'mean'
    reduction is not a weighted mean of the squared errors: the mask
    enters the numerator squared, so that the value is the sum of the
    squared errors times the square of the mask over the sum of the
    mask, and multiplying the mask by a factor [c] multiplies the loss
    by [c]. *)
Theorem masked_mse_mean_scales_with_mask (c : Qc) (input target mask : tensor 4) :
  same_shape 4 input target = true ->
  same_shape 4 input mask = true ->
  c <> 0 ->
  tsum 4 mask <> 0 ->
  exists v : Qc,
    MaskedMSE.forward MaskedMSE.default input target mask = ZeroDim (Fin v)
    /\ v = tsum 4 (tmul 4 (MSELoss.none 4 input target) (tmul 4 mask mask))
           / tsum 4 mask
    /\ MaskedMSE.forward MaskedMSE.default input target (tscale c 4 mask)
       = ZeroDim (Fin (c * v)).
Proof.
  intros _ _ Hc Hm.
  eexists. split; [|split; [reflexivity|]].
  - rewrite masked_mse_mean_any_mask. now rewrite np_div_nonzero.
  - rewrite forward_mean. unfold MaskedMSE.criterion, MSELoss.none.
    rewrite tsum_sqerr_tscale, tsum_tscale, <- masked_sqerr_square.
    rewrite np_div_nonzero.
    + do 2 f_equal. now field.
    + intro H. apply Qcmult_integral in H. tauto.
Qed.

Lemma masked_mse_mean_scales_with_mask_witness :
  same_shape 4 ex_input ex_target = true
  /\ same_shape 4 ex_input ex_mask = true
  /\ exists v : Qc,
    MaskedMSE.forward MaskedMSE.default ex_input ex_target ex_mask
    = ZeroDim (Fin v)
    /\ MaskedMSE.forward MaskedMSE.default ex_input ex_target
                         (tscale (qfrac 1 2) 4 ex_mask)
       = ZeroDim (Fin (qfrac 1 2 * v)).
Proof.
  assert (Hc : qfrac 1 2 <> 0).
  { intro E. apply (f_equal this) in E. vm_compute in E. discriminate. }
  assert (Hm : tsum 4 ex_mask <> 0).
  { intro E. apply (f_equal this) in E. vm_compute in E. discriminate. }
  split; [reflexivity|]. split; [reflexivity|].
  destruct (@masked_mse_mean_scales_with_mask (qfrac 1 2) ex_input ex_target
                                              ex_mask eq_refl eq_refl Hc Hm)
    as [v [H1 [_ H2]]].
  exists v. split; assumption.
Defined.

(** X2: only the string 'mean' reduces.  With any other [reduction],
    'sum' included, [forward] returns the unreduced tensor of squared
    errors of the masked input against the masked target, of the shape
    of the input. *)
Theorem masked_mse_other_reductions_do_not_reduce
        (reduction : string) (input target mask : tensor 4) :
  reduction <> "mean"%string ->
  same_shape 4 input target = true ->
  same_shape 4 input mask = true ->
  MaskedMSE.forward (MaskedMSE.__init__ reduction) input target mask
  = Elementwise (MSELoss.none 4 (tmul 4 input mask) (tmul 4 target mask))
  /\ same_shape 4 (MSELoss.none 4 (tmul 4 input mask) (tmul 4 target mask)) input
     = true.
Proof.
  intros Hr Ht Hm. split.
  - unfold MaskedMSE.forward. cbn [MaskedMSE.reduction MaskedMSE.__init__].
    destruct (String.eqb reduction "mean") eqn:E; [|reflexivity].
    apply String.eqb_eq in E. contradiction.
  - unfold MSELoss.none, tmul.
    eapply same_shape_trans; [apply tmap2_same_shape|].
    + eapply same_shape_trans; [apply tmap2_same_shape; exact Hm|].
      eapply same_shape_trans; [exact Ht|].
      apply same_shape_sym, tmap2_same_shape.
      eapply same_shape_trans; [apply same_shape_sym; exact Ht | exact Hm].
    + apply tmap2_same_shape; exact Hm.
Qed.

Lemma masked_mse_other_reductions_do_not_reduce_witness :
  MaskedMSE.forward (MaskedMSE.__init__ "sum") ex_input ex_target ex_mask
  = Elementwise (MSELoss.none 4 (tmul 4 ex_input ex_mask) (tmul 4 ex_target ex_mask)).
Proof.
  apply (@masked_mse_other_reductions_do_not_reduce
           "sum" ex_input ex_target ex_mask);
    [discriminate | reflexivity | reflexivity].
Defined.

(** X3: what lies under a zero of the mask does not count.  Two inputs
    and two targets that agree wherever the mask is not zero give the
    same loss, in either reduction. *)
Theorem masked_mse_ignores_masked_pixels
        (self : MaskedMSE.t) (input input' target target' mask : tensor 4) :
  agree_on_valid 4 mask input input' = true ->
  agree_on_valid 4 mask target target' = true ->
  MaskedMSE.forward self input target mask
  = MaskedMSE.forward self input' target' mask.
Proof.
  intros Hi Ht. unfold MaskedMSE.forward.
  now rewrite (agree_on_valid_tmul _ _ _ _ Hi), (agree_on_valid_tmul _ _ _ _ Ht).
Qed.

Lemma masked_mse_ignores_masked_pixels_witness :
  agree_on_valid 4 ex_padded_mask ex_padded_a ex_padded_b = true
  /\ ex_padded_a <> ex_padded_b
  /\ MaskedMSE.forward MaskedMSE.default ex_padded_a ex_padded_a ex_padded_mask
     = MaskedMSE.forward MaskedMSE.default ex_padded_b ex_padded_a ex_padded_mask.
Proof.
  split; [reflexivity|]. split.
  - intro H. apply (f_equal (flatten 4)) in H.
    apply (f_equal (fun l => map this l)) in H. vm_compute in H. discriminate.
  - apply (@masked_mse_ignores_masked_pixels
             MaskedMSE.default ex_padded_a ex_padded_b ex_padded_a ex_padded_a
             ex_padded_mask); reflexivity.
Defined.

(** X4: a perfect reconstruction has loss zero, whatever the mask, as
    long as the mask does not sum to zero. *)
Theorem masked_mse_zero_on_equal_tensors (input mask : tensor 4) :
  same_shape 4 input mask = true ->
  tsum 4 mask <> 0 ->
  MaskedMSE.forward MaskedMSE.default input input mask = ZeroDim (Fin 0).
Proof.
  intros _ Hm. rewrite forward_mean.
  unfold MaskedMSE.criterion, MSELoss.none.
  rewrite tsum_sqerr_self, np_div_nonzero by exact Hm.
  do 2 f_equal. unfold Qcdiv. ring.
Qed.

Lemma masked_mse_zero_on_equal_tensors_witness :
  tsum 4 ex_mask <> 0
  /\ MaskedMSE.forward MaskedMSE.default ex_input ex_input ex_mask
     = ZeroDim (Fin 0).
Proof.
  assert (H : tsum 4 ex_mask <> 0).
  { intro E. apply (f_equal this) in E. vm_compute in E. discriminate. }
  split; [exact H|].
  apply (@masked_mse_zero_on_equal_tensors ex_input ex_mask eq_refl H).
Defined.

(** ** Shapes through the default layer stacks *)

Section ShapeSteps.

Lemma conv_out_3_1_1 (n : Z) : conv_out n 3 1 1 = n.
Proof. unfold conv_out. rewrite Z.div_1_r. lia. Qed.

Lemma conv_out_4_2_1 (n : Z) : conv_out n 4 2 1 = (n / 2)%Z.
Proof.
unfold conv_out.
replace (n + 2 * 1 - 4)%Z with (n + (-1) * 2)%Z by lia.
rewrite Z.div_add by lia. lia.
Qed.

Lemma seq_conv3 (cin cout h w : Z) (b : bool) (rest : list layer) :
(1 <= h)%Z -> (1 <= w)%Z ->
sequential_shape (Conv2d cin cout 3 1 1 b :: rest) (cin, h, w)
= sequential_shape rest (cout, h, w).
Proof.
intros Hh Hw. cbn [sequential_shape layer_shape].
rewrite Z.eqb_refl. cbn [andb].
replace (3 <=? h + 2 * 1)%Z with true by (symmetry; apply Z.leb_le; lia).
replace (3 <=? w + 2 * 1)%Z with true by (symmetry; apply Z.leb_le; lia).
cbn [andb Z.ltb Z.compare rbind ok]. now rewrite !conv_out_3_1_1.
Qed.

Lemma seq_conv4 (cin cout h w : Z) (b : bool) (rest : list layer) :
(2 <= h)%Z -> (2 <= w)%Z ->
sequential_shape (Conv2d cin cout 4 2 1 b :: rest) (cin, h, w)
= sequential_shape rest (cout, h / 2, w / 2)%Z.
Proof.
intros Hh Hw. cbn [sequential_shape layer_shape].
rewrite Z.eqb_refl. cbn [andb].
replace (4 <=? h + 2 * 1)%Z with true by (symmetry; apply Z.leb_le; lia).
replace (4 <=? w + 2 * 1)%Z with true by (symmetry; apply Z.leb_le; lia).
cbn [andb Z.ltb Z.compare rbind ok]. now rewrite !conv_out_4_2_1.
Qed.

Lemma seq_bn (c h w : Z) (rest : list layer) :
sequential_shape (BatchNorm2d c :: rest) (c, h, w)
= sequential_shape rest (c, h, w).
Proof. cbn [sequential_shape layer_shape]. now rewrite Z.eqb_refl. Qed.

Lemma seq_act (a : activation) (x : shape) (rest : list layer) :
sequential_shape (Act a :: rest) x = sequential_shape rest x.
Proof. destruct x as [[c h] w]. reflexivity. Qed.

Lemma seq_up4 (cin cout h w : Z) (b : bool) (rest : list layer) :
(1 <= h)%Z -> (1 <= w)%Z ->
sequential_shape (ConvTranspose2d cin cout 4 2 1 b :: rest) (cin, h, w)
= sequential_shape rest (cout, 2 * h, 2 * w)%Z.
Proof.
intros Hh Hw. cbn [sequential_shape layer_shape].
rewrite Z.eqb_refl. cbn [andb]. unfold conv_transpose_out.
replace (0 <? (h - 1) * 2 - 2 * 1 + 4)%Z with true
  by (symmetry; apply Z.ltb_lt; lia).
replace (0 <? (w - 1) * 2 - 2 * 1 + 4)%Z with true
  by (symmetry; apply Z.ltb_lt; lia).
cbn [andb rbind ok]. do 2 f_equal; [f_equal|]; lia.
Qed.

Lemma seq_up3 (cin cout h w : Z) (b : bool) (rest : list layer) :
(1 <= h)%Z -> (1 <= w)%Z ->
sequential_shape (ConvTranspose2d cin cout 3 1 1 b :: rest) (cin, h, w)
= sequential_shape rest (cout, h, w).
Proof.
intros Hh Hw. cbn [sequential_shape layer_shape].
rewrite Z.eqb_refl. cbn [andb]. unfold conv_transpose_out.
replace (0 <? (h - 1) * 1 - 2 * 1 + 3)%Z with true
  by (symmetry; apply Z.ltb_lt; lia).
replace (0 <? (w - 1) * 1 - 2 * 1 + 3)%Z with true
  by (symmetry; apply Z.ltb_lt; lia).
cbn [andb rbind ok]. do 2 f_equal; [f_equal|]; lia.
Qed.

End ShapeSteps.

Lemma baseline_default_encoder :
  BaselineLayers.encoder_layers BaselineLayers.defaults
  = ok [Conv2d 1 16 3 1 1 false; BatchNorm2d 16; Act ReLU;
        Conv2d 16 32 4 2 1 false; BatchNorm2d 32; Act ReLU;
        Conv2d 32 32 3 1 1 false; BatchNorm2d 32; Act ReLU;
        Conv2d 32 64 4 2 1 false; BatchNorm2d 64; Act ReLU;
        Conv2d 64 64 3 1 1 false; BatchNorm2d 64; Act ReLU;
        Conv2d 64 128 4 2 1 false; BatchNorm2d 128; Act ReLU;
        Conv2d 128 128 3 1 1 false; BatchNorm2d 128; Act ReLU;
        Conv2d 128 256 4 2 1 false; BatchNorm2d 256; Act ReLU;
        Conv2d 256 256 3 1 1 false; BatchNorm2d 256; Act ReLU;
        Conv2d 256 512 4 2 1 false; BatchNorm2d 512; Act ReLU]%Z.
Proof. vm_compute. reflexivity. Qed.

Lemma baseline_default_decoder :
  BaselineLayers.decoder_layers BaselineLayers.defaults
  = ok [ConvTranspose2d 512 256 4 2 1 false; BatchNorm2d 256; Act ReLU;
        ConvTranspose2d 256 128 4 2 1 false; BatchNorm2d 128; Act ReLU;
        ConvTranspose2d 128 64 4 2 1 false; BatchNorm2d 64; Act ReLU;
        ConvTranspose2d 64 32 4 2 1 false; BatchNorm2d 32; Act ReLU;
        ConvTranspose2d 32 16 4 2 1 false; BatchNorm2d 16; Act ReLU;
        ConvTranspose2d 16 1 3 1 1 false; Act ReLU; Act Tanh]%Z.
Proof. vm_compute. reflexivity. Qed.

(** X6: the default baseline stacks halve each side five times, rounding
    down, and double it five times.  An input of at least 32 pixels a
    side comes out with each side cut down to the multiple of 32 below
    it, so the output has the size of the input exactly when both sides
    are multiples of 32. *)
Theorem baseline_output_size (h w : Z) :
  (32 <= h)%Z -> (32 <= w)%Z ->
  BaselineLayers.forward_shape BaselineLayers.defaults (1, h, w)%Z
  = ok (1, 32 * (h / 32), 32 * (w / 32))%Z
  /\ ((1, 32 * (h / 32), 32 * (w / 32))%Z = (1, h, w)%Z
      <-> (h mod 32 = 0 /\ w mod 32 = 0)%Z).
Proof.
  intros Hh Hw. split.
  - unfold BaselineLayers.forward_shape.
    rewrite baseline_default_encoder, baseline_default_decoder.
    cbn [rbind ok].
    rewrite seq_conv3, seq_bn, seq_act, seq_conv4, seq_bn, seq_act by (Z.div_mod_to_equations; lia).
    rewrite seq_conv3, seq_bn, seq_act, seq_conv4, seq_bn, seq_act by (Z.div_mod_to_equations; lia).
    rewrite seq_conv3, seq_bn, seq_act, seq_conv4, seq_bn, seq_act by (Z.div_mod_to_equations; lia).
    rewrite seq_conv3, seq_bn, seq_act, seq_conv4, seq_bn, seq_act by (Z.div_mod_to_equations; lia).
    rewrite seq_conv3, seq_bn, seq_act, seq_conv4, seq_bn, seq_act by (Z.div_mod_to_equations; lia).
    match goal with
    | |- context [sequential_shape [] ?x] =>
        change (sequential_shape [] x) with (ok x)
    end.
    cbn [rbind ok].
    rewrite seq_up4, seq_bn, seq_act by (Z.div_mod_to_equations; lia).
    rewrite seq_up4, seq_bn, seq_act by (Z.div_mod_to_equations; lia).
    rewrite seq_up4, seq_bn, seq_act by (Z.div_mod_to_equations; lia).
    rewrite seq_up4, seq_bn, seq_act by (Z.div_mod_to_equations; lia).
    rewrite seq_up4, seq_bn, seq_act by (Z.div_mod_to_equations; lia).
    rewrite seq_up3, seq_act, seq_act by (Z.div_mod_to_equations; lia).
    cbn [sequential_shape]. do 2 f_equal; [f_equal|]; Z.div_mod_to_equations; lia.
  - split.
    + intros H.
      pose proof (f_equal (fun x : shape => snd (fst x)) H) as H1.
      pose proof (f_equal (fun x : shape => snd x) H) as H2.
      cbn [fst snd] in H1, H2.
      rewrite (Z.mod_eq h 32), (Z.mod_eq w 32) by lia. lia.
    + intros [H1 H2]. rewrite Z.mod_eq in H1, H2 by lia.
      do 2 f_equal; lia.
Qed.

Lemma baseline_output_size_witness :
  BaselineLayers.forward_shape BaselineLayers.defaults (1, 500, 700)%Z
  = ok (1, 480, 672)%Z.
Proof.
  exact (proj1 (@baseline_output_size 500 700 ltac:(lia) ltac:(lia))).
Defined.

Lemma bottleneck_default_encoder :
  BottleneckLayers.encoder_layers BottleneckLayers.defaults
  = ok [Conv2d 1 16 3 1 1 false; MaxPool2d 2 2 true; BatchNorm2d 16; Act ReLU;
        Conv2d 16 32 4 2 1 false; MaxPool2d 2 2 true; BatchNorm2d 32; Act ReLU;
        Conv2d 32 64 4 2 1 false; MaxPool2d 2 2 true; BatchNorm2d 64; Act ReLU;
        Conv2d 64 128 4 2 1 false; MaxPool2d 2 2 true; BatchNorm2d 128; Act ReLU;
        Conv2d 128 256 4 2 1 false; MaxPool2d 2 2 true; BatchNorm2d 256; Act ReLU;
        Conv2d 256 256 1 1 1 false; BatchNorm2d 256; Act ReLU]%Z.
Proof. vm_compute. reflexivity. Qed.

Lemma bottleneck_default_decoder :
  BottleneckLayers.decoder_layers BottleneckLayers.defaults
  = ok [ConvTranspose2d 256 256 1 1 1 false; MaxUnpool2d 2 2; BatchNorm2d 256;
        Act ReLU;
        ConvTranspose2d 256 128 4 2 1 false; MaxUnpool2d 2 2; BatchNorm2d 128;
        Act ReLU;
        ConvTranspose2d 128 64 4 2 1 false; MaxUnpool2d 2 2; BatchNorm2d 64;
        Act ReLU;
        ConvTranspose2d 64 32 4 2 1 false; MaxUnpool2d 2 2; BatchNorm2d 32;
        Act ReLU;
        ConvTranspose2d 32 16 4 2 1 false; MaxUnpool2d 2 2; BatchNorm2d 16;
        Act ReLU;
        ConvTranspose2d 16 1 3 1 1 false; Act Sigmoid]%Z.
Proof. vm_compute. reflexivity. Qed.

Section BottleneckSteps.

Import BottleneckLayers.

Lemma enc_conv3 (cin cout h w : Z) (b : bool) (rest : list layer)
    (ind : list shape) :
(1 <= h)%Z -> (1 <= w)%Z ->
encode_shape (Conv2d cin cout 3 1 1 b :: rest) (cin, h, w) ind
= encode_shape rest (cout, h, w) ind.
Proof.
intros Hh Hw. cbn [encode_shape layer_shape].
rewrite Z.eqb_refl. cbn [andb].
replace (3 <=? h + 2 * 1)%Z with true by (symmetry; apply Z.leb_le; lia).
replace (3 <=? w + 2 * 1)%Z with true by (symmetry; apply Z.leb_le; lia).
cbn [andb Z.ltb Z.compare rbind ok]. now rewrite !conv_out_3_1_1.
Qed.

Lemma enc_conv4 (cin cout h w : Z) (b : bool) (rest : list layer)
    (ind : list shape) :
(1 <= h)%Z -> (1 <= w)%Z ->
encode_shape (Conv2d cin cout 4 2 1 b :: rest) (cin, 2 * h, 2 * w)%Z ind
= encode_shape rest (cout, h, w) ind.
Proof.
intros Hh Hw. cbn [encode_shape layer_shape].
rewrite Z.eqb_refl. cbn [andb].
replace (4 <=? 2 * h + 2 * 1)%Z with true by (symmetry; apply Z.leb_le; lia).
replace (4 <=? 2 * w + 2 * 1)%Z with true by (symmetry; apply Z.leb_le; lia).
cbn [andb Z.ltb Z.compare rbind ok]. rewrite !conv_out_4_2_1.
replace (2 * h / 2)%Z with h by (Z.div_mod_to_equations; lia).
replace (2 * w / 2)%Z with w by (Z.div_mod_to_equations; lia).
reflexivity.
Qed.

Lemma enc_conv1 (cin cout h w : Z) (b : bool) (rest : list layer)
    (ind : list shape) :
(1 <= h)%Z -> (1 <= w)%Z ->
encode_shape (Conv2d cin cout 1 1 1 b :: rest) (cin, h, w) ind
= encode_shape rest (cout, h + 2, w + 2)%Z ind.
Proof.
intros Hh Hw. cbn [encode_shape layer_shape].
rewrite Z.eqb_refl. cbn [andb].
replace (1 <=? h + 2 * 1)%Z with true by (symmetry; apply Z.leb_le; lia).
replace (1 <=? w + 2 * 1)%Z with true by (symmetry; apply Z.leb_le; lia).
cbn [andb Z.ltb Z.compare rbind ok]. unfold conv_out. rewrite !Z.div_1_r.
replace (h + 2 * 1 - 1 + 1)%Z with (h + 2)%Z by lia.
replace (w + 2 * 1 - 1 + 1)%Z with (w + 2)%Z by lia.
reflexivity.
Qed.

Lemma enc_pool (c h w : Z) (rest : list layer) (ind : list shape) :
(1 <= h)%Z -> (1 <= w)%Z ->
encode_shape (MaxPool2d 2 2 true :: rest) (c, 2 * h, 2 * w)%Z ind
= encode_shape rest (c, h, w) (ind ++ [(c, h, w)]).
Proof.
intros Hh Hw. cbn [encode_shape layer_shape].
replace (2 <=? 2 * h)%Z with true by (symmetry; apply Z.leb_le; lia).
replace (2 <=? 2 * w)%Z with true by (symmetry; apply Z.leb_le; lia).
cbn [andb Z.ltb Z.compare rbind ok]. unfold pool_out.
replace ((2 * h - 2) / 2 + 1)%Z with h by (Z.div_mod_to_equations; lia).
replace ((2 * w - 2) / 2 + 1)%Z with w by (Z.div_mod_to_equations; lia).
reflexivity.
Qed.

Lemma enc_bn (c h w : Z) (rest : list layer) (ind : list shape) :
encode_shape (BatchNorm2d c :: rest) (c, h, w) ind
= encode_shape rest (c, h, w) ind.
Proof. cbn [encode_shape layer_shape]. now rewrite Z.eqb_refl. Qed.

Lemma enc_act (a : activation) (x : shape) (rest : list layer) (ind : list shape) :
encode_shape (Act a :: rest) x ind = encode_shape rest x ind.
Proof. destruct x as [[c h] w]. reflexivity. Qed.

Lemma dec_up1 (cin cout h w : Z) (b : bool) (rest : list layer)
    (ind : list shape) :
(1 <= h)%Z -> (1 <= w)%Z ->
decode_shape (ConvTranspose2d cin cout 1 1 1 b :: rest)
             (cin, h + 2, w + 2)%Z ind
= decode_shape rest (cout, h, w) ind.
Proof.
intros Hh Hw. cbn [decode_shape layer_shape].
rewrite Z.eqb_refl. cbn [andb]. unfold conv_transpose_out.
replace ((h + 2 - 1) * 1 - 2 * 1 + 1)%Z with h by lia.
replace ((w + 2 - 1) * 1 - 2 * 1 + 1)%Z with w by lia.
replace (0 <? h)%Z with true by (symmetry; apply Z.ltb_lt; lia).
replace (0 <? w)%Z with true by (symmetry; apply Z.ltb_lt; lia).
reflexivity.
Qed.

Lemma dec_up4 (cin cout h w : Z) (b : bool) (rest : list layer)
    (ind : list shape) :
(1 <= h)%Z -> (1 <= w)%Z ->
decode_shape (ConvTranspose2d cin cout 4 2 1 b :: rest) (cin, h, w) ind
= decode_shape rest (cout, 2 * h, 2 * w)%Z ind.
Proof.
intros Hh Hw. cbn [decode_shape layer_shape].
rewrite Z.eqb_refl. cbn [andb]. unfold conv_transpose_out.
replace ((h - 1) * 2 - 2 * 1 + 4)%Z with (2 * h)%Z by lia.
replace ((w - 1) * 2 - 2 * 1 + 4)%Z with (2 * w)%Z by lia.
replace (0 <? 2 * h)%Z with true by (symmetry; apply Z.ltb_lt; lia).
replace (0 <? 2 * w)%Z with true by (symmetry; apply Z.ltb_lt; lia).
reflexivity.
Qed.

Lemma dec_up3 (cin cout h w : Z) (b : bool) (rest : list layer)
    (ind : list shape) :
(1 <= h)%Z -> (1 <= w)%Z ->
decode_shape (ConvTranspose2d cin cout 3 1 1 b :: rest) (cin, h, w) ind
= decode_shape rest (cout, h, w) ind.
Proof.
intros Hh Hw. cbn [decode_shape layer_shape].
rewrite Z.eqb_refl. cbn [andb]. unfold conv_transpose_out.
replace ((h - 1) * 1 - 2 * 1 + 3)%Z with h by lia.
replace ((w - 1) * 1 - 2 * 1 + 3)%Z with w by lia.
replace (0 <? h)%Z with true by (symmetry; apply Z.ltb_lt; lia).
replace (0 <? w)%Z with true by (symmetry; apply Z.ltb_lt; lia).
reflexivity.
Qed.

Lemma dec_unpool (c h w : Z) (rest : list layer) (ind : list shape) :
decode_shape (MaxUnpool2d 2 2 :: rest) (c, h, w) (ind ++ [(c, h, w)])
= decode_shape rest (c, 2 * h, 2 * w)%Z ind.
Proof.
cbn [decode_shape]. rewrite rev_app_distr. cbn [rev app].
unfold shape_eqb. rewrite !Z.eqb_refl. cbn [andb layer_shape rbind ok].
rewrite rev_involutive. unfold unpool_out.
replace ((h - 1) * 2 + 2)%Z with (2 * h)%Z by lia.
replace ((w - 1) * 2 + 2)%Z with (2 * w)%Z by lia.
reflexivity.
Qed.

Lemma dec_bn (c h w : Z) (rest : list layer) (ind : list shape) :
decode_shape (BatchNorm2d c :: rest) (c, h, w) ind
= decode_shape rest (c, h, w) ind.
Proof. cbn [decode_shape layer_shape]. now rewrite Z.eqb_refl. Qed.

Lemma dec_act (a : activation) (x : shape) (rest : list layer) (ind : list shape) :
decode_shape (Act a :: rest) x ind = decode_shape rest x ind.
Proof. destruct x as [[c h] w]. reflexivity. Qed.

End BottleneckSteps.

(** X7: the default bottleneck stacks halve each side nine times (five
    pooling layers, four strided convolutions): an input whose sides are
    positive multiples of 512 reaches a code of [a + 2] by [b + 2]
    pixels, every unpooling layer meets pooling indices of the shape of
    its input, and the output has the size of the input. *)
Theorem bottleneck_restores_multiples_of_512 (a b : Z) :
  (1 <= a)%Z -> (1 <= b)%Z ->
  (exists enc maxpool_ind,
      BottleneckLayers.encoder_layers BottleneckLayers.defaults = ok enc
      /\ BottleneckLayers.encode_shape enc (1, 512 * a, 512 * b)%Z []
         = ok ((256, a + 2, b + 2)%Z, maxpool_ind)
      /\ List.length maxpool_ind = 5%nat)
  /\ BottleneckLayers.forward_shape BottleneckLayers.defaults
                                    (1, 512 * a, 512 * b)%Z
     = ok (1, 512 * a, 512 * b)%Z.
Proof.
  intros Ha Hb.
  assert (Henc :
            BottleneckLayers.encode_shape
              [Conv2d 1 16 3 1 1 false; MaxPool2d 2 2 true; BatchNorm2d 16; Act ReLU;
               Conv2d 16 32 4 2 1 false; MaxPool2d 2 2 true; BatchNorm2d 32; Act ReLU;
               Conv2d 32 64 4 2 1 false; MaxPool2d 2 2 true; BatchNorm2d 64; Act ReLU;
               Conv2d 64 128 4 2 1 false; MaxPool2d 2 2 true; BatchNorm2d 128;
               Act ReLU;
               Conv2d 128 256 4 2 1 false; MaxPool2d 2 2 true; BatchNorm2d 256;
               Act ReLU;
               Conv2d 256 256 1 1 1 false; BatchNorm2d 256; Act ReLU]%Z
              (1, 512 * a, 512 * b)%Z []
            = ok ((256, a + 2, b + 2)%Z,
                  [(16, 256 * a, 256 * b); (32, 64 * a, 64 * b);
                   (64, 16 * a, 16 * b); (128, 4 * a, 4 * b);
                   (256, a, b)]%Z)).
  { rewrite enc_conv3 by lia.
    replace (512 * a)%Z with (2 * (256 * a))%Z by lia.
    replace (512 * b)%Z with (2 * (256 * b))%Z by lia.
    rewrite enc_pool, enc_bn, enc_act by lia.
    replace (256 * a)%Z with (2 * (2 * (64 * a)))%Z at 1 by lia.
    replace (256 * b)%Z with (2 * (2 * (64 * b)))%Z at 1 by lia.
    rewrite enc_conv4, enc_pool, enc_bn, enc_act by lia.
    replace (64 * a)%Z with (2 * (2 * (16 * a)))%Z at 1 by lia.
    replace (64 * b)%Z with (2 * (2 * (16 * b)))%Z at 1 by lia.
    rewrite enc_conv4, enc_pool, enc_bn, enc_act by lia.
    replace (16 * a)%Z with (2 * (2 * (4 * a)))%Z at 1 by lia.
    replace (16 * b)%Z with (2 * (2 * (4 * b)))%Z at 1 by lia.
    rewrite enc_conv4, enc_pool, enc_bn, enc_act by lia.
    replace (4 * a)%Z with (2 * (2 * a))%Z at 1 by lia.
    replace (4 * b)%Z with (2 * (2 * b))%Z at 1 by lia.
    rewrite enc_conv4, enc_pool, enc_bn, enc_act by lia.
    rewrite enc_conv1, enc_bn, enc_act by lia.
    cbn [BottleneckLayers.encode_shape app]. reflexivity. }
  split.
  - eexists. eexists. split; [apply bottleneck_default_encoder|].
    split; [exact Henc | reflexivity].
  - unfold BottleneckLayers.forward_shape.
    rewrite bottleneck_default_encoder, bottleneck_default_decoder.
    cbn [rbind ok]. rewrite Henc. cbn [rbind ok].
    rewrite dec_up1 by lia.
    change [(16, 256 * a, 256 * b); (32, 64 * a, 64 * b);
            (64, 16 * a, 16 * b); (128, 4 * a, 4 * b); (256, a, b)]%Z
      with ([(16, 256 * a, 256 * b); (32, 64 * a, 64 * b);
             (64, 16 * a, 16 * b); (128, 4 * a, 4 * b)]%Z ++ [(256, a, b)%Z]).
    rewrite dec_unpool, dec_bn, dec_act.
    rewrite dec_up4 by lia.
    replace (2 * (2 * a))%Z with (4 * a)%Z by lia.
    replace (2 * (2 * b))%Z with (4 * b)%Z by lia.
    change [(16, 256 * a, 256 * b); (32, 64 * a, 64 * b);
            (64, 16 * a, 16 * b); (128, 4 * a, 4 * b)]%Z
      with ([(16, 256 * a, 256 * b); (32, 64 * a, 64 * b);
             (64, 16 * a, 16 * b)]%Z ++ [(128, 4 * a, 4 * b)%Z]).
    rewrite dec_unpool, dec_bn, dec_act.
    rewrite dec_up4 by lia.
    replace (2 * (2 * (4 * a)))%Z with (16 * a)%Z by lia.
    replace (2 * (2 * (4 * b)))%Z with (16 * b)%Z by lia.
    change [(16, 256 * a, 256 * b); (32, 64 * a, 64 * b); (64, 16 * a, 16 * b)]%Z
      with ([(16, 256 * a, 256 * b); (32, 64 * a, 64 * b)]%Z
              ++ [(64, 16 * a, 16 * b)%Z]).
    rewrite dec_unpool, dec_bn, dec_act.
    rewrite dec_up4 by lia.
    replace (2 * (2 * (16 * a)))%Z with (64 * a)%Z by lia.
    replace (2 * (2 * (16 * b)))%Z with (64 * b)%Z by lia.
    change [(16, 256 * a, 256 * b); (32, 64 * a, 64 * b)]%Z
      with ([(16, 256 * a, 256 * b)]%Z ++ [(32, 64 * a, 64 * b)%Z]).
    rewrite dec_unpool, dec_bn, dec_act.
    rewrite dec_up4 by lia.
    replace (2 * (2 * (64 * a)))%Z with (256 * a)%Z by lia.
    replace (2 * (2 * (64 * b)))%Z with (256 * b)%Z by lia.
    change [(16, 256 * a, 256 * b)]%Z with ([] ++ [(16, 256 * a, 256 * b)%Z]).
    rewrite dec_unpool, dec_bn, dec_act.
    rewrite dec_up3, dec_act by lia.
    cbn [BottleneckLayers.decode_shape].
    replace (2 * (256 * a))%Z with (512 * a)%Z by lia.
    replace (2 * (256 * b))%Z with (512 * b)%Z by lia.
    reflexivity.
Qed.

Lemma bottleneck_restores_multiples_of_512_witness :
  BottleneckLayers.forward_shape BottleneckLayers.defaults (1, 1024, 1536)%Z
  = ok (1, 1024, 1536)%Z.
Proof.
  exact (proj2 (@bottleneck_restores_multiples_of_512 2 3 ltac:(lia) ltac:(lia))).
Defined.

(** ** The layer lists built by [__init__] *)

Lemma append_each_ok (body : nat -> result (list layer)) (k : nat) :
  forall idx : list nat,
    (forall i, In i idx -> exists l, body i = ok l /\ List.length l = k) ->
    exists ls, append_each body idx = ok ls
               /\ List.length ls = (k * List.length idx)%nat.
Proof.
  induction idx as [|i idx IH]; intros H; cbn [append_each].
  - exists []. split; [reflexivity | cbn; lia].
  - destruct (H i (or_introl eq_refl)) as [l [Hl Hk]].
    destruct (IH (fun j Hj => H j (or_intror Hj))) as [ls [Hls Hlen]].
    rewrite Hl, Hls. cbn [rbind ok].
    exists (l ++ ls). split; [reflexivity|].
    rewrite length_app, Hk, Hlen. cbn [List.length]. lia.
Qed.

Lemma append_each_raises (body : nat -> result (list layer)) (e : exn) :
  forall idx : list nat,
    (forall i, In i idx -> body i = throw e \/ exists l, body i = ok l) ->
    (exists i, In i idx /\ body i = throw e) ->
    append_each body idx = throw e.
Proof.
  induction idx as [|i idx IH]; intros Hall [j [Hj He]]; [inversion Hj|].
  cbn [append_each].
  destruct (Hall i (or_introl eq_refl)) as [Hi|[l Hi]]; rewrite Hi;
    [reflexivity|].
  cbn [rbind ok].
  destruct Hj as [->|Hj]; [rewrite Hi in He; discriminate|].
  rewrite (IH (fun k Hk => Hall k (or_intror Hk)) (ex_intro _ j (conj Hj He))).
  reflexivity.
Qed.

Lemma getitem_ok_or_IndexError {A : Type} (l : list A) (i : nat) :
  (exists x, np.getitem l i = ok x /\ (i < List.length l)%nat)
  \/ (np.getitem l i = throw IndexError /\ (List.length l <= i)%nat).
Proof.
  unfold np.getitem. destruct (nth_error l i) as [x|] eqn:E.
  - left. exists x. split; [reflexivity|].
    apply nth_error_Some. congruence.
  - right. split; [reflexivity|]. now apply nth_error_None.
Qed.

(** X8: the encoder loop of the baseline model runs over the indices of
    [encoder_in_chanels] and reads the other three lists at each index.
    When each of them has at least as many entries it builds three
    layers per entry with batch normalisation and two without, and
    entries beyond that length are not read; when one of them is
    shorter the construction raises IndexError. *)
Theorem baseline_encoder_layers_by_list_lengths (c : BaselineLayers.config) :
  let n := List.length (BaselineLayers.encoder_in_chanels c) in
  let shortest :=
    Nat.min (List.length (BaselineLayers.encoder_out_chanels c))
            (Nat.min (List.length (BaselineLayers.encoder_kernel_sizes c))
                     (List.length (BaselineLayers.encoder_strides c))) in
  ((n <= shortest)%nat ->
   exists layers,
     BaselineLayers.encoder_layers c = ok layers
     /\ List.length layers
        = ((if BaselineLayers.use_batchnorm c then 3 else 2) * n)%nat)
  /\ ((shortest < n)%nat ->
      BaselineLayers.encoder_layers c = throw IndexError).
Proof.
  intros n shortest. unfold BaselineLayers.encoder_layers, indices. fold n.
  split.
  - intros Hlen.
    destruct (@append_each_ok
                (fun i =>
                   (cin <-? np.getitem (BaselineLayers.encoder_in_chanels c) i ;;
                    cout <-? np.getitem (BaselineLayers.encoder_out_chanels c) i ;;
                    k <-? np.getitem (BaselineLayers.encoder_kernel_sizes c) i ;;
                    s <-? np.getitem (BaselineLayers.encoder_strides c) i ;;
                    ok ([Conv2d cin cout k s 1
                                (negb (BaselineLayers.use_batchnorm c))]
                          ++ when (BaselineLayers.use_batchnorm c)
                                  (BatchNorm2d cout)
                          ++ [Act (BaselineLayers.internal_activation c)]))%result)
                (if BaselineLayers.use_batchnorm c then 3 else 2)%nat
                (seq 0 n)) as [ls [Hls Hn]].
    + intros i Hi. apply in_seq in Hi.
      destruct (getitem_ok_or_IndexError (BaselineLayers.encoder_in_chanels c) i)
        as [[x1 [E1 _]]|[_ H]]; [|fold n in H; lia].
      destruct (getitem_ok_or_IndexError (BaselineLayers.encoder_out_chanels c) i)
        as [[x2 [E2 _]]|[_ H]]; [|subst shortest; lia].
      destruct (getitem_ok_or_IndexError (BaselineLayers.encoder_kernel_sizes c) i)
        as [[x3 [E3 _]]|[_ H]]; [|subst shortest; lia].
      destruct (getitem_ok_or_IndexError (BaselineLayers.encoder_strides c) i)
        as [[x4 [E4 _]]|[_ H]]; [|subst shortest; lia].
      rewrite E1, E2, E3, E4. cbn [rbind ok].
      eexists. split; [reflexivity|].
      destruct (BaselineLayers.use_batchnorm c); reflexivity.
    + exists ls. split; [exact Hls|]. now rewrite Hn, length_seq.
  - intros Hshort. apply append_each_raises.
    + intros i Hi.
      destruct (getitem_ok_or_IndexError (BaselineLayers.encoder_in_chanels c) i)
        as [[x1 [E1 _]]|[E1 _]]; rewrite E1; cbn [rbind ok throw]; [|now left].
      destruct (getitem_ok_or_IndexError (BaselineLayers.encoder_out_chanels c) i)
        as [[x2 [E2 _]]|[E2 _]]; rewrite E2; cbn [rbind ok throw]; [|now left].
      destruct (getitem_ok_or_IndexError (BaselineLayers.encoder_kernel_sizes c) i)
        as [[x3 [E3 _]]|[E3 _]]; rewrite E3; cbn [rbind ok throw]; [|now left].
      destruct (getitem_ok_or_IndexError (BaselineLayers.encoder_strides c) i)
        as [[x4 [E4 _]]|[E4 _]]; rewrite E4; cbn [rbind ok throw]; [|now left].
      right. eexists. reflexivity.
    + exists shortest. split; [apply in_seq; lia|].
      destruct (getitem_ok_or_IndexError (BaselineLayers.encoder_in_chanels c)
                                         shortest)
        as [[x1 [E1 _]]|[E1 _]]; rewrite E1; cbn [rbind ok throw];
        [|reflexivity].
      destruct (getitem_ok_or_IndexError (BaselineLayers.encoder_out_chanels c)
                                         shortest)
        as [[x2 [E2 H2]]|[E2 _]]; rewrite E2; cbn [rbind ok throw];
        [|reflexivity].
      destruct (getitem_ok_or_IndexError (BaselineLayers.encoder_kernel_sizes c)
                                         shortest)
        as [[x3 [E3 H3]]|[E3 _]]; rewrite E3; cbn [rbind ok throw];
        [|reflexivity].
      destruct (getitem_ok_or_IndexError (BaselineLayers.encoder_strides c)
                                         shortest)
        as [[x4 [E4 H4]]|[E4 _]]; rewrite E4; cbn [rbind ok throw];
        [|reflexivity].
      exfalso. subst shortest. lia.
Qed.

Lemma baseline_encoder_layers_by_list_lengths_witness :
  BaselineLayers.encoder_layers
    {| BaselineLayers.encoder_in_chanels := [1; 16]%Z;
       BaselineLayers.encoder_out_chanels := [16; 32]%Z;
       BaselineLayers.encoder_kernel_sizes := [3]%Z;
       BaselineLayers.encoder_strides := [1; 2]%Z;
       BaselineLayers.decoder_in_chanels := [];
       BaselineLayers.decoder_out_chanels := [];
       BaselineLayers.decoder_kernel_sizes := [];
       BaselineLayers.decoder_strides := [];
       BaselineLayers.use_batchnorm := true;
       BaselineLayers.internal_activation := ReLU;
       BaselineLayers.final_activation := Tanh |}
  = throw IndexError.
Proof.
  apply (proj2 (baseline_encoder_layers_by_list_lengths _)). cbn. lia.
Defined.

Lemma append_each_snoc (body : nat -> result (list layer)) (i : nat) :
  forall (idx : list nat) (ls : list layer),
    append_each body (idx ++ [i]) = ok ls ->
    exists front l,
      append_each body idx = ok front /\ body i = ok l /\ ls = front ++ l.
Proof.
  induction idx as [|j idx IH]; intros ls H; cbn [app append_each] in H.
  - destruct (body i) as [e|l]; cbn [rbind ok] in H; [discriminate|].
    injection H as <-. exists [], l. rewrite app_nil_r. auto.
  - destruct (body j) as [e|lj] eqn:Ej; cbn [rbind] in H; [discriminate|].
    destruct (append_each body (idx ++ [i])) as [e|more] eqn:E;
      cbn [rbind ok] in H; [discriminate|].
    injection H as <-.
    destruct (IH more eq_refl) as [front [l [Hf [Hl ->]]]].
    exists (lj ++ front), l. cbn [append_each]. rewrite Ej, Hf. cbn [rbind ok].
    split; [reflexivity|]. split; [exact Hl|]. now rewrite app_assoc.
Qed.

(** X9: how the decoders end.  The baseline decoder follows its last
    transposed convolution with the internal activation and then the
    final activation, two activations in a row, and puts no batch
    normalisation in between; the bottleneck decoder follows its last
    transposed convolution with the final activation alone. *)
Theorem decoder_layers_end (c : BaselineLayers.config) :
  BaselineLayers.decoder_in_chanels c <> [] ->
  (forall layers,
      BaselineLayers.decoder_layers c = ok layers ->
      exists front cin cout k s,
        layers = front
                   ++ [ConvTranspose2d cin cout k s 1
                                       (negb (BaselineLayers.use_batchnorm c));
                       Act (BaselineLayers.internal_activation c);
                       Act (BaselineLayers.final_activation c)])
  /\ (forall layers,
         BottleneckLayers.decoder_layers c = ok layers ->
         exists front cin cout k s,
           layers = front
                      ++ [ConvTranspose2d cin cout k s 1
                                          (negb (BaselineLayers.use_batchnorm c));
                          Act (BaselineLayers.final_activation c)]).
Proof.
  intros Hne.
  assert (Hn : exists n, List.length (BaselineLayers.decoder_in_chanels c) = S n).
  { destruct (BaselineLayers.decoder_in_chanels c); [congruence|].
    eexists. reflexivity. }
  destruct Hn as [n Hn].
  split; intros layers H.
  - unfold BaselineLayers.decoder_layers, indices in H.
    rewrite Hn, seq_S in H. cbn [Nat.add] in H.
    destruct (append_each _ (seq 0 n ++ [n])) as [e|ls] eqn:E;
      cbn [rbind ok] in H; [discriminate|].
    injection H as <-.
    destruct (append_each_snoc _ _ _ E) as [front [l [_ [Hl ->]]]].
    destruct (np.getitem (BaselineLayers.decoder_in_chanels c) n) as [e|cin];
      cbn [rbind] in Hl; [discriminate|].
    destruct (np.getitem (BaselineLayers.decoder_out_chanels c) n) as [e|cout];
      cbn [rbind] in Hl; [discriminate|].
    destruct (np.getitem (BaselineLayers.decoder_kernel_sizes c) n) as [e|k];
      cbn [rbind] in Hl; [discriminate|].
    destruct (np.getitem (BaselineLayers.decoder_strides c) n) as [e|s];
      cbn [rbind ok] in Hl; [discriminate|].
    injection Hl as <-.
    replace (n <? n - 0)%nat with false
      by (symmetry; apply Nat.ltb_ge; lia).
    rewrite andb_false_r. cbn [when app].
    exists front, cin, cout, k, s. now rewrite <- app_assoc.
  - unfold BottleneckLayers.decoder_layers, indices in H.
    rewrite Hn, seq_S in H. cbn [Nat.add] in H.
    destruct (append_each_snoc _ _ _ H) as [front [l [_ [Hl ->]]]].
    destruct (np.getitem (BaselineLayers.decoder_in_chanels c) n) as [e|cin];
      cbn [rbind] in Hl; [discriminate|].
    destruct (np.getitem (BaselineLayers.decoder_out_chanels c) n) as [e|cout];
      cbn [rbind] in Hl; [discriminate|].
    destruct (np.getitem (BaselineLayers.decoder_kernel_sizes c) n) as [e|k];
      cbn [rbind] in Hl; [discriminate|].
    destruct (np.getitem (BaselineLayers.decoder_strides c) n) as [e|s];
      cbn [rbind ok] in Hl; [discriminate|].
    injection Hl as <-.
    replace (n <? n - 0)%nat with false
      by (symmetry; apply Nat.ltb_ge; lia).
    rewrite andb_false_r. cbn [when app].
    exists front, cin, cout, k, s. reflexivity.
Qed.

Lemma decoder_layers_end_witness :
  exists layers front cin cout k s,
    BaselineLayers.decoder_layers BaselineLayers.defaults = ok layers
    /\ layers = front ++ [ConvTranspose2d cin cout k s 1 false; Act ReLU; Act Tanh].
Proof.
  assert (Hne : BaselineLayers.decoder_in_chanels BaselineLayers.defaults <> [])
    by discriminate.
  destruct (proj1 (@decoder_layers_end BaselineLayers.defaults Hne) _ baseline_default_decoder)
    as [front [cin [cout [k [s H]]]]].
  eexists. exists front, cin, cout, k, s.
  split; [apply baseline_default_decoder | exact H].
Defined.

(** ** [evaluate]: what makes it raise, and what it leaves behind *)

Lemma all_finite_cases (l : list scalar) :
  sklearn.all_finite l = throw ValueError
  \/ exists qs, sklearn.all_finite l = ok qs /\ l = map Fin qs.
Proof.
  unfold sklearn.all_finite.
  induction l as [|x l IH]; cbn [fold_right].
  - right. exists []. split; reflexivity.
  - destruct x as [q| | |]; try (left; reflexivity).
    destruct IH as [IH|[qs [IH ->]]]; rewrite IH; cbn [rbind throw ok].
    + left. reflexivity.
    + right. exists (q :: qs). split; reflexivity.
Qed.


Lemma roc_auc_score_raises_ValueError (y : list bool) (s : list scalar) (e : exn) :
  sklearn.roc_auc_score y s = inl e -> e = ValueError.
Proof.
  unfold sklearn.roc_auc_score, sklearn.check_consistent_length.
  destruct (_ =? _)%nat; cbn [rbind throw ok]; [|now intros [= <-]].
  destruct (all_finite_cases s) as [H|[qs [H _]]]; rewrite H; cbn [rbind throw ok];
    [now intros [= <-]|].
  destruct (_ && _); [|now intros [= <-]].
  destruct (sklearn._binary_clf_curve y qs) as [[fps tps] thr]. discriminate.
Qed.




Section EvaluationErrors.

Variables params stats grads optstate : Type.
Variable net : params -> stats -> bool -> tensor 4 -> tensor 4 * stats.

Let world : Type := world params stats grads optstate.





End EvaluationErrors.




(** ** The script: epochs, then the test pass *)

Section ScriptRuns.

Variables params stats grads optstate : Type.
Variable net : params -> stats -> bool -> tensor 4 -> tensor 4 * stats.
Variable grad_of :
  (tensor 4 -> result loss_value) -> params -> stats -> tensor 4 -> grads.
Variable zero_grads : grads.
Variable add_grads : grads -> grads -> grads.
Variable adam_step : optstate -> params -> grads -> params * optstate.

Let world : Type := world params stats grads optstate.

Variable self : autoencoder.
Variable log_to_mlflow : bool.
Variables train_loader val_loader : nat -> list batch_data.

Let run_epochs :=
  epochs net grad_of zero_grads add_grads adam_step self
         train_loader val_loader log_to_mlflow.
Let run_script :=
  train_and_test net grad_of zero_grads add_grads adam_step self.

(** When the loop over the epochs returns metrics, they are those of
    the validation pass of the last epoch, or the ones it started
    with when there is no epoch. *)
Lemma epochs_return_last_validation :
  forall (epoch_range : list nat) (loss : option loss_value)
         (val_metrics : option metrics) (w : world)
         (r : option metrics) (w' : world),
    run_epochs epoch_range loss val_metrics w = Return r w' ->
    (epoch_range = [] /\ r = val_metrics /\ w' = w)
    \/ (exists w1 m,
           evaluate net self (val_loader (last epoch_range 0%nat))
                    log_to_mlflow None w1
           = Return m w'
           /\ r = Some m).
Proof.
  unfold run_epochs.
  induction epoch_range as [|epoch rest IH]; intros loss val_metrics w r w' H.
  - left. cbn in H. injection H as <- <-. auto.
  - right. cbn [epochs] in H. unfold bind at 1 in H.
    destruct (train_batches _ _ _ _ _ _ _ _ _) as [l w1|e w1]; [|discriminate].
    unfold bind at 1 in H.
    destruct (print_loss l w1) as [[] w2|e w2] eqn:Hp; [|discriminate].
    assert (w2 = w1) as ->.
    { destruct l; cbn in Hp; [now injection Hp as <-|discriminate]. }
    unfold bind at 1 in H.
    destruct (evaluate net self (val_loader epoch) log_to_mlflow None w1)
      as [m w3|e w3] eqn:Hev; [|discriminate].
    destruct rest as [|e' rest'].
    + cbn [epochs ret] in H. injection H as <- <-.
      exists w1, m. split; [exact Hev | reflexivity].
    + destruct (IH _ _ _ _ _ H) as [[Hnil _]|[w4 [m' [Hm' ->]]]];
        [discriminate|].
      exists w4, m'. split; [exact Hm' | reflexivity].
Qed.

(** X14: when the train loader of the first epoch yields no batch,
    the script raises [NameError] at the line that prints the loss of
    the last batch, before any evaluation, and nothing has changed;
    in an epoch that starts with a loss already bound, an empty train
    loader raises nothing and the epoch goes on to its validation
    pass with the stale loss. *)
Theorem empty_first_train_loader_raises_NameError
        (num_epochs : nat) (test_loader : list batch_data) (w : world) :
  train_loader 1%nat = [] ->
  run_script (S num_epochs) train_loader val_loader test_loader log_to_mlflow w
  = Raised NameError w
  /\ (forall (epoch : nat) (rest : list nat) (l : loss_value)
             (val_metrics : option metrics) (w0 : world),
         train_loader epoch = [] ->
         run_epochs (epoch :: rest) (Some l) val_metrics w0
         = bind (evaluate net self (val_loader epoch) log_to_mlflow None)
                (fun m => run_epochs rest (Some l) (Some m)) w0).
Proof.
  intros H. split.
  - unfold run_script, train_and_test. unfold bind at 1.
    cbn [seq epochs]. rewrite H. reflexivity.
  - intros epoch rest l val_metrics w0 He.
    unfold run_epochs. cbn [epochs]. rewrite He. reflexivity.
Qed.

(** X15: when the script returns after at least one epoch, its test
    pass ran in test mode with the metrics that the validation pass of
    the last epoch returned; the thresholds selected in earlier epochs
    play no part.  Without any epoch the test pass runs in validation
    mode and selects its threshold on the test data. *)
Theorem test_pass_uses_last_validation_metrics
        (num_epochs : nat) (test_loader : list batch_data)
        (w w' : world) (m : metrics) :
  run_script num_epochs train_loader val_loader test_loader log_to_mlflow w
  = Return m w' ->
  match num_epochs with
  | O => evaluate net self test_loader log_to_mlflow None w = Return m w'
  | S _ =>
      exists (w1 w2 : world) (val_metrics : metrics),
        evaluate net self (val_loader num_epochs) log_to_mlflow None w1
        = Return val_metrics w2
        /\ evaluate net self test_loader log_to_mlflow (Some val_metrics) w2
           = Return m w'
  end.
Proof.
  unfold run_script, train_and_test. unfold bind at 1.
  destruct (epochs _ _ _ _ _ _ _ _ _ _ _ _ _) as [r w2|e w2] eqn:E;
    [|discriminate].
  intros H.
  destruct (epochs_return_last_validation _ _ _ _ E)
    as [[Hnil [-> ->]]|[w1 [vm [Hvm ->]]]].
  - destruct num_epochs; [exact H | discriminate].
  - destruct num_epochs as [|n].
    + cbn in E. injection E as E _. discriminate.
    + exists w1, w2, vm. split; [|exact H].
      replace (last (seq 1 (S n)) 0%nat) with (S n) in Hvm; [exact Hvm|].
      rewrite seq_S. now rewrite last_last.
Qed.

End ScriptRuns.

Lemma empty_first_train_loader_raises_NameError_witness :
  train_and_test Example.zero_net Example.no_grad_of tt Example.add_unit
                 Example.counting_step (__init__ true true) 3
                 (fun _ => []) (fun _ => Example.separated) Example.separated
                 false Example.w0
  = Raised NameError Example.w0.
Proof.
  apply (@empty_first_train_loader_raises_NameError
           unit unit unit nat Example.zero_net Example.no_grad_of tt
           Example.add_unit Example.counting_step (__init__ true true) false
           (fun _ => []) (fun _ => Example.separated) 2 Example.separated
           Example.w0 eq_refl).
Defined.

Lemma test_pass_uses_last_validation_metrics_witness :
  exists m w' w1 w2 val_metrics,
    train_and_test Example.zero_net Example.no_grad_of tt Example.add_unit
                   Example.counting_step (__init__ false true) 2
                   (fun _ => Example.train_set) (fun _ => Example.separated)
                   Example.top_normal false Example.w0
    = Return m w'
    /\ evaluate Example.zero_net (__init__ false true) Example.separated false
                None w1
       = Return val_metrics w2
    /\ evaluate Example.zero_net (__init__ false true) Example.top_normal false
                (Some val_metrics) w2
       = Return m w'.
Proof.
  destruct (train_and_test Example.zero_net Example.no_grad_of tt Example.add_unit
                           Example.counting_step (__init__ false true) 2
                           (fun _ => Example.train_set)
                           (fun _ => Example.separated)
                           Example.top_normal false Example.w0)
    as [m w'|e w'] eqn:E.
  - destruct (@test_pass_uses_last_validation_metrics
                unit unit unit nat Example.zero_net Example.no_grad_of tt
                Example.add_unit Example.counting_step (__init__ false true)
                false (fun _ => Example.train_set) (fun _ => Example.separated)
                2 Example.top_normal Example.w0 w' m E)
      as [w1 [w2 [vm [H1 H2]]]].
    exists m, w', w1, w2, vm. auto.
  - vm_compute in E. discriminate.
Defined.

(** ** The threshold that [evaluate] selects when F1 scores are undefined *)

Lemma sorted_before (pre post : list Qc) (d x : Qc) :
  StronglySorted (fun a b => b < a) (pre ++ d :: post) -> In x pre -> d < x.
Proof.
  induction pre as [|z pre IH]; cbn [app]; intros H Hx; [contradiction|].
  inversion H as [|? ? Hs Hall]; subst.
  destruct Hx as [->|Hx].
  - rewrite Forall_forall in Hall. apply Hall. apply in_or_app. right. now left.
  - now apply IH.
Qed.

Lemma sorted_app_l (pre post : list Qc) :
  StronglySorted (fun a b => b < a) (pre ++ post) ->
  StronglySorted (fun a b => b < a) pre.
Proof.
  induction pre as [|z pre IH]; cbn [app]; intros H; [constructor|].
  inversion H as [|? ? Hs Hall]; subst. constructor; [now apply IH|].
  rewrite Forall_forall in *. intros x Hx. apply Hall. apply in_or_app. now left.
Qed.

Lemma Qc_zero_div (q : Qc) : 0 / q = 0.
Proof. unfold Qcdiv. ring. Qed.

Lemma Qcmult_pos (a b : Qc) : 0 < a -> 0 < b -> 0 < a * b.
Proof.
  intros Ha Hb. rewrite <- (Qcmult_0_l b). now apply Qcmult_lt_compat_r.
Qed.

Lemma precision_without_true_positive (n : nat) :
  sklearn.nan_to_zero (np_div (qn 0) (qn n)) = Fin 0.
Proof.
  unfold np_div. rewrite qn_0.
  replace (Qc_eqb 0 0) with true by (symmetry; now apply Qc_eqb_eq).
  destruct (Qc_eqb (qn n) 0); [reflexivity|].
  now rewrite Qc_zero_div.
Qed.

Lemma recall_without_true_positive (P : nat) :
  (1 <= P)%nat -> np_div (qn 0) (qn P) = Fin 0.
Proof.
  intros HP. rewrite np_div_nonzero by (apply Qc_lt_neq, qn_pos; lia).
  now rewrite qn_0, Qc_zero_div.
Qed.

Lemma f1_of_zero_zero : f1_of (Fin 0) (Fin 0) = NaN.
Proof. vm_compute. reflexivity. Qed.

Lemma f1_of_Fin_pos (p r : Qc) :
  0 < p -> 0 < r -> exists v, f1_of (Fin p) (Fin r) = Fin v /\ 0 < v.
Proof.
  intros Hp Hr.
  assert (Hpos : 0 < p + r).
  { apply Qclt_le_trans with (y := p); [exact Hp|].
    rewrite <- (Qcplus_0_r p) at 1.
    apply Qcplus_le_compat; [apply Qcle_refl | now apply Qclt_le_weak]. }
  exists (qz 2 * p * r / (p + r)). split.
  - unfold f1_of. cbn [smul sadd sdiv].
    apply np_div_nonzero. now apply Qc_lt_neq.
  - apply Qc_div_pos; [|exact Hpos].
    apply Qcmult_pos; [|exact Hr]. apply Qcmult_pos; [|exact Hp].
    rewrite qz_2. apply Qclt_le_trans with (y := 1); [reflexivity|].
    rewrite <- (Qcplus_0_r 1) at 1. apply Qcplus_le_compat; [apply Qcle_refl|].
    discriminate.
Qed.

(** [np.nanmax] skips the undefined entries: on a list headed by a
    number whose other entries are numbers or NaN it returns a number
    that is at least the head. *)
Lemma nanmax_at_least_head (rest : list scalar) :
  Forall (fun x => x = NaN \/ exists u, x = Fin u) rest ->
  forall v, exists v', fold_left np.fmax rest (Fin v) = Fin v' /\ v <= v'.
Proof.
  induction 1 as [|x rest Hx _ IH]; intros v; cbn [fold_left].
  - exists v. split; [reflexivity | apply Qcle_refl].
  - destruct Hx as [->|[u ->]]; unfold np.fmax at 2; cbn [is_nan sle].
    + apply IH.
    + destruct (Qc_leb v u) eqn:E.
      * apply Qc_leb_le in E. destruct (IH u) as [v' [Hv' Hle]].
        exists v'. split; [exact Hv'|]. now apply Qcle_trans with (y := u).
      * apply IH.
Qed.

(** [np.argmax] stops at the first NaN. *)
Lemma argmax_scan_first_nan (l1 l2 : list scalar) :
  Forall (fun x => is_nan x = false) l1 ->
  forall mp idx i,
    np.argmax_scan mp idx i (l1 ++ NaN :: l2) = (i + List.length l1)%nat.
Proof.
  induction 1 as [|x l1 Hx _ IH]; intros mp idx i; cbn [app np.argmax_scan].
  - cbn [sle is_nan List.length]. lia.
  - destruct (sle x mp); [rewrite IH; cbn [List.length]; lia|].
    rewrite Hx, IH. cbn [List.length]. lia.
Qed.

(** On F1 scores that end with the entry of the curve's last point
    (precision 1, recall 0, F1 score 0), [np.argmax] never selects that
    last entry, which has no threshold. *)
Lemma argmax_scan_in_range (l : list scalar) :
  Forall (fun x => x = NaN \/ exists u, x = Fin u) l ->
  forall (mp : Qc) (idx i : nat),
    0 < mp -> (idx < i)%nat ->
    (np.argmax_scan (Fin mp) idx i (l ++ [Fin 0]) < i + List.length l)%nat.
Proof.
  induction 1 as [|x l Hx _ IH]; intros mp idx i Hmp Hidx;
    cbn [app np.argmax_scan List.length].
  - cbn [sle].
    replace (Qc_leb 0 mp) with true
      by (symmetry; apply Qc_leb_le; now apply Qclt_le_weak).
    lia.
  - destruct Hx as [->|[u ->]]; cbn [sle is_nan]; [lia|].
    destruct (Qc_leb u mp) eqn:E.
    + assert (H := IH mp idx (S i) Hmp). lia.
    + assert (Hu : 0 < u).
      { destruct (Qclt_le_dec mp u) as [Hlt|Hle].
        - now apply Qclt_trans with (y := mp).
        - apply Qc_leb_le in Hle. congruence. }
      assert (H := IH u i (S i) Hu). lia.
Qed.

Lemma first_without (f : Qc -> nat) (l : list Qc) (b : Qc) :
  In b l -> f b = 0%nat ->
  exists l1 t l2,
    l = l1 ++ t :: l2 /\ Forall (fun x => (1 <= f x)%nat) l1 /\ f t = 0%nat.
Proof.
  induction l as [|x l IH]; intros Hin Hb; [contradiction|].
  destruct (f x) as [|k] eqn:E.
  - exists [], x, l. repeat split; auto.
  - destruct Hin as [->|Hin]; [congruence|].
    destruct (IH Hin Hb) as [l1 [t [l2 [-> [Hl1 Ht]]]]].
    exists (x :: l1), t, l2. repeat split; auto.
    constructor; [lia | exact Hl1].
Qed.

Lemma count_true_zero (y : list bool) (s : list Qc) (t : Qc) :
  sklearn.count_at y s true t = 0%nat
  <-> (forall a, In (true, a) (combine y s) -> a < t).
Proof.
  split.
  - intros H a Ha.
    destruct (Qclt_le_dec a t) as [Hlt|Hle]; [exact Hlt|exfalso].
    assert (Hp : (1 <= sklearn.count_at y s true t)%nat).
    { unfold sklearn.count_at.
      apply filter_length_pos with (x := (true, a)); [exact Ha|].
      cbn. now apply Qc_leb_le. }
    lia.
  - intros H. unfold sklearn.count_at. rewrite filter_none; [reflexivity|].
    intros [c a] Hin. cbn [fst snd]. destruct c; [|reflexivity]. cbn.
    destruct (Qc_leb t a) eqn:E; [|reflexivity].
    apply Qc_leb_le in E. exfalso.
    exact (Qcle_not_lt _ _ E (H _ Hin)).
Qed.


Section CurveStructure.

Variables (y : list bool) (s : list Qc).

Hypothesis Hlen : List.length y = List.length s.
Hypothesis Hpos : exists a, In (true, a) (combine y s).

Let cT := sklearn.count_at y s true.
Let cF := sklearn.count_at y s false.
Let precision_at (d : Qc) : scalar :=
  sklearn.nan_to_zero (np_div (qn (cT d)) (qn (cT d + cF d))).
Let recall_at (P : nat) (d : Qc) : scalar := np_div (qn (cT d)) (qn P).

(** The curve without any assumption on the scores: it stops at the
    lowest abnormal score [m], where the recall is full, and its other
    thresholds are the distinct scores above [m], increasing. *)
Lemma curve_structure :
  exists (m : Qc) (pre : list Qc) (P : nat),
    In (true, m) (combine y s)
    /\ (forall a, In (true, a) (combine y s) -> m <= a)
    /\ (1 <= P)%nat
    /\ cT m = P
    /\ (forall x, (cT x <= P)%nat)
    /\ (forall x, In x pre <-> In x s /\ m < x)
    /\ StronglySorted (fun a b => b < a) pre
    /\ sklearn.precision_recall_curve y (map Fin s)
       = ok (map precision_at (m :: rev pre) ++ [Fin 1],
             map (recall_at P) (m :: rev pre) ++ [Fin 0],
             m :: rev pre).
Proof.
  destruct (@min_positive y s Hpos) as [m [Hm Hmin]].
  set (D := sklearn.distinct_desc s).
  assert (Hsorted : StronglySorted (fun a b => b < a) D)
    by apply distinct_desc_sorted.
  assert (HmD : In m D).
  { apply distinct_desc_In. eapply in_combine_r. exact Hm. }
  assert (Hne : D <> []) by (intro E; rewrite E in HmD; inversion HmD).
  assert (Hlast : forall a, In (true, a) (combine y s) -> last D 0 <= a).
  { intros a Ha. apply sorted_last_le; [exact Hsorted|].
    apply distinct_desc_In. eapply in_combine_r. exact Ha. }
  assert (HP : np.last_nat (map cT D) = cT m).
  { unfold np.last_nat. rewrite (@last_map _ _ cT D 0 0%nat Hne).
    now apply count_true_eq. }
  destruct (@searchsorted_split _ cT (cT m) D)
    as [pre [d [post [HD [Hpre [Hd Hs]]]]]].
  { apply Exists_exists. exists m. split; [exact HmD | lia]. }
  assert (Hdm : d = m).
  { rewrite HD in HmD. apply in_app_or in HmD as [Hin|[Heq|Hin]].
    - rewrite Forall_forall in Hpre. specialize (Hpre _ Hin). lia.
    - exact Heq.
    - exfalso. rewrite HD in Hsorted.
      assert (Hlt := @sorted_after _ _ _ _ Hsorted Hin).
      assert (H := @count_true_lt y s _ _ _ Hm Hlt Hmin). fold cT in H. lia. }
  subst d.
  exists m, pre, (cT m).
  split; [exact Hm|]. split; [exact Hmin|].
  split; [now apply count_true_pos|]. split; [reflexivity|].
  split; [intros x; now apply count_true_le|].
  split; [|split].
  - intros x. split.
    + intros Hx. split.
      * apply (proj1 (distinct_desc_In x s)). fold D. rewrite HD.
        apply in_or_app. now left.
      * rewrite HD in Hsorted. exact (@sorted_before _ _ _ _ Hsorted Hx).
    + intros [Hx Hlt].
      assert (HxD : In x D) by (now apply distinct_desc_In).
      rewrite HD in HxD. apply in_app_or in HxD as [Hin|[Heq|Hin]].
      * exact Hin.
      * subst x. exfalso. exact (Qclt_not_le _ _ Hlt (Qcle_refl _)).
      * exfalso. rewrite HD in Hsorted.
        assert (Hlt' := @sorted_after _ _ _ _ Hsorted Hin).
        exact (Qclt_not_le _ _ Hlt (Qclt_le_weak _ _ Hlt')).
  - rewrite HD in Hsorted. exact (@sorted_app_l _ _ Hsorted).
  - unfold sklearn.precision_recall_curve.
    rewrite check_consistent_length_ok by (now rewrite length_map).
    cbn [rbind]. rewrite all_finite_map_Fin. cbn [rbind ok].
    unfold sklearn._binary_clf_curve. fold D. fold cT. fold cF.
    rewrite HP, zip_with_map, Hs.
    assert (Hslice : forall (B : Type) (g : Qc -> B),
               np.slice_down_from (List.length pre) (map g D)
               = g m :: rev (map g pre)).
    { intros B g. rewrite HD. apply slice_down_split. }
    assert (Hthr := Hslice _ (fun x : Qc => x)).
    rewrite !map_id in Hthr.
    rewrite !map_map, !Hslice, Hthr.
    cbn [map]. rewrite !map_rev. reflexivity.
Qed.

(** The F1 score at a threshold: a positive number when an abnormal
    sample reaches the threshold, undefined (0/0) when none does. *)
Lemma f1_at_threshold (P : nat) (d : Qc) :
  (1 <= P)%nat -> (cT d <= P)%nat ->
  (cT d = 0%nat /\ f1_of (precision_at d) (recall_at P d) = NaN)
  \/ ((1 <= cT d)%nat
      /\ exists v, f1_of (precision_at d) (recall_at P d) = Fin v /\ 0 < v).
Proof.
  intros HP Hle. unfold precision_at, recall_at.
  destruct (cT d) as [|k] eqn:E.
  - left. split; [reflexivity|]. cbn [Nat.add].
    rewrite precision_without_true_positive.
    rewrite recall_without_true_positive by exact HP.
    apply f1_of_zero_zero.
  - right. split; [lia|].
    assert (Hqc : 0 < qn (S k)) by (apply qn_pos; lia).
    assert (Hqs : 0 < qn (S k + cF d)) by (apply qn_pos; lia).
    assert (HqP : 0 < qn P) by (apply qn_pos; lia).
    rewrite !np_div_nonzero by now apply Qc_lt_neq.
    cbn [sklearn.nan_to_zero is_nan].
    apply f1_of_Fin_pos; now apply Qc_div_pos.
Qed.

(** The selection when some normal sample has a score above every
    abnormal score: the F1 scores of the thresholds above the abnormal
    scores are NaN, [np.nanmax] skips them and [np.argmax] stops at the
    first of them. *)
Lemma f1_and_threshold_top_normal (b : Qc) :
  In (false, b) (combine y s) ->
  (forall a, In (true, a) (combine y s) -> a < b) ->
  exists (v t : Qc),
    f1_and_threshold y (map Fin s) None = ok (Fin v, t)
    /\ 0 < v
    /\ In (false, t) (combine y s)
    /\ (forall a, In (true, a) (combine y s) -> a < t)
    /\ (forall b', In b' s ->
                   (forall a, In (true, a) (combine y s) -> a < b') -> t <= b').
Proof.
  intros Hb Habove.
  destruct curve_structure
    as [m [pre [P [Hm [Hmin [HP [HcT [Hle [Hpre [Hsorted Hcurve]]]]]]]]]].
  assert (Hbs : In b s) by (eapply in_combine_r; exact Hb).
  assert (Hbpre : In b (rev pre)).
  { apply -> in_rev. apply Hpre. split; [exact Hbs | now apply Habove]. }
  assert (Hb0 : cT b = 0%nat) by (now apply count_true_zero).
  destruct (@first_without cT (rev pre) b Hbpre Hb0)
    as [l1 [t [l2 [Hsplit [Hl1 Ht]]]]].
  assert (Htpre : In t pre).
  { apply in_rev. rewrite Hsplit. apply in_or_app. right. now left. }
  assert (Hts : In t s) by (now apply Hpre).
  assert (Htabove : forall a, In (true, a) (combine y s) -> a < t)
    by (now apply count_true_zero).
  set (f := fun d => f1_of (precision_at d) (recall_at P d)).
  assert (Hfm : exists v0, f m = Fin v0 /\ 0 < v0).
  { destruct (@f1_at_threshold P m HP (Hle m)) as [[H0 _]|[_ H]];
      [fold cT in HcT; lia | exact H]. }
  destruct Hfm as [v0 [Hv0 Hv0pos]].
  assert (Hft : f t = NaN).
  { destruct (@f1_at_threshold P t HP (Hle t)) as [[_ H]|[H _]];
      [exact H | lia]. }
  assert (Hshape : forall l, Forall (fun x => x = NaN \/ exists u, x = Fin u)
                                    (map f l)).
  { intros l. apply Forall_map, Forall_forall. intros d _.
    destruct (@f1_at_threshold P d HP (Hle d)) as [[_ H]|[_ [v [H _]]]];
      [left; exact H | right; now exists v]. }
  assert (Hl1' : Forall (fun x => is_nan x = false) (map f l1)).
  { apply Forall_map. eapply Forall_impl; [|exact Hl1].
    intros d Hd. cbn beta in Hd |- *.
    destruct (@f1_at_threshold P d HP (Hle d)) as [[H0 _]|[_ [v [H _]]]];
      [lia | unfold f; now rewrite H]. }
  assert (Hlast : f1_of (Fin 1) (Fin 0) = Fin 0).
  { assert (E : [f1_of (Fin 1) (Fin 0)] = [Fin 0])
      by (apply scalars_eqb_eq; vm_compute; reflexivity).
    exact (f_equal (fun l => hd NaN l) E). }
  assert (Hf1 : f1_scores (map precision_at (m :: rev pre) ++ [Fin 1])
                          (map (recall_at P) (m :: rev pre) ++ [Fin 0])
                = Fin v0 :: map f l1 ++ NaN :: (map f l2 ++ [Fin 0])).
  { unfold f1_scores.
    rewrite zip_with_snoc by (now rewrite !length_map).
    rewrite zip_with_map. fold f. cbn [map app].
    rewrite Hv0, Hsplit, map_app. cbn [map]. rewrite Hft, Hlast.
    now rewrite <- app_assoc. }
  destruct (@nanmax_at_least_head (map f l1 ++ NaN :: (map f l2 ++ [Fin 0]))) 
    with (v := v0) as [v [Hv Hvle]].
  { apply Forall_app. split; [apply Hshape|].
    constructor; [now left|]. apply Forall_app. split; [apply Hshape|].
    constructor; [right; now exists 0 | constructor]. }
  exists v, t.
  split; [|split; [|split; [|split]]].
  - unfold f1_and_threshold. rewrite Hcurve. cbn [rbind ok].
    rewrite Hf1. cbn [np.nanmax np.argmax is_nan rbind ok].
    rewrite Hv. cbn [rbind ok].
    rewrite (@argmax_scan_first_nan _ _ Hl1').
    rewrite length_map, Hsplit. unfold np.getitem.
    cbn [Nat.add nth_error].
    rewrite nth_error_app2 by lia. rewrite Nat.sub_diag. reflexivity.
  - now apply Qclt_le_trans with (y := v0).
  - destruct (@combine_has_label _ _ y s t Hlen Hts) as [[|] Hc];
      [|exact Hc].
    exfalso. assert (H := @count_true_pos y s t Hc). fold cT in H. lia.
  - exact Htabove.
  - intros b' Hb's Hb'above.
    assert (Hb'pre : In b' (rev pre)).
    { apply -> in_rev. apply Hpre. split; [exact Hb's | now apply Hb'above]. }
    assert (Hb'0 : cT b' = 0%nat) by (now apply count_true_zero).
    rewrite Hsplit in Hb'pre. apply in_app_or in Hb'pre as [Hin|[<-|Hin]].
    + rewrite Forall_forall in Hl1. specialize (Hl1 _ Hin). lia.
    + apply Qcle_refl.
    + apply Qclt_le_weak.
      assert (Hpre' : pre = rev l2 ++ t :: rev l1).
      { rewrite <- (rev_involutive pre), Hsplit, rev_app_distr.
        cbn [rev]. now rewrite <- app_assoc. }
      rewrite Hpre' in Hsorted.
      apply (@sorted_before _ _ _ _ Hsorted). now apply -> in_rev.
Qed.

(** With finite scores and an abnormal sample the selection always
    returns: a positive F1 score, and a threshold that is one of the
    scores. *)
Lemma f1_and_threshold_defined :
  exists (v t : Qc),
    f1_and_threshold y (map Fin s) None = ok (Fin v, t) /\ 0 < v /\ In t s.
Proof.
  destruct curve_structure
    as [m [pre [P [Hm [Hmin [HP [HcT [Hle [Hpre [Hsorted Hcurve]]]]]]]]]].
  destruct (existsb (fun x => (cT x =? 0)%nat) pre) eqn:E.
  - apply existsb_exists in E as [b [Hb Hb0]]. apply Nat.eqb_eq in Hb0.
    assert (Hbs : In b s) by (now apply Hpre).
    assert (Habove : forall a, In (true, a) (combine y s) -> a < b)
      by (now apply count_true_zero).
    assert (Hlab : In (false, b) (combine y s)).
    { destruct (@combine_has_label _ _ y s b Hlen Hbs) as [[|] Hc];
        [|exact Hc].
      exfalso. assert (H := @count_true_pos y s b Hc). fold cT in H. lia. }
    destruct (f1_and_threshold_top_normal Hlab Habove)
      as [v [t [Hsel [Hv [Ht _]]]]].
    exists v, t. split; [exact Hsel|]. split; [exact Hv|].
    eapply in_combine_r. exact Ht.
  - set (f := fun d => f1_of (precision_at d) (recall_at P d)).
    assert (Hfm : exists v0, f m = Fin v0 /\ 0 < v0).
    { destruct (@f1_at_threshold P m HP (Hle m)) as [[H0 _]|[_ H]];
        [fold cT in HcT; lia | exact H]. }
    destruct Hfm as [v0 [Hv0 Hv0pos]].
    assert (Hshape : forall l, Forall (fun x => x = NaN \/ exists u, x = Fin u)
                                      (map f l)).
    { intros l. apply Forall_map, Forall_forall. intros d _.
      destruct (@f1_at_threshold P d HP (Hle d)) as [[_ H]|[_ [v [H _]]]];
        [left; exact H | right; now exists v]. }
    assert (Hlast : f1_of (Fin 1) (Fin 0) = Fin 0).
    { assert (E0 : [f1_of (Fin 1) (Fin 0)] = [Fin 0])
        by (apply scalars_eqb_eq; vm_compute; reflexivity).
      exact (f_equal (fun l => hd NaN l) E0). }
    assert (Hf1 : f1_scores (map precision_at (m :: rev pre) ++ [Fin 1])
                            (map (recall_at P) (m :: rev pre) ++ [Fin 0])
                  = Fin v0 :: map f (rev pre) ++ [Fin 0]).
    { unfold f1_scores.
      rewrite zip_with_snoc by (now rewrite !length_map).
      rewrite zip_with_map. fold f. cbn [map app].
      now rewrite Hv0, Hlast. }
    destruct (@nanmax_at_least_head (map f (rev pre) ++ [Fin 0]))
      with (v := v0) as [v [Hv Hvle]].
    { apply Forall_app. split; [apply Hshape|].
      constructor; [right; now exists 0 | constructor]. }
    assert (Hi := @argmax_scan_in_range (map f (rev pre)) (Hshape (rev pre))
                                        v0 0%nat 1%nat Hv0pos (Nat.lt_0_1)).
    set (i := np.argmax_scan (Fin v0) 0 1 (map f (rev pre) ++ [Fin 0])) in *.
    rewrite length_map in Hi.
    destruct (nth_error (m :: rev pre) i) as [t|] eqn:Hnth.
    2:{ apply nth_error_None in Hnth. cbn [List.length] in Hnth. lia. }
    exists v, t. split; [|split].
    + unfold f1_and_threshold. rewrite Hcurve. cbn [rbind ok].
      rewrite Hf1. cbn [np.nanmax np.argmax is_nan rbind ok].
      rewrite Hv. cbn [rbind ok]. fold i.
      unfold np.getitem. rewrite Hnth. reflexivity.
    + now apply Qclt_le_trans with (y := v0).
    + apply nth_error_In in Hnth. destruct Hnth as [<-|Hin].
      * eapply in_combine_r. exact Hm.
      * apply in_rev in Hin. now apply Hpre.
Qed.

End CurveStructure.

Lemma roc_auc_score_ok_inv (y : list bool) (s : list scalar) (auc : scalar) :
  sklearn.roc_auc_score y s = ok auc ->
  List.length y = List.length s
  /\ (exists qs, s = map Fin qs)
  /\ existsb (fun l => l) y = true
  /\ existsb negb y = true.
Proof.
  unfold sklearn.roc_auc_score, sklearn.check_consistent_length.
  destruct (List.length y =? List.length s)%nat eqn:El;
    cbn [rbind throw ok]; [|discriminate].
  apply Nat.eqb_eq in El.
  destruct (all_finite_cases s) as [H|[qs [H Hs]]]; rewrite H;
    cbn [rbind throw ok]; [discriminate|].
  destruct (existsb (fun l => l) y && existsb negb y) eqn:Ec; [|discriminate].
  apply andb_true_iff in Ec as [Hp Hn]. intros _.
  split; [exact El|]. split; [now exists qs|]. now split.
Qed.

Lemma all_finite_forallb (s : list scalar) :
  (exists qs, s = map Fin qs) <-> forallb is_finite s = true.
Proof.
  split.
  - intros [qs ->]. induction qs as [|q qs IH]; [reflexivity | exact IH].
  - induction s as [|x s IH]; intros H; [now exists []|].
    cbn [forallb] in H. apply andb_true_iff in H as [Hx Hs].
    destruct (IH Hs) as [qs ->].
    destruct x as [q| | |]; try discriminate. now exists (q :: qs).
Qed.

Section ThresholdSelection.

Variables params stats grads optstate : Type.
Variable net : params -> stats -> bool -> tensor 4 -> tensor 4 * stats.

Let world : Type := world params stats grads optstate.


(** X17: on a loader whose batches line up (the forward pass returns an
    output of the shape of the images, and the masks have that shape),
    [evaluate] in validation mode returns exactly when there are as
    many labels as samples, every score is a finite number and both
    classes are present; otherwise it raises the [ValueError] of
    [roc_auc_score].  In particular
    [thresholds[np.argmax(f1_scores)]] never raises [IndexError],
    although [f1_scores] has one entry more than [thresholds].  The F1
    score it returns is a positive number and the threshold is the
    score of a sample. *)
Theorem evaluate_validation_returns_iff
        (mv mt : bool) (loader : list batch_data) (log_to_mlflow : bool)
        (w : world) :
  shapes_agree net (parameters w) false loader ->
  let labels := flat_map label loader in
  let scores :=
    eval_scores net mv (parameters w) (running_stats w) false loader in
  let o := evaluate net (__init__ mv mt) loader log_to_mlflow None w in
  List.length scores = samples loader
  /\ ((exists m, o = Return m (logged (log_trace log_to_mlflow)
                                      (evaluated net mv loader w)))
      <-> (List.length labels = samples loader
           /\ forallb is_finite scores = true
           /\ existsb (fun l => l) labels = true
           /\ existsb negb labels = true))
  /\ (returned o = None -> o = Raised ValueError (evaluated net mv loader w))
  /\ (forall m, returned o = Some m ->
                (exists v, f1_score m = Fin v /\ 0 < v)
                /\ In (Fin (optimal_mse_threshold m)) scores).
Proof.
  intros Hshapes labels scores o.
  assert (Hcount : List.length scores = samples loader)
    by (now apply eval_scores_length).
  split; [exact Hcount|]. rewrite <- Hcount.
  assert (E : o = evaluate net (__init__ mv mt) loader log_to_mlflow None w)
    by reflexivity.
  clearbody o. rewrite evaluate_run in E. fold labels scores in E.
  unfold score_metrics in E.
  destruct (sklearn.roc_auc_score labels scores) as [e|auc] eqn:Hauc.
  - cbn [rbind] in E.
    rewrite (@roc_auc_score_raises_ValueError _ _ _ Hauc) in E. subst o.
    split; [split|split].
    + intros [m H]. discriminate.
    + intros [Hlen [Hfin [Hp Hn]]]. exfalso.
      apply all_finite_forallb in Hfin as [qs Hqs].
      rewrite Hqs in Hauc, Hlen. rewrite length_map in Hlen.
      destruct (@roc_auc_score_defined _ _ Hlen Hp Hn) as [auc Hok].
      rewrite Hok in Hauc. discriminate.
    + reflexivity.
    + intros m H. discriminate.
  - destruct (roc_auc_score_ok_inv _ _ Hauc) as [Hlen [[qs Hqs] [Hp Hn]]].
    assert (Hlen' : List.length labels = List.length qs)
      by (now rewrite Hlen, Hqs, length_map).
    assert (Hpos : exists a, In (true, a) (combine labels qs)).
    { apply existsb_exists in Hp as [c [Hc Ht]]. subst c.
      exact (@combine_has_score _ _ _ _ _ Hlen' Hc). }
    destruct (@f1_and_threshold_defined _ _ Hlen' Hpos)
      as [v [t [Hsel [Hv Ht]]]].
    cbn [rbind option_map] in E. rewrite Hqs, Hsel in E.
    cbn [rbind ok] in E. subst o.
    split; [split|split].
    + intros _. split; [exact Hlen|]. split; [|now split].
      apply all_finite_forallb. now exists qs.
    + intros _. eexists. reflexivity.
    + discriminate.
    + intros m H. cbn [returned] in H. injection H as <-.
      cbn [f1_score optimal_mse_threshold]. split; [now exists v|].
      rewrite Hqs. now apply in_map.
Qed.

End ThresholdSelection.


Lemma evaluate_validation_returns_iff_witness :
  shapes_agree Example.zero_net tt false Example.separated
  /\ exists m,
      evaluate Example.zero_net (__init__ false false) Example.separated true
               None Example.w0
      = Return m (logged (log_trace true)
                         (evaluated Example.zero_net false Example.separated
                                    Example.w0)).
Proof.
  assert (H : shapes_agree Example.zero_net tt false Example.separated).
  { constructor; [intros s; reflexivity | constructor]. }
  split; [exact H|].
  destruct (@evaluate_validation_returns_iff
              unit unit unit nat Example.zero_net false false
              Example.separated true Example.w0 H) as [_ [[_ Hret] _]].
  apply Hret. split; [reflexivity|]. split; [|split; reflexivity].
  apply all_finite_forallb. exists [qfrac 1 3; qfrac 2 3; qz 1].
  apply scalars_eqb_eq. vm_compute. reflexivity.
Defined.

(** ** The bottleneck stacks on sizes that are not multiples of 512 *)

Section BottleneckFloorSteps.

Import BottleneckLayers.





End BottleneckFloorSteps.



(** ** The score with and without the masked validation loss *)

Lemma tsum_masked_le (n : nat) :
  forall o i m : tensor n,
    binary_mask n m = true ->
    tsum n (tmap2 sqerr n (tmul n o m) (tmul n i m))
    <= tsum n (tmap2 sqerr n o i).
Proof.
  unfold tmul, binary_mask.
  induction n as [|n IH]; simpl.
  - intros o i m H. unfold is_binary in H.
    apply orb_true_iff in H as [H|H]; apply Qc_eqb_eq in H; subst.
    + replace (sqerr (o * 0) (i * 0)) with 0 by (unfold sqerr; ring).
      apply Qc_square_nonneg.
    + rewrite !Qcmult_1_r. apply Qcle_refl.
  - induction o as [|x o IHo]; destruct i as [|y i]; destruct m as [|z m];
      simpl; intros H; try apply Qcle_refl.
    + rewrite <- (Qcplus_0_r 0).
      apply Qcplus_le_compat; apply tsum_sqerr_nonneg
      || (apply (tsum_sqerr_nonneg (S n) o i)).
    + apply andb_true_iff in H as [H1 H2].
      apply Qcplus_le_compat; [now apply IH | now apply IHo].
Qed.

Lemma tsum_binary_nonneg (n : nat) :
  forall m : tensor n, binary_mask n m = true -> 0 <= tsum n m.
Proof.
  unfold binary_mask.
  induction n as [|n IH]; simpl.
  - intros m H. unfold is_binary in H.
    apply orb_true_iff in H as [H|H]; apply Qc_eqb_eq in H; subst;
      [apply Qcle_refl | discriminate].
  - induction m as [|z m IHm]; simpl; intros H; [apply Qcle_refl|].
    apply andb_true_iff in H as [H1 H2].
    rewrite <- (Qcplus_0_r 0).
    apply Qcplus_le_compat; [now apply IH | now apply IHm].
Qed.

Lemma Qc_div_le_compat (a b s : Qc) : 0 < s -> a <= b -> a / s <= b / s.
Proof.
  intros Hs Hab. unfold Qcdiv. apply Qcmult_le_compat_r; [exact Hab|].
  apply Qclt_le_weak.
  replace (/ s) with (1 / s) by (unfold Qcdiv; ring).
  apply Qc_div_pos; [reflexivity | exact Hs].
Qed.

(** X19: for a sample with a 0/1 mask that is not all zero, the score
    that the loop of [evaluate] computes without the masked loss
    ([masked_loss_on_val] false) is at least the score it computes with
    it: the squared errors of the pixels outside the mask are added,
    and the sum is divided by the same mask sum. *)
Theorem unmasked_score_at_least_masked_score (o i m : tensor 3) :
  binary_mask 3 m = true ->
  tsum 3 m <> 0 ->
  exists a b : Qc,
    anomaly_score true o i m = Fin a
    /\ anomaly_score false o i m = Fin b
    /\ 0 <= a /\ a <= b.
Proof.
  intros Hbin Hne.
  assert (Hs : 0 < tsum 3 m).
  { destruct (Qclt_le_dec 0 (tsum 3 m)) as [H|H]; [exact H|exfalso].
    apply Hne. apply Qcle_antisym; [exact H | now apply tsum_binary_nonneg]. }
  unfold anomaly_score, per_pixel_loss, MSELoss.none.
  rewrite !np_div_nonzero by exact Hne.
  eexists. eexists. split; [reflexivity|]. split; [reflexivity|]. split.
  - replace 0 with (0 / tsum 3 m) by apply Qc_zero_div.
    apply Qc_div_le_compat; [exact Hs | apply tsum_sqerr_nonneg].
  - apply Qc_div_le_compat; [exact Hs | now apply tsum_masked_le].
Qed.

Lemma unmasked_score_at_least_masked_score_witness :
  exists a b : Qc,
    anomaly_score true [[[qz 0; qz 0; qz 0]]] [[[qz 1; qz 2; qz 7]]]
                  [[[qz 1; qz 1; qz 0]]]
    = Fin a
    /\ anomaly_score false [[[qz 0; qz 0; qz 0]]] [[[qz 1; qz 2; qz 7]]]
                     [[[qz 1; qz 1; qz 0]]]
       = Fin b
    /\ 0 <= a /\ a <= b.
Proof.
  apply (@unmasked_score_at_least_masked_score
           [[[qz 0; qz 0; qz 0]]] [[[qz 1; qz 2; qz 7]]] [[[qz 1; qz 1; qz 0]]]).
  - reflexivity.
  - intro H. apply (f_equal this) in H. vm_compute in H. discriminate.
Defined.

(** ** The range of the masked loss *)

Lemma Qcmult_nonneg (a b : Qc) : 0 <= a -> 0 <= b -> 0 <= a * b.
Proof.
  intros Ha Hb. rewrite <- (Qcmult_0_l b). now apply Qcmult_le_compat_r.
Qed.

Lemma Qc_nonneg_sub (a b : Qc) : a <= b -> 0 <= b - a.
Proof. intros H. now apply -> Qcle_minus_iff. Qed.

Lemma sqerr_unit_bounded (i t : Qc) :
  unit_bounded i = true -> unit_bounded t = true -> sqerr i t <= qz 4.
Proof.
  unfold unit_bounded. intros Hi Ht.
  apply andb_true_iff in Hi as [Hi1 Hi2]. apply andb_true_iff in Ht as [Ht1 Ht2].
  apply Qc_leb_le in Hi1, Hi2, Ht1, Ht2.
  apply Qc_nonneg_sub in Hi1, Hi2, Ht1, Ht2.
  assert (Hlo : 0 <= (1 + 1) + (i - t)).
  { replace ((1 + 1) + (i - t)) with ((i - - (1)) + (1 - t)) by ring.
    rewrite <- (Qcplus_0_r 0). now apply Qcplus_le_compat. }
  assert (Hhi : 0 <= (1 + 1) - (i - t)).
  { replace ((1 + 1) - (i - t)) with ((1 - i) + (t - - (1))) by ring.
    rewrite <- (Qcplus_0_r 0). now apply Qcplus_le_compat. }
  assert (Hprod := Qcmult_nonneg Hlo Hhi).
  apply Qcle_minus_iff.
  replace (qz 4) with ((1 + 1) * (1 + 1)) by (apply Qc_is_canon; reflexivity).
  unfold sqerr.
  replace ((1 + 1) * (1 + 1) + - ((i - t) * (i - t)))
    with ((1 + 1 + (i - t)) * (1 + 1 - (i - t))) by ring.
  exact Hprod.
Qed.

Lemma tsum_masked_sqerr_bounded (n : nat) :
  forall i t m : tensor n,
    tall unit_bounded n i = true ->
    tall unit_bounded n t = true ->
    binary_mask n m = true ->
    tsum n (tmap2 sqerr n (tmul n i m) (tmul n t m)) <= qz 4 * tsum n m.
Proof.
  assert (H4 : 0 <= qz 4) by discriminate.
  induction n as [|n IH].
  - cbn [tall tsum tmap2 tmul binary_mask]. intros i t m Hi Ht Hm.
    unfold tmul. cbn [tmap2]. unfold is_binary in Hm.
    apply orb_true_iff in Hm as [Hm|Hm]; apply Qc_eqb_eq in Hm; subst.
    + replace (sqerr (i * 0) (t * 0)) with 0 by (unfold sqerr; ring).
      rewrite Qcmult_0_r. apply Qcle_refl.
    + rewrite !Qcmult_1_r. now apply sqerr_unit_bounded.
  - induction i as [|x i IHi]; destruct t as [|y t]; destruct m as [|z m];
      intros Hi Ht Hm;
      try (apply Qcmult_nonneg;
           [exact H4 | apply (tsum_binary_nonneg (S n)); exact Hm]).
    unfold binary_mask in Hm. cbn [tall forallb] in Hi, Ht, Hm.
    apply andb_true_iff in Hi as [Hx Hi]. apply andb_true_iff in Ht as [Hy Ht].
    apply andb_true_iff in Hm as [Hz Hm].
    change (tsum n (tmap2 sqerr n (tmul n x z) (tmul n y z))
            + tsum (S n) (tmap2 sqerr (S n) (tmul (S n) i m) (tmul (S n) t m))
            <= qz 4 * (tsum n z + tsum (S n) m)).
    rewrite Qcmult_plus_distr_r.
    apply Qcplus_le_compat; [now apply IH | now apply IHi].
Qed.

(** X5: for a reconstruction and an image of equal shape with entries
    between -1 and 1 (the range of the final activations and of the
    images), and a 0/1 mask of that shape that is not all zero, the
    loss in 'mean' reduction is a number between 0 and 4: every squared
    error under the mask is at most 4 and the sum is divided by the
    number of valid pixels. *)
Theorem masked_mse_mean_within_range (input target mask : tensor 4) :
  same_shape 4 input target = true ->
  same_shape 4 input mask = true ->
  tall unit_bounded 4 input = true ->
  tall unit_bounded 4 target = true ->
  binary_mask 4 mask = true ->
  tsum 4 mask <> 0 ->
  exists v : Qc,
    MaskedMSE.forward MaskedMSE.default input target mask = ZeroDim (Fin v)
    /\ 0 <= v /\ v <= qz 4.
Proof.
  intros _ _ Hi Ht Hbin Hne.
  assert (Hs : 0 < tsum 4 mask).
  { destruct (Qclt_le_dec 0 (tsum 4 mask)) as [H|H]; [exact H|exfalso].
    apply Hne. apply Qcle_antisym; [exact H | now apply tsum_binary_nonneg]. }
  rewrite forward_mean. unfold MaskedMSE.criterion, MSELoss.none.
  rewrite np_div_nonzero by exact Hne.
  eexists. split; [reflexivity|]. split.
  - replace 0 with (0 / tsum 4 mask) by apply Qc_zero_div.
    apply Qc_div_le_compat; [exact Hs | apply tsum_sqerr_nonneg].
  - replace (qz 4) with (qz 4 * tsum 4 mask / tsum 4 mask) by (now field).
    apply Qc_div_le_compat; [exact Hs|].
    now apply tsum_masked_sqerr_bounded.
Qed.

Lemma masked_mse_mean_within_range_witness :
  tall unit_bounded 4 ex_recon = true
  /\ tall unit_bounded 4 ex_image = true
  /\ binary_mask 4 ex_padded_mask = true
  /\ exists v : Qc,
      MaskedMSE.forward MaskedMSE.default ex_recon ex_image ex_padded_mask
      = ZeroDim (Fin v)
      /\ 0 <= v /\ v <= qz 4.
Proof.
  do 3 (split; [reflexivity|]).
  apply (@masked_mse_mean_within_range ex_recon ex_image ex_padded_mask);
    try reflexivity.
  intro H. apply (f_equal this) in H. vm_compute in H. discriminate.
Defined.
